(** * Inventory ledger of the store tracker (src/src/App.tsx)

    A shallow embedding of the ledger operations of [App]: the two React
    state cells [items] and [sales] are one explicit [State], and every
    handler ([upsertItem], [adjustStock], [addSale], [updateSale],
    [deleteSale], [importJson]) is a function from a state to the next
    state, paired with the [alert] it raises, if any, for the handlers
    that can raise one.  The forms that call the handlers
    ([InventoryTab], [RestockButton], [SellTab], [EditableSaleCard]) are
    functions of their form state and the state, and the derived views
    ([statsByItem], [filteredItems], the totals of [ReportTab]) are
    functions of the items and the sales.

    Conventions of the embedding.
    - A JavaScript [number] is an IEEE-754 binary64 value: Rocq's primitive
      [float], with its NaN, infinities and signed zeros.  [+], [-], [*],
      [<], [<=] and [===] on numbers are the primitive operations.
    - An optional property ([stockUnits?: number]) is an [option]; a
      [Partial<T>] argument has one more [option] per key, [None] meaning
      that the key is not supplied.
    - [uid()] and [Date.now()] are inputs of the handlers ([newId], [now]).
    - A handler runs against the state the component was last rendered
      with (the closure [itemMap] is built from the current [items]), and
      every state updater runs once, as in a production build ([App] is
      rendered inside [React.StrictMode], which runs updaters a second
      time in development builds). *)

From Stdlib Require Import Floats ZArith Bool Ascii String List Lia.
From stdpp Require Import base option list strings gmap.

(** ** JavaScript numbers and strings *)

Module JS.

(** Truthiness of a number: [0], [-0] and [NaN] are falsy. *)
Definition truthy (x : float) : bool := negb (is_zero x || is_nan x).

(** [o || d] for an optional number [o]. *)
Definition or_else (o : option float) (d : float) : float :=
  match o with
  | Some x => if truthy x then x else d
  | None => d
  end.

(** [o || 0]. *)
Definition or0 (o : option float) : float := or_else o 0%float.

(** The condition [if (o)] for an optional number. *)
Definition truthy_opt (o : option float) : bool :=
  match o with
  | Some x => truthy x
  | None => false
  end.

(** [s || d] for an optional string: the empty string is falsy. *)
Definition str_or (o : option string) (d : string) : string :=
  match o with
  | Some EmptyString | None => d
  | Some s => s
  end.

(** [s || undefined]. *)
Definition str_or_undefined (o : option string) : option string :=
  match o with
  | Some EmptyString | None => None
  | Some s => Some s
  end.

(** White space removed by [String.prototype.trim], on the ASCII range:
    tab, line feed, vertical tab, form feed, carriage return, space. *)
Definition is_space (c : ascii) : bool :=
  let n := nat_of_ascii c in
  (Nat.leb 9 n && Nat.leb n 13) || Nat.eqb n 32.

Fixpoint trim_start (s : string) : string :=
  match s with
  | String c s' => if is_space c then trim_start s' else s
  | EmptyString => EmptyString
  end.

Fixpoint trim_end (s : string) : string :=
  match s with
  | String c s' =>
      match trim_end s' with
      | EmptyString => if is_space c then EmptyString else String c EmptyString
      | t => String c t
      end
  | EmptyString => EmptyString
  end.

Definition trim (s : string) : string := trim_end (trim_start s).

End JS.

(** ** Types (App.tsx, lines 14-49) *)

Inductive TrackBy := ByUnit | ByKg.

Module Item.
Record t := mk {
  id : string;
  name : string;
  sku : option string;
  photoDataUrl : option string;
  trackBy : TrackBy;
  unitLabel : option string;
  pricePerUnit : option float;
  pricePerKg : option float;
  stockUnits : option float;
  stockKg : option float;
  createdAt : float;
  updatedAt : float
}.

(** [{ ...i, stockUnits: next, updatedAt: now }] *)
Definition with_stockUnits (next now : float) (i : t) : t :=
  mk (id i) (name i) (sku i) (photoDataUrl i) (trackBy i) (unitLabel i)
     (pricePerUnit i) (pricePerKg i) (Some next) (stockKg i)
     (createdAt i) now.

(** [{ ...i, stockKg: next, updatedAt: now }] *)
Definition with_stockKg (next now : float) (i : t) : t :=
  mk (id i) (name i) (sku i) (photoDataUrl i) (trackBy i) (unitLabel i)
     (pricePerUnit i) (pricePerKg i) (stockUnits i) (Some next)
     (createdAt i) now.
End Item.

(** [Partial<Item> & { id?: string }]. *)
Module PartialItem.
Record t := mk {
  id : option string;
  name : option string;
  sku : option (option string);
  photoDataUrl : option (option string);
  trackBy : option TrackBy;
  unitLabel : option (option string);
  pricePerUnit : option (option float);
  pricePerKg : option (option float);
  stockUnits : option (option float);
  stockKg : option (option float);
  createdAt : option float;
  updatedAt : option float
}.
End PartialItem.

Module Sale.
Record t := mk {
  id : string;
  itemId : string;
  qtyUnits : option float;
  qtyKg : option float;
  unitPrice : option float;
  kgPrice : option float;
  total : float;
  note : option string;
  photoDataUrl : option string;
  timestamp : float
}.

(** [next.total = v] *)
Definition with_total (v : float) (s : t) : t :=
  mk (id s) (itemId s) (qtyUnits s) (qtyKg s) (unitPrice s) (kgPrice s)
     v (note s) (photoDataUrl s) (timestamp s).
End Sale.

(** [Partial<Sale>]. *)
Module PartialSale.
Record t := mk {
  id : option string;
  itemId : option string;
  qtyUnits : option (option float);
  qtyKg : option (option float);
  unitPrice : option (option float);
  kgPrice : option (option float);
  total : option float;
  note : option (option string);
  photoDataUrl : option (option string);
  timestamp : option float
}.
End PartialSale.

(** The argument of [addSale]. *)
Module SalePayload.
Record t := mk {
  itemId : string;
  qtyUnits : option float;
  qtyKg : option float;
  overridePrice : option float;
  note : option string
}.
End SalePayload.

(** One key of an object spread [{ ...old, ...changes }]: the key of
    [changes] wins when [changes] has it. *)
Definition spread {A : Type} (old : A) (change : option A) : A :=
  match change with
  | Some v => v
  | None => old
  end.

(** The messages passed to [alert]; the numbers and labels they print are
    kept as arguments. *)
Inductive Alert :=
  | InsufficientStock (available : float) (label : string)
  | InsufficientStockToIncrease (available : float) (label : string)
  | InvalidBackupFile
  | FailedToImportFile.

(** The persisted state: [items] and [sales] of [App]. *)
Record State := mkState {
  items : list Item.t;
  sales : list Sale.t
}.

(** ** Helpers (App.tsx, lines 55-57, 155) *)

Definition clampNonNeg (n : float) : float :=
  if is_finite n && (0 <? n)%float then n else 0%float.

(** [itemMap = new Map(items.map(i => [i.id, i]))]: a later entry replaces
    an earlier one with the same key. *)
Definition itemMap (its : list Item.t) : gmap string Item.t :=
  foldl (fun m i => <[Item.id i := i]> m) ∅ its.

Local Open Scope float_scope.

(** ** Statistics per item (App.tsx, lines 158-178) *)

Record Stats := mkStats {
  soldUnits : float;
  soldKg : float;
  revenue : float
}.

(** The first loop: one zero record per item id. *)
Definition statsBase (its : list Item.t) : gmap string Stats :=
  foldl (fun base it => <[Item.id it := mkStats 0 0 0]> base) ∅ its.

(** The body of the second loop: [continue] when the sale's item is not in
    [base], else add the clamped quantities and total to its record. *)
Definition statsAdd (base : gmap string Stats) (s : Sale.t) : gmap string Stats :=
  match base !! Sale.itemId s with
  | None => base
  | Some st =>
      <[Sale.itemId s :=
          mkStats (soldUnits st + clampNonNeg (JS.or0 (Sale.qtyUnits s)))
                  (soldKg st + clampNonNeg (JS.or0 (Sale.qtyKg s)))
                  (revenue st + clampNonNeg (JS.or0 (Some (Sale.total s))))]> base
  end.

Definition statsByItem (its : list Item.t) (sls : list Sale.t) : gmap string Stats :=
  foldl statsAdd (statsBase its) sls.

(** ** Items (App.tsx, lines 181-228) *)

Definition join_opt {A : Type} (o : option (option A)) : option A :=
  match o with
  | Some v => v
  | None => None
  end.

(** [{ ...i, ...partial, updatedAt: now }] *)
Definition mergeItem (now : float) (partial : PartialItem.t) (i : Item.t) : Item.t :=
  Item.mk (spread (Item.id i) (PartialItem.id partial))
          (spread (Item.name i) (PartialItem.name partial))
          (spread (Item.sku i) (PartialItem.sku partial))
          (spread (Item.photoDataUrl i) (PartialItem.photoDataUrl partial))
          (spread (Item.trackBy i) (PartialItem.trackBy partial))
          (spread (Item.unitLabel i) (PartialItem.unitLabel partial))
          (spread (Item.pricePerUnit i) (PartialItem.pricePerUnit partial))
          (spread (Item.pricePerKg i) (PartialItem.pricePerKg partial))
          (spread (Item.stockUnits i) (PartialItem.stockUnits partial))
          (spread (Item.stockKg i) (PartialItem.stockKg partial))
          (spread (Item.createdAt i) (PartialItem.createdAt partial))
          now.

(** The item built by the creation branch. *)
Definition newItem (newId : string) (now : float) (partial : PartialItem.t) : Item.t :=
  let trackBy := spread ByUnit (PartialItem.trackBy partial) in
  Item.mk newId
          (JS.str_or (option_map JS.trim (PartialItem.name partial)) "Unnamed")
          (JS.str_or_undefined (option_map JS.trim (join_opt (PartialItem.sku partial))))
          (join_opt (PartialItem.photoDataUrl partial))
          trackBy
          (Some (JS.str_or (join_opt (PartialItem.unitLabel partial))
                           (match trackBy with ByKg => "kg" | ByUnit => "unit" end)))
          (join_opt (PartialItem.pricePerUnit partial))
          (join_opt (PartialItem.pricePerKg partial))
          (match trackBy with
           | ByUnit => Some (clampNonNeg (JS.or0 (join_opt (PartialItem.stockUnits partial))))
           | ByKg => None
           end)
          (match trackBy with
           | ByKg => Some (clampNonNeg (JS.or0 (join_opt (PartialItem.stockKg partial))))
           | ByUnit => None
           end)
          now now.

Definition upsertItem (newId : string) (now : float) (partial : PartialItem.t)
    (st : State) : State :=
  match PartialItem.id partial with
  | Some (String _ _ as pid) =>
      mkState
        (map (fun i => if String.eqb (Item.id i) pid then mergeItem now partial i else i)
             (items st))
        (sales st)
  | _ => mkState (newItem newId now partial :: items st) (sales st)
  end.

Definition deleteItem (id : string) (alsoDeleteSales : bool) (st : State) : State :=
  mkState
    (List.filter (fun i => negb (String.eqb (Item.id i) id)) (items st))
    (if alsoDeleteSales
     then List.filter (fun s => negb (String.eqb (Sale.itemId s) id)) (sales st)
     else sales st).

(** The function mapped over [prev] by [adjustStock]. *)
Definition adjustItem (now : float) (id : string) (deltaUnits deltaKg : option float)
    (i : Item.t) : Item.t :=
  if negb (String.eqb (Item.id i) id) then i
  else match Item.trackBy i with
       | ByUnit =>
           let next := clampNonNeg (JS.or0 (Item.stockUnits i) + JS.or0 deltaUnits) in
           Item.with_stockUnits next now i
       | ByKg =>
           let next := clampNonNeg (JS.or0 (Item.stockKg i) + JS.or0 deltaKg) in
           Item.with_stockKg next now i
       end.

Definition adjustStock (now : float) (id : string) (deltaUnits deltaKg : option float)
    (st : State) : State :=
  mkState (map (adjustItem now id deltaUnits deltaKg) (items st)) (sales st).

(** ** Sales (App.tsx, lines 231-356) *)

(** [payload.note?.trim() || undefined] *)
Definition trimmedNote (note : option string) : option string :=
  JS.str_or_undefined (option_map JS.trim note).

(** [Number.isFinite(o) ? o : d]; [undefined] is not finite. *)
Definition finiteOr (o : option float) (d : float) : float :=
  match o with
  | Some x => if is_finite x then x else d
  | None => d
  end.

Definition addSale (newId : string) (now : float) (payload : SalePayload.t)
    (st : State) : State * option Alert :=
  match itemMap (items st) !! SalePayload.itemId payload with
  | None => (st, None)
  | Some it =>
      match Item.trackBy it with
      | ByUnit =>
          let q := clampNonNeg (JS.or0 (SalePayload.qtyUnits payload)) in
          if q <=? 0 then (st, None)
          else
            let price := finiteOr (SalePayload.overridePrice payload)
                                  (JS.or0 (Item.pricePerUnit it)) in
            let total := q * price in
            if JS.or0 (Item.stockUnits it) <? q then
              (st, Some (InsufficientStock (JS.or0 (Item.stockUnits it))
                                           (JS.str_or (Item.unitLabel it) "unit")))
            else
              let sale :=
                Sale.mk newId (Item.id it) (Some q) None (Some price) None total
                        (trimmedNote (SalePayload.note payload)) None now in
              (adjustStock now (Item.id it) (Some (- q)) (Some 0)
                 (mkState (items st) (sale :: sales st)), None)
      | ByKg =>
          let qkg := clampNonNeg (JS.or0 (SalePayload.qtyKg payload)) in
          if qkg <=? 0 then (st, None)
          else
            let priceKg := finiteOr (SalePayload.overridePrice payload)
                                    (JS.or0 (Item.pricePerKg it)) in
            let total := qkg * priceKg in
            if JS.or0 (Item.stockKg it) <? qkg then
              (st, Some (InsufficientStock (JS.or0 (Item.stockKg it))
                                           (JS.str_or (Item.unitLabel it) "kg")))
            else
              let sale :=
                Sale.mk newId (Item.id it) None (Some qkg) None (Some priceKg) total
                        (trimmedNote (SalePayload.note payload)) None now in
              (adjustStock now (Item.id it) (Some 0) (Some (- qkg))
                 (mkState (items st) (sale :: sales st)), None)
      end
  end.

(** [{ ...old, ...changes }] *)
Definition mergeSale (changes : PartialSale.t) (old : Sale.t) : Sale.t :=
  Sale.mk (spread (Sale.id old) (PartialSale.id changes))
          (spread (Sale.itemId old) (PartialSale.itemId changes))
          (spread (Sale.qtyUnits old) (PartialSale.qtyUnits changes))
          (spread (Sale.qtyKg old) (PartialSale.qtyKg changes))
          (spread (Sale.unitPrice old) (PartialSale.unitPrice changes))
          (spread (Sale.kgPrice old) (PartialSale.kgPrice changes))
          (spread (Sale.total old) (PartialSale.total changes))
          (spread (Sale.note old) (PartialSale.note changes))
          (spread (Sale.photoDataUrl old) (PartialSale.photoDataUrl changes))
          (spread (Sale.timestamp old) (PartialSale.timestamp changes)).

(** [prev.find((s) => s.id === saleId)] *)
Definition findSale (saleId : string) (prev : list Sale.t) : option Sale.t :=
  List.find (fun s => String.eqb (Sale.id s) saleId) prev.

(** [prev.map((s) => (s.id === saleId ? next : s))] *)
Definition replaceSale (saleId : string) (next : Sale.t) (prev : list Sale.t) : list Sale.t :=
  map (fun s => if String.eqb (Sale.id s) saleId then next else s) prev.

Definition updateSale (now : float) (saleId : string) (changes : PartialSale.t)
    (st : State) : State * option Alert :=
  match findSale saleId (sales st) with
  | None => (st, None)
  | Some old =>
      match itemMap (items st) !! Sale.itemId old with
      | None => (st, None)
      | Some it =>
          let next := mergeSale changes old in
          match Item.trackBy it with
          | ByUnit =>
              let oldQty := clampNonNeg (JS.or0 (Sale.qtyUnits old)) in
              let newQty := clampNonNeg (JS.or0 (Sale.qtyUnits next)) in
              let delta := newQty - oldQty in
              let finish (st1 : State) :=
                let price := finiteOr (Sale.unitPrice next) (JS.or0 (Item.pricePerUnit it)) in
                (mkState (items st1)
                         (replaceSale saleId (Sale.with_total (price * newQty) next) (sales st)),
                 None) in
              if negb (delta =? 0) then
                let available := JS.or0 (Item.stockUnits it) in
                if (0 <? delta) && (available <? delta) then
                  (st, Some (InsufficientStockToIncrease
                               available (JS.str_or (Item.unitLabel it) "unit")))
                else finish (adjustStock now (Item.id it) (Some (- delta)) (Some 0) st)
              else finish st
          | ByKg =>
              let oldKg := clampNonNeg (JS.or0 (Sale.qtyKg old)) in
              let newKg := clampNonNeg (JS.or0 (Sale.qtyKg next)) in
              let delta := newKg - oldKg in
              let finish (st1 : State) :=
                let price := finiteOr (Sale.kgPrice next) (JS.or0 (Item.pricePerKg it)) in
                (mkState (items st1)
                         (replaceSale saleId (Sale.with_total (price * newKg) next) (sales st)),
                 None) in
              if negb (delta =? 0) then
                let available := JS.or0 (Item.stockKg it) in
                if (0 <? delta) && (available <? delta) then
                  (st, Some (InsufficientStockToIncrease
                               available (JS.str_or (Item.unitLabel it) "kg")))
                else finish (adjustStock now (Item.id it) (Some 0) (Some (- delta)) st)
              else finish st
          end
      end
  end.

(** [it.trackBy === "unit"], [it.trackBy === "kg"] *)
Definition isUnit (it : Item.t) : bool :=
  match Item.trackBy it with ByUnit => true | ByKg => false end.
Definition isKg (it : Item.t) : bool :=
  match Item.trackBy it with ByKg => true | ByUnit => false end.

Definition deleteSale (now : float) (saleId : string) (st : State) : State :=
  match findSale saleId (sales st) with
  | None => st
  | Some s =>
      let st2 :=
        match itemMap (items st) !! Sale.itemId s with
        | Some it =>
            let st1 :=
              if isUnit it && JS.truthy_opt (Sale.qtyUnits s)
              then adjustStock now (Item.id it) (Sale.qtyUnits s) (Some 0) st
              else st in
            if isKg it && JS.truthy_opt (Sale.qtyKg s)
            then adjustStock now (Item.id it) (Some 0) (Sale.qtyKg s) st1
            else st1
        | None => st
        end in
      mkState (items st2)
              (List.filter (fun x => negb (String.eqb (Sale.id x) saleId)) (sales st))
  end.

(** ** Restore (App.tsx, lines 376-392) *)

(** What [Array.isArray] sees in a property of the parsed backup: an array,
    taken at the element type of the state cell it is assigned to, or any
    other value, [undefined] included. *)
Inductive Field (A : Type) :=
  | IsArray (l : list A)
  | NotArray.
Arguments IsArray {A} l.
Arguments NotArray {A}.

(** The outcome of [JSON.parse] followed by the two property reads:
    [Throws] when the text is not JSON or the parsed value is [null]. *)
Inductive Parsed :=
  | Throws
  | Value (p_items : Field Item.t) (p_sales : Field Sale.t).

Definition importJson (parsed : Parsed) (st : State) : State * option Alert :=
  match parsed with
  | Throws => (st, Some FailedToImportFile)
  | Value (IsArray its) (IsArray sls) => (mkState its sls, None)
  | Value _ _ => (st, Some InvalidBackupFile)
  end.

(** ** Sequences of ledger operations *)

Inductive Op :=
  | AdjustStock (now : float) (id : string) (deltaUnits deltaKg : option float)
  | RecordSale (newId : string) (now : float) (payload : SalePayload.t)
  | UpdateSale (now : float) (saleId : string) (changes : PartialSale.t)
  | DeleteSale (now : float) (saleId : string).

Definition step (st : State) (o : Op) : State :=
  match o with
  | AdjustStock now id du dk => adjustStock now id du dk st
  | RecordSale newId now payload => fst (addSale newId now payload st)
  | UpdateSale now saleId changes => fst (updateSale now saleId changes st)
  | DeleteSale now saleId => deleteSale now saleId st
  end.

Definition run (st : State) (ops : list Op) : State := foldl step st ops.

(** The stock field of an item's tracking mode. *)
Definition stockField (i : Item.t) : option float :=
  match Item.trackBy i with
  | ByUnit => Item.stockUnits i
  | ByKg => Item.stockKg i
  end.

(** The available stock, as every handler reads it: [i.stockUnits || 0] or
    [i.stockKg || 0]. *)
Definition stockInMode (i : Item.t) : float := JS.or0 (stockField i).

(** The invariant: the stock field of the tracking mode, when the item has
    it, holds a number [>= 0] (so not NaN). *)
Definition stockNonNeg (i : Item.t) : Prop :=
  match stockField i with
  | Some x => (0 <=? x) = true
  | None => True
  end.

(** What a ledger operation may do to one item: the identifier and the
    tracking mode stay, and a non-negative stock stays non-negative. *)
Definition evolves (i i' : Item.t) : Prop :=
  Item.id i' = Item.id i /\
  Item.trackBy i' = Item.trackBy i /\
  (stockNonNeg i -> stockNonNeg i').

(** ** The forms that call the handlers *)

(** [InventoryTab] (App.tsx, lines 488-533).  [editing] is the item being
    edited, [None] when the form creates an item; [form] is the form
    state, a [Partial<Item>].  [Number(x) || 0] of an optional number [x]
    is [JS.or0 x], [Number(undefined)] being NaN.  The payload holds every
    key it lists, some with the value [undefined]; for [id] and [name],
    whose type here has no [undefined], that is written as the absent key:
    [upsertItem] does not tell the two apart for [id], and for [name] only
    when it updates an item from a form without a name. *)
Module InventoryTab.

Definition payload (editing : option Item.t) (form : PartialItem.t) : PartialItem.t :=
  let trackBy := spread ByUnit (PartialItem.trackBy form) in
  PartialItem.mk
    (option_map Item.id editing)
    (option_map JS.trim (PartialItem.name form))
    (Some (option_map JS.trim (join_opt (PartialItem.sku form))))
    (Some (join_opt (PartialItem.photoDataUrl form)))
    (Some trackBy)
    (Some (Some (JS.str_or (option_map JS.trim (join_opt (PartialItem.unitLabel form)))
                           (match trackBy with ByKg => "kg" | ByUnit => "unit" end))))
    (Some (match trackBy with
           | ByUnit => Some (JS.or0 (join_opt (PartialItem.pricePerUnit form)))
           | ByKg => None
           end))
    (Some (match trackBy with
           | ByKg => Some (JS.or0 (join_opt (PartialItem.pricePerKg form)))
           | ByUnit => None
           end))
    (Some (match trackBy with
           | ByUnit => Some (clampNonNeg (JS.or0 (join_opt (PartialItem.stockUnits form))))
           | ByKg => None
           end))
    (Some (match trackBy with
           | ByKg => Some (clampNonNeg (JS.or0 (join_opt (PartialItem.stockKg form))))
           | ByUnit => None
           end))
    None None.

Definition submit (newId : string) (now : float) (editing : option Item.t)
    (form : PartialItem.t) (st : State) : State :=
  upsertItem newId now (payload editing form) st.

End InventoryTab.

(** [RestockButton] (lines 1117-1131) as [InventoryTab] uses it for item
    [i] (lines 745-757). *)
Module RestockButton.

Definition apply (now : float) (i : Item.t) (n : float) (st : State) : State :=
  if 0 <? n then
    match Item.trackBy i with
    | ByUnit => adjustStock now (Item.id i) (Some n) (Some 0) st
    | ByKg => adjustStock now (Item.id i) (Some 0) (Some n) st
    end
  else st.

End RestockButton.

(** [SellTab] (lines 778-821): [overridePrice] is [None] for the empty
    string of the form state. *)
Module SellTab.

Record Form := mkForm {
  itemId : string;
  qtyUnits : float;
  qtyKg : float;
  overridePrice : option float;
  note : string
}.

(** [items.find((i) => i.id === itemId) || null] *)
Definition current (f : Form) (its : list Item.t) : option Item.t :=
  List.find (fun i => String.eqb (Item.id i) (itemId f)) its.

Definition submit (newId : string) (now : float) (f : Form) (st : State)
    : State * option Alert :=
  match current f (items st) with
  | None => (st, None)
  | Some cur =>
      let price :=
        match Item.trackBy cur with
        | ByKg => match overridePrice f with
                  | None => JS.or0 (Item.pricePerKg cur)
                  | Some p => p
                  end
        | ByUnit => match overridePrice f with
                    | None => JS.or0 (Item.pricePerUnit cur)
                    | Some p => p
                    end
        end in
      match Item.trackBy cur with
      | ByUnit =>
          addSale newId now
            (SalePayload.mk (Item.id cur) (Some (JS.or0 (Some (qtyUnits f)))) None
                            (Some price) (JS.str_or_undefined (Some (JS.trim (note f)))))
            st
      | ByKg =>
          addSale newId now
            (SalePayload.mk (Item.id cur) None (Some (JS.or0 (Some (qtyKg f))))
                            (Some price) (JS.str_or_undefined (Some (JS.trim (note f)))))
            st
      end
  end.

End SellTab.

(** [EditableSaleCard] (lines 944-984), for the sale [sale] and the item
    [item] it is rendered with. *)
Module EditableSaleCard.

Record Edit := mkEdit {
  qtyUnits : float;
  qtyKg : float;
  price : float;
  note : string
}.

Definition changes (item : Item.t) (e : Edit) : PartialSale.t :=
  match Item.trackBy item with
  | ByKg =>
      PartialSale.mk None None None (Some (Some (qtyKg e))) None (Some (Some (price e)))
                     None (Some (JS.str_or_undefined (Some (JS.trim (note e))))) None None
  | ByUnit =>
      PartialSale.mk None None (Some (Some (qtyUnits e))) None (Some (Some (price e))) None
                     None (Some (JS.str_or_undefined (Some (JS.trim (note e))))) None None
  end.

Definition save (now : float) (sale : Sale.t) (item : Item.t) (e : Edit) (st : State)
    : State * option Alert :=
  updateSale now (Sale.id sale) (changes item e) st.

End EditableSaleCard.

(** [ReportTab] (lines 1054-1071).  [statsByItem.get(it.id)!] is
    [undefined] for an id without a record and reading its [revenue]
    throws: [None]. *)
Module ReportTab.

Record Totals := mkTotals {
  revenue : float;
  totalUnits : float;
  totalKg : float
}.

Definition add (acc : option Totals) (st : option Stats) : option Totals :=
  match acc, st with
  | Some t, Some (mkStats units kg rev) =>
      Some (mkTotals (revenue t + rev) (totalUnits t + units) (totalKg t + kg))
  | _, _ => None
  end.

Definition totals (its : list Item.t) (stats : gmap string Stats) : option Totals :=
  foldl (fun acc it => add acc (stats !! Item.id it)) (Some (mkTotals 0 0 0)) its.

End ReportTab.

(** ** The search of the inventory (App.tsx, lines 395-403) *)

(** [String.prototype.toLowerCase] and [String.prototype.includes], on
    the ASCII range. *)
Definition lower (c : ascii) : ascii :=
  let n := nat_of_ascii c in
  if Nat.leb 65 n && Nat.leb n 90 then ascii_of_nat (n + 32) else c.

Fixpoint toLowerCase (s : string) : string :=
  match s with
  | String c s' => String (lower c) (toLowerCase s')
  | EmptyString => EmptyString
  end.

Fixpoint includes (s q : string) : bool :=
  String.prefix q s ||
  match s with
  | String _ s' => includes s' q
  | EmptyString => false
  end.

(** The test of the filter, for the query [q]. *)
Definition matches (q : string) (i : Item.t) : bool :=
  includes (toLowerCase (Item.name i)) q ||
  includes (toLowerCase (JS.str_or (Item.sku i) EmptyString)) q.

Definition filteredItems (search : string) (its : list Item.t) : list Item.t :=
  match toLowerCase (JS.trim search) with
  | EmptyString => its
  | q => List.filter (matches q) its
  end.

(** ** Sessions: sequences of actions of the user interface *)

Inductive Action :=
  | SaveItem (newId : string) (now : float) (editing : option Item.t) (form : PartialItem.t)
  | DeleteItem (id : string) (alsoDeleteSales : bool)
  | Restock (now : float) (i : Item.t) (n : float)
  | Sell (newId : string) (now : float) (f : SellTab.Form)
  | SaveSale (now : float) (sale : Sale.t) (item : Item.t) (e : EditableSaleCard.Edit)
  | RemoveSale (now : float) (saleId : string).

Definition act (st : State) (a : Action) : State :=
  match a with
  | SaveItem newId now editing form => InventoryTab.submit newId now editing form st
  | DeleteItem id also => deleteItem id also st
  | Restock now i n => RestockButton.apply now i n st
  | Sell newId now f => fst (SellTab.submit newId now f st)
  | SaveSale now sale item e => fst (EditableSaleCard.save now sale item e st)
  | RemoveSale now saleId => deleteSale now saleId st
  end.

Definition session (st : State) (acts : list Action) : State := foldl act st acts.

(** An edit form is opened on an item and so has a name. *)
Definition namedEdit (a : Action) : Prop :=
  match a with
  | SaveItem _ _ (Some _) form => is_Some (PartialItem.name form)
  | _ => True
  end.

(** The stock of the item's tracking mode is there and is a finite number
    [>= 0]. *)
Definition stockSound (i : Item.t) : Prop :=
  match stockField i with
  | Some x => is_finite x = true /\ (0 <=? x) = true
  | None => False
  end.

(** ** Vocabulary of the properties *)

(** The fields of a payload, a sale or an edit that belong to the tracking
    mode of item [it], and the values the handlers derive from them. *)
Definition payloadQtyField (it : Item.t) (payload : SalePayload.t) : option float :=
  match Item.trackBy it with
  | ByUnit => SalePayload.qtyUnits payload
  | ByKg => SalePayload.qtyKg payload
  end.

(** The requested quantity after clamping: [q] or [qkg] of [addSale]. *)
Definition requestedQty (it : Item.t) (payload : SalePayload.t) : float :=
  clampNonNeg (JS.or0 (payloadQtyField it payload)).

(** The item's current catalog price: [it.pricePerUnit || 0] or
    [it.pricePerKg || 0]. *)
Definition catalogPrice (it : Item.t) : float :=
  match Item.trackBy it with
  | ByUnit => JS.or0 (Item.pricePerUnit it)
  | ByKg => JS.or0 (Item.pricePerKg it)
  end.

(** The price [addSale] charges: [price] or [priceKg]. *)
Definition resolvedPrice (it : Item.t) (payload : SalePayload.t) : float :=
  finiteOr (SalePayload.overridePrice payload) (catalogPrice it).

(** The label printed by the alerts. *)
Definition labelOf (it : Item.t) : string :=
  JS.str_or (Item.unitLabel it)
            (match Item.trackBy it with ByUnit => "unit" | ByKg => "kg" end).

Definition saleQtyField (it : Item.t) (s : Sale.t) : option float :=
  match Item.trackBy it with
  | ByUnit => Sale.qtyUnits s
  | ByKg => Sale.qtyKg s
  end.

Definition salePriceField (it : Item.t) (s : Sale.t) : option float :=
  match Item.trackBy it with
  | ByUnit => Sale.unitPrice s
  | ByKg => Sale.kgPrice s
  end.

Definition changesPriceField (it : Item.t) (c : PartialSale.t) : option (option float) :=
  match Item.trackBy it with
  | ByUnit => PartialSale.unitPrice c
  | ByKg => PartialSale.kgPrice c
  end.

(** The clamped quantity of a stored sale: [oldQty], [newQty] of
    [updateSale]. *)
Definition saleQty (it : Item.t) (s : Sale.t) : float :=
  clampNonNeg (JS.or0 (saleQtyField it s)).

(** [delta] of [updateSale]. *)
Definition editDelta (it : Item.t) (changes : PartialSale.t) (old : Sale.t) : float :=
  saleQty it (mergeSale changes old) - saleQty it old.

(** The sale built by [addSale] for item [it], and the two deltas it
    passes to [adjustStock]. *)
Definition newSale (newId : string) (now : float) (it : Item.t)
    (payload : SalePayload.t) : Sale.t :=
  let q := requestedQty it payload in
  let p := resolvedPrice it payload in
  match Item.trackBy it with
  | ByUnit =>
      Sale.mk newId (Item.id it) (Some q) None (Some p) None (q * p)
              (trimmedNote (SalePayload.note payload)) None now
  | ByKg =>
      Sale.mk newId (Item.id it) None (Some q) None (Some p) (q * p)
              (trimmedNote (SalePayload.note payload)) None now
  end.

Definition deltaUnitsOf (it : Item.t) (d : float) : option float :=
  match Item.trackBy it with ByUnit => Some d | ByKg => Some 0 end.

Definition deltaKgOf (it : Item.t) (d : float) : option float :=
  match Item.trackBy it with ByUnit => Some 0 | ByKg => Some d end.

(** What a successful [addSale] for item [it] is said to do: one sale is
    put in front of the sales, with the clamped quantity [q], the resolved
    price [p] and the total [q * p], and the item, looked up again, has its
    stock in the same mode lowered by exactly [q]. *)
Definition saleRecorded (newId : string) (now : float) (payload : SalePayload.t)
    (st : State) (it : Item.t) : Prop :=
  let q := requestedQty it payload in
  let p := resolvedPrice it payload in
  exists (sale : Sale.t) (st' : State) (it' : Item.t),
    addSale newId now payload st = (st', None) /\
    sales st' = sale :: sales st /\
    Sale.id sale = newId /\
    Sale.itemId sale = Item.id it /\
    saleQtyField it sale = Some q /\
    salePriceField it sale = Some p /\
    Sale.total sale = q * p /\
    itemMap (items st') !! Item.id it = Some it' /\
    Item.trackBy it' = Item.trackBy it /\
    stockInMode it' = stockInMode it - q.

(** What selling and at once deleting the sale is said to do: the sale is
    gone and the item, looked up again, has the stock it had. *)
Definition roundTripRestores (newId : string) (now now' : float)
    (payload : SalePayload.t) (st : State) (it : Item.t) : Prop :=
  let st2 := deleteSale now' newId (fst (addSale newId now payload st)) in
  exists it2 : Item.t,
    findSale newId (sales st2) = None /\
    sales st2 = List.filter (fun x => negb (String.eqb (Sale.id x) newId)) (sales st) /\
    itemMap (items st2) !! Item.id it = Some it2 /\
    Item.trackBy it2 = Item.trackBy it /\
    stockInMode it2 = stockInMode it.

(** [x] is the whole number [n], with [0 <= n < 2 ^ 53]. *)
Definition whole (x : float) (n : Z) : Prop :=
  (0 <= n < 2 ^ 53)%Z /\ Prim2SF x = binary_normalize prec emax n 0 false.

(** The three aggregates of an item are [>= 0]. *)
Definition nonNegStats (st : Stats) : Prop :=
  (0 <=? soldUnits st) = true /\
  (0 <=? soldKg st) = true /\
  (0 <=? revenue st) = true.

(** What one sale adds to the record of its item. *)
Definition addToStats (st : Stats) (s : Sale.t) : Stats :=
  mkStats (soldUnits st + clampNonNeg (JS.or0 (Sale.qtyUnits s)))
          (soldKg st + clampNonNeg (JS.or0 (Sale.qtyKg s)))
          (revenue st + clampNonNeg (JS.or0 (Some (Sale.total s)))).

(** [{ id, stockUnits: -1, stockKg: -1 }]: an edit of item [id] that
    supplies negative stock for both modes. *)
Definition negativeStock (id : string) : PartialItem.t :=
  PartialItem.mk (Some id) None None None None None None None
                 (Some (Some (-1))) (Some (Some (-1))) None None.

(** Everything of an item but the stock of its tracking mode and the time
    of the last update. *)
Definition sameCatalog (i i' : Item.t) : Prop :=
  Item.id i' = Item.id i /\
  Item.name i' = Item.name i /\
  Item.sku i' = Item.sku i /\
  Item.photoDataUrl i' = Item.photoDataUrl i /\
  Item.trackBy i' = Item.trackBy i /\
  Item.unitLabel i' = Item.unitLabel i /\
  Item.pricePerUnit i' = Item.pricePerUnit i /\
  Item.pricePerKg i' = Item.pricePerKg i /\
  Item.createdAt i' = Item.createdAt i /\
  match Item.trackBy i with
  | ByUnit => Item.stockKg i' = Item.stockKg i
  | ByKg => Item.stockUnits i' = Item.stockUnits i
  end.

(** The item an operation is about: the item adjusted, the item sold, the
    item of the sale edited or deleted. *)
Definition targetOf (st : State) (o : Op) : option string :=
  match o with
  | AdjustStock _ id _ _ => Some id
  | RecordSale _ _ payload => Some (SalePayload.itemId payload)
  | UpdateSale _ saleId _ | DeleteSale _ saleId =>
      option_map Sale.itemId (findSale saleId (sales st))
  end.

(** The sales of item [k]. *)
Definition salesOf (k : string) (sls : list Sale.t) : list Sale.t :=
  List.filter (fun s => String.eqb (Sale.itemId s) k) sls.

(** Is there an item with identifier [k]? *)
Definition hasItem (k : string) (its : list Item.t) : bool :=
  existsb (fun i => String.eqb (Item.id i) k) its.

(** [x] is the integer [n], with [|n| < 2 ^ 53]. *)
Definition integer (x : float) (n : Z) : Prop :=
  (- 2 ^ 53 < n < 2 ^ 53)%Z /\ Prim2SF x = binary_normalize prec emax n 0 false.

(** ** Counting in whole numbers *)

(** The integer part of a finite binary64 number, [0] for the others. *)
Definition toZ (x : float) : Z :=
  match Prim2SF x with
  | S754_finite s m e => cond_Zopp s (Z.shiftl (Zpos m) e)
  | _ => 0%Z
  end.

(** [x] is a whole number below [2 ^ 53]: a count of units. *)
Definition count (x : float) : Prop := whole x (toZ x).

(** What sale [s] holds of item [it], its clamped quantity in the tracking
    mode of the item, and what the sales [sls] hold of it together. *)
Definition soldBy (it : Item.t) (s : Sale.t) : Z :=
  if String.eqb (Sale.itemId s) (Item.id it) then toZ (saleQty it s) else 0%Z.

Definition sumOf (w : Sale.t -> Z) (sls : list Sale.t) : Z :=
  foldr (fun s acc => (w s + acc)%Z) 0%Z sls.

Definition soldOf (it : Item.t) (sls : list Sale.t) : Z := sumOf (soldBy it) sls.

(** The books of item [k] balance at [T]: the ledger knows the item, its
    stock and the quantities of its sales are counts, no two sales have
    the same identifier, and stock and sold quantities add up to [T]. *)
Definition balanced (k : string) (T : Z) (st : State) : Prop :=
  exists it : Item.t,
    itemMap (items st) !! k = Some it /\
    count (stockInMode it) /\
    Forall (fun s => Sale.itemId s = k -> count (JS.or0 (saleQtyField it s))) (sales st) /\
    NoDup (map Sale.id (sales st)) /\
    (toZ (stockInMode it) + soldOf it (sales st))%Z = T /\
    (T < 2 ^ 53)%Z.

(** The quantity key of an edit, in the tracking mode of the item. *)
Definition changesQtyField (it : Item.t) (c : PartialSale.t) : option (option float) :=
  match Item.trackBy it with
  | ByUnit => PartialSale.qtyUnits c
  | ByKg => PartialSale.qtyKg c
  end.

(** The operations under which the books of item [k] are kept: stock is
    adjusted by hand for other items only; a sale gets an identifier that
    no sale has, and asks for a count of item [k]; an edit leaves the
    identifier and the item of the sale alone, as the edit form does, and
    sets a count for a sale of item [k]; any sale may be deleted. *)
Definition keepsBooks (k : string) (st : State) (o : Op) : Prop :=
  match o with
  | AdjustStock _ id _ _ => id <> k
  | RecordSale newId _ payload =>
      findSale newId (sales st) = None /\
      forall it, itemMap (items st) !! k = Some it ->
                 SalePayload.itemId payload = k ->
                 count (JS.or0 (payloadQtyField it payload))
  | UpdateSale _ saleId changes =>
      PartialSale.id changes = None /\
      PartialSale.itemId changes = None /\
      forall it v, itemMap (items st) !! k = Some it ->
                   changesQtyField it changes = Some v ->
                   count (JS.or0 v)
  | DeleteSale _ _ => True
  end.

Fixpoint keepBooks (k : string) (st : State) (ops : list Op) : Prop :=
  match ops with
  | [] => True
  | o :: ops => keepsBooks k st o /\ keepBooks k (step st o) ops
  end.

(** The figure of the statistics in the tracking mode of the item: the
    units or the kilograms sold. *)
Definition soldInMode (it : Item.t) (st : Stats) : float :=
  match Item.trackBy it with
  | ByUnit => soldUnits st
  | ByKg => soldKg st
  end.

(** The actions under which the books of item [k] are kept: the item is
    not edited, deleted or restocked; a sale gets an identifier that no
    sale has; and the quantities typed in the sell form and in the edit
    form of a sale are counts. *)
Definition keepsBooksUI (k : string) (st : State) (a : Action) : Prop :=
  match a with
  | SaveItem _ _ editing _ => forall e, editing = Some e -> Item.id e <> k
  | DeleteItem id _ => id <> k
  | Restock _ i _ => Item.id i <> k
  | Sell newId _ f =>
      findSale newId (sales st) = None /\
      count (SellTab.qtyUnits f) /\ count (SellTab.qtyKg f)
  | SaveSale _ _ _ e =>
      count (EditableSaleCard.qtyUnits e) /\ count (EditableSaleCard.qtyKg e)
  | RemoveSale _ _ => True
  end.

Fixpoint keepBooksUI (k : string) (st : State) (acts : list Action) : Prop :=
  match acts with
  | [] => True
  | a :: acts => keepsBooksUI k st a /\ keepBooksUI k (act st a) acts
  end.

(** ** Example data *)

#[local] Set Warnings "-inexact-float".

(** Three units of apples at 10 each. *)
Definition apples : Item.t :=
  Item.mk "a1" "Apples" None None ByUnit (Some "unit")
          (Some 10) None (Some 3) None 0 0.

Definition shop : State := mkState [apples] [].

(** [{ itemId: "a1", qtyUnits: q }] *)
Definition sell (q : float) : SalePayload.t :=
  SalePayload.mk "a1" (Some q) None None None.

(** A sale of three apples at 10 each, and the shop after the catalog price
    went up to 12. *)
Definition threeApples : Sale.t :=
  Sale.mk "s1" "a1" (Some 3) None (Some 10) None 30 None None 1.

Definition repriced : Item.t :=
  Item.mk "a1" "Apples" None None ByUnit (Some "unit")
          (Some 12) None (Some 5) None 0 2.

Definition repricedShop : State := mkState [repriced] [threeApples].

(** The same sale when one apple is left in stock. *)
Definition scarceShop : State :=
  mkState [Item.mk "a1" "Apples" None None ByUnit (Some "unit")
                   (Some 10) None (Some 1) None 0 2]
          [threeApples].

(** [{ qtyUnits: q }]: an edit that supplies no price. *)
Definition qtyOnly (q : float) : PartialSale.t :=
  PartialSale.mk None None (Some (Some q)) None None None None None None None.

(** An item whose stock is [Infinity], as a restored backup can hold. *)
Definition bottomless : Item.t :=
  Item.mk "a1" "Apples" None None ByUnit (Some "unit")
          (Some 10) None (Some infinity) None 0 0.

(** 0.9 kg of beef at 120 per kg. *)
Definition beef : Item.t :=
  Item.mk "b1" "Beef" None None ByKg (Some "kg")
          None (Some 120) None (Some 0.9) 0 0.

(** [{ itemId: "b1", qtyKg: q, overridePrice: p }] *)
Definition sellKg (q : float) (p : option float) : SalePayload.t :=
  SalePayload.mk "b1" None (Some q) p None.

(** Apples and beef, nothing sold yet. *)
Definition pantry : State := mkState [apples; beef] [].

(** The form of a new item tracked by weight, with a padded name and a
    negative stock. *)
Definition beefForm : PartialItem.t :=
  PartialItem.mk None (Some "  Beef ") None None (Some ByKg) None None
                 (Some (Some 120)) None (Some (Some (-2))) None None.

(** The edit form opened on the apples, with the stock set to -4. *)
Definition applesForm : PartialItem.t :=
  PartialItem.mk (Some "a1") (Some "Apples") None None (Some ByUnit)
                 (Some (Some "unit")) (Some (Some 10)) None
                 (Some (Some (-4))) None (Some 0) (Some 0).

(** The sell form asking for two apples, with no price typed. *)
Definition twoApples : SellTab.Form := SellTab.mkForm "a1" 2 0 None "  ".


(** [{ note: "gift" }]: an edit of the note only. *)
Definition noteOnly : PartialSale.t :=
  PartialSale.mk None None None None None None None (Some (Some "gift")) None None.

(** A first day: beef is entered, restocked and sold, the sale is edited
    and deleted, the item is edited and then deleted with its sales. *)
Definition firstDay : list Action :=
  [SaveItem "b1" 1 None beefForm;
   Restock 2 beef 5;
   Sell "s1" 3 (SellTab.mkForm "b1" 0 1.5 (Some 100) "");
   SaveSale 4 (Sale.mk "s1" "b1" None (Some 1.5) None (Some 100) 150 None None 3) beef
            (EditableSaleCard.mkEdit 0 2.5 100 "");
   RemoveSale 5 "s1";
   SaveItem "" 6 (Some beef) beefForm;
   DeleteItem "b1" true].

(** Two apples are sold, the sale is edited to three and then deleted. *)
Definition sellEditDelete : list Op :=
  [RecordSale "s1" 1 (sell 2); UpdateSale 2 "s1" (qtyOnly 3); DeleteSale 3 "s1"].

(** An inventory of apples and beef under three names. *)
Definition stall : list Item.t :=
  [apples;
   Item.mk "g1" "Green APPLES" (Some "ga-1") None ByUnit (Some "unit")
           (Some 12) None (Some 4) None 0 0;
   beef].

(** A day at the stall for the apples: beef is entered, two apples are
    sold, the sale is edited to three, the beef is deleted and the sale is
    deleted. *)
Definition applesDay : list Action :=
  [SaveItem "b1" 1 None beefForm;
   Sell "s1" 2 twoApples;
   SaveSale 3 (Sale.mk "s1" "a1" (Some 2) None (Some 10) None 20 None None 2) apples
            (EditableSaleCard.mkEdit 3 0 10 "");
   DeleteItem "b1" true;
   RemoveSale 4 "s1"].

(** ** Statements that do not hold of the code *)

(** An edit that omits the price takes the item's current catalog price,
    for the price field of the sale and for its total. *)
Definition edit_takes_catalog_price : Prop :=
  forall (now : float) (saleId : string) (changes : PartialSale.t)
         (st : State) (old : Sale.t) (it : Item.t),
    findSale saleId (sales st) = Some old ->
    itemMap (items st) !! Sale.itemId old = Some it ->
    changesPriceField it changes = None ->
    snd (updateSale now saleId changes st) = None ->
    exists s' : Sale.t,
      findSale saleId (sales (fst (updateSale now saleId changes st))) = Some s' /\
      salePriceField it s' = Some (catalogPrice it) /\
      Sale.total s' = catalogPrice it * saleQty it s'.

(** Every sale of a positive quantity that the stock covers is recorded. *)
Definition every_covered_sale_is_recorded : Prop :=
  forall (newId : string) (now : float) (payload : SalePayload.t)
         (st : State) (it : Item.t),
    itemMap (items st) !! SalePayload.itemId payload = Some it ->
    (0 <? requestedQty it payload) = true ->
    (requestedQty it payload <=? stockInMode it) = true ->
    saleRecorded newId now payload st it.

(** Deleting a sale right after recording it always restores the stock. *)
Definition every_round_trip_restores : Prop :=
  forall (newId : string) (now now' : float) (payload : SalePayload.t)
         (st : State) (it : Item.t),
    itemMap (items st) !! SalePayload.itemId payload = Some it ->
    (0 <? requestedQty it payload) = true ->
    (requestedQty it payload <=? stockInMode it) = true ->
    roundTripRestores newId now now' payload st it.

(** A sale at a finite negative price that passes the quantity and the
    stock check is recorded at that price, with a negative total. *)
Definition negative_price_gives_negative_total : Prop :=
  forall (newId : string) (now : float) (payload : SalePayload.t)
         (st : State) (it : Item.t) (p : float),
    itemMap (items st) !! SalePayload.itemId payload = Some it ->
    SalePayload.overridePrice payload = Some p ->
    is_finite p = true ->
    (p <? 0) = true ->
    (requestedQty it payload <=? 0) = false ->
    (stockInMode it <? requestedQty it payload) = false ->
    exists (sale : Sale.t) (st' : State),
      addSale newId now payload st = (st', None) /\
      sales st' = sale :: sales st /\
      salePriceField it sale = Some p /\
      Sale.total sale = requestedQty it payload * p /\
      (Sale.total sale <? 0) = true.

(** * Properties *)

(** ** Comparisons of binary64 numbers *)

Lemma ltb_leb (x y : float) : (x <? y) = true -> (x <=? y) = true.
Proof.
  rewrite FloatAxioms.ltb_spec, FloatAxioms.leb_spec.
  unfold SFltb, SFleb.
  destruct (SFcompare (Prim2SF x) (Prim2SF y)) as [[ | | ]|]; congruence.
Qed.

Lemma clampNonNeg_cases (n : float) :
  (clampNonNeg n = n /\ is_finite n = true /\ (0 <? n) = true) \/
  (clampNonNeg n = 0 /\ (is_finite n && (0 <? n)) = false).
Proof.
  unfold clampNonNeg.
  destruct (is_finite n && (0 <? n)) eqn:E; [left | right; auto].
  apply andb_true_iff in E. tauto.
Qed.

Lemma clampNonNeg_nonneg (n : float) : (0 <=? clampNonNeg n) = true.
Proof.
  destruct (clampNonNeg_cases n) as [(-> & _ & H) | (-> & _)].
  - now apply ltb_leb.
  - reflexivity.
Qed.

Lemma clampNonNeg_finite (n : float) : is_finite (clampNonNeg n) = true.
Proof.
  destruct (clampNonNeg_cases n) as [(-> & H & _) | (-> & _)]; [assumption | reflexivity].
Qed.

Lemma or0_some_nonneg (c : float) :
  (0 <=? c) = true -> (0 <=? JS.or0 (Some c)) = true.
Proof.
  intros H. unfold JS.or0, JS.or_else. now destruct (JS.truthy c).
Qed.

Lemma Prim2SF_zero : Prim2SF 0 = S754_zero false.
Proof. reflexivity. Qed.

Lemma Prim2SF_infinity : Prim2SF infinity = S754_infinity false.
Proof. reflexivity. Qed.

Lemma SFcompare_refl (x : spec_float) :
  x <> S754_nan -> SFcompare x x = Some Eq.
Proof.
  destruct x as [[]|[]| |[] m e]; cbn; try congruence; intros _;
    rewrite Z.compare_refl, Pos.compare_cont_refl; reflexivity.
Qed.

Lemma SFcompare_antisym (x y : spec_float) :
  SFcompare y x = option_map CompOpp (SFcompare x y).
Proof.
  destruct x as [[]|[]| |[] m e], y as [[]|[]| |[] m' e']; cbn; try reflexivity;
    rewrite (Z.compare_antisym e e'); destruct (e ?= e')%Z; cbn; try reflexivity;
    rewrite (Pos.compare_cont_antisym m m' Eq); cbn;
    try rewrite CompOpp_involutive; reflexivity.
Qed.

(** The class of a number, read off its specification. *)
Lemma is_nan_spec (x : float) :
  is_nan x = match Prim2SF x with S754_nan => true | _ => false end.
Proof.
  unfold is_nan. rewrite FloatAxioms.eqb_spec. unfold SFeqb.
  destruct (Prim2SF x) eqn:E; try reflexivity;
    rewrite SFcompare_refl by discriminate; reflexivity.
Qed.

Lemma is_infinity_spec (x : float) :
  is_infinity x = match Prim2SF x with S754_infinity _ => true | _ => false end.
Proof.
  unfold is_infinity. rewrite FloatAxioms.eqb_spec, abs_spec, Prim2SF_infinity.
  destruct (Prim2SF x) as [s|s| |s m e]; reflexivity.
Qed.

Lemma is_finite_spec (x : float) :
  is_finite x =
  match Prim2SF x with S754_zero _ | S754_finite _ _ _ => true | _ => false end.
Proof.
  unfold is_finite. rewrite is_nan_spec, is_infinity_spec.
  destruct (Prim2SF x); reflexivity.
Qed.

Lemma is_zero_spec (x : float) :
  is_zero x = match Prim2SF x with S754_zero _ => true | _ => false end.
Proof.
  unfold is_zero. rewrite FloatAxioms.eqb_spec.
  change (Prim2SF PrimFloat.zero) with (S754_zero false).
  destruct (Prim2SF x) as [s|[]| |[] m e]; reflexivity.
Qed.

Lemma pos_spec (x : float) :
  (0 <? x) =
  match Prim2SF x with
  | S754_infinity false | S754_finite false _ _ => true
  | _ => false
  end.
Proof.
  rewrite FloatAxioms.ltb_spec, Prim2SF_zero.
  destruct (Prim2SF x) as [s|[]| |[] m e]; reflexivity.
Qed.

Lemma neg_spec (x : float) :
  (x <? 0) =
  match Prim2SF x with
  | S754_infinity true | S754_finite true _ _ => true
  | _ => false
  end.
Proof.
  rewrite FloatAxioms.ltb_spec, Prim2SF_zero.
  destruct (Prim2SF x) as [s|[]| |[] m e]; reflexivity.
Qed.

Lemma nonneg_spec (x : float) :
  (0 <=? x) =
  match Prim2SF x with
  | S754_zero _ | S754_infinity false | S754_finite false _ _ => true
  | _ => false
  end.
Proof.
  rewrite FloatAxioms.leb_spec, Prim2SF_zero.
  destruct (Prim2SF x) as [s|[]| |[] m e]; reflexivity.
Qed.

Lemma nonpos_spec (x : float) :
  (x <=? 0) =
  match Prim2SF x with
  | S754_zero _ | S754_infinity true | S754_finite true _ _ => true
  | _ => false
  end.
Proof.
  rewrite FloatAxioms.leb_spec, Prim2SF_zero.
  destruct (Prim2SF x) as [s|[]| |[] m e]; reflexivity.
Qed.

(** A finite number above zero is a positive finite binary64 value. *)
Lemma finite_pos_inv (x : float) :
  is_finite x = true -> (0 <? x) = true ->
  exists m e, Prim2SF x = S754_finite false m e.
Proof.
  rewrite is_finite_spec, pos_spec.
  destruct (Prim2SF x) as [s|[]| |[] m e]; try discriminate; eauto.
Qed.

Lemma pos_not_nonpos (x : float) : (0 <? x) = true -> (x <=? 0) = false.
Proof.
  rewrite pos_spec, nonpos_spec.
  destruct (Prim2SF x) as [s|[]| |[] m e]; congruence.
Qed.

Lemma pos_truthy (x : float) : (0 <? x) = true -> JS.truthy x = true.
Proof.
  unfold JS.truthy. rewrite pos_spec, is_zero_spec, is_nan_spec.
  destruct (Prim2SF x) as [s|[]| |[] m e]; cbn; congruence.
Qed.

Lemma pos_neq0 (x : float) : (0 <? x) = true -> (x =? 0) = false.
Proof.
  intros H. change (is_zero x = false). revert H.
  rewrite pos_spec, is_zero_spec.
  destruct (Prim2SF x) as [s|[]| |[] m e]; congruence.
Qed.

Lemma opp_truthy (x : float) : JS.truthy x = true -> JS.truthy (- x) = true.
Proof.
  unfold JS.truthy. rewrite !is_zero_spec, !is_nan_spec, opp_spec.
  destruct (Prim2SF x) as [s|[]| |[] m e]; cbn; congruence.
Qed.

Lemma leb_not_ltb (x y : float) : (x <=? y) = true -> (y <? x) = false.
Proof.
  rewrite FloatAxioms.leb_spec, FloatAxioms.ltb_spec. unfold SFleb, SFltb.
  rewrite (SFcompare_antisym (Prim2SF x) (Prim2SF y)).
  destruct (SFcompare (Prim2SF x) (Prim2SF y)) as [[]|]; cbn; congruence.
Qed.

Lemma sub_add_opp (x y : float) : x - y = x + - y.
Proof.
  apply Prim2SF_inj. rewrite sub_spec, add_spec, opp_spec.
  unfold SF64sub, SF64add.
  destruct (Prim2SF x) as [[]|[]| |sx mx ex], (Prim2SF y) as [[]|[]| |sy my ey];
    try reflexivity.
  cbn [SFsub SFadd SFopp]. f_equal.
  destruct sy; cbn [cond_Zopp negb]; lia.
Qed.

(** ** Rounding to binary64 *)

Lemma shr_1_nonneg (r : shr_record) :
  (0 <= shr_m r)%Z -> (0 <= shr_m (shr_1 r))%Z.
Proof. destruct r as [[|[p|p|]|p] b c]; cbn; lia. Qed.

Lemma shr_1_div2 (r : shr_record) :
  (0 <= shr_m r)%Z -> shr_m (shr_1 r) = (shr_m r / 2)%Z.
Proof.
  destruct r as [[|[p|p|]|p] b c]; cbn [shr_1 shr_m]; intros H; try lia.
  - reflexivity.
  - rewrite (Pos2Z.inj_xI p). apply Z.div_unique with 1%Z; lia.
  - rewrite (Pos2Z.inj_xO p). apply Z.div_unique with 0%Z; lia.
  - reflexivity.
Qed.

Lemma iter_shr_1 (n : positive) (r : shr_record) :
  (0 <= shr_m r)%Z ->
  (0 <= shr_m (SpecFloat.iter_pos shr_1 n r))%Z /\
  shr_m (SpecFloat.iter_pos shr_1 n r) = (shr_m r / 2 ^ Zpos n)%Z.
Proof.
  revert r. induction n as [n IH|n IH|]; intros r H; cbn [SpecFloat.iter_pos].
  - destruct (IH (shr_1 r) (shr_1_nonneg r H)) as [H1 E1].
    destruct (IH _ H1) as [H2 E2].
    split; [assumption|].
    rewrite E2, E1, shr_1_div2 by assumption.
    rewrite !Z.div_div by (try apply Z.pow_pos_nonneg; lia).
    f_equal. rewrite (Pos2Z.inj_xI n).
    replace (2 * Z.pos n + 1)%Z with (1 + Z.pos n + Z.pos n)%Z by lia.
    rewrite !Z.pow_add_r by lia. lia.
  - destruct (IH r H) as [H1 E1].
    destruct (IH _ H1) as [H2 E2].
    split; [assumption|].
    rewrite E2, E1.
    rewrite !Z.div_div by (try apply Z.pow_pos_nonneg; lia).
    f_equal. rewrite (Pos2Z.inj_xO n).
    replace (2 * Z.pos n)%Z with (Z.pos n + Z.pos n)%Z by lia.
    rewrite !Z.pow_add_r by lia. lia.
  - split; [now apply shr_1_nonneg|].
    now rewrite shr_1_div2.
Qed.

(** [shr] divides the mantissa by a power of two and moves the exponent. *)
Lemma shr_spec (r : shr_record) (e n : Z) :
  (0 <= shr_m r)%Z ->
  (0 <= shr_m (fst (shr r e n)))%Z /\
  shr_m (fst (shr r e n)) = (shr_m r / 2 ^ Z.max n 0)%Z /\
  snd (shr r e n) = (e + Z.max n 0)%Z.
Proof.
  intros H. destruct n as [|n|n]; cbn [shr fst snd].
  - rewrite Z.div_1_r. repeat split; [assumption | lia].
  - destruct (iter_shr_1 n r H) as [H1 E1].
    rewrite Z.max_l by lia. auto.
  - rewrite Z.max_r by lia. rewrite Z.div_1_r. repeat split; [assumption | lia].
Qed.

Lemma shr_record_of_loc_m (m : Z) (l : location) :
  shr_m (shr_record_of_loc m l) = m.
Proof. destruct l as [|[]]; reflexivity. Qed.

Lemma round_nearest_even_bounds (m : Z) (l : location) :
  (m <= round_nearest_even m l <= m + 1)%Z.
Proof.
  destruct l as [|[]]; cbn; try lia. destruct (Z.even m); lia.
Qed.

Lemma digits2_pos_bounds (p : positive) :
  (2 ^ (Zpos (digits2_pos p) - 1) <= Zpos p < 2 ^ Zpos (digits2_pos p))%Z.
Proof.
  induction p as [p IH|p IH|]; cbn [digits2_pos].
  - rewrite Pos2Z.inj_succ, (Pos2Z.inj_xI p).
    replace (Z.succ (Z.pos (digits2_pos p)) - 1)%Z
      with (Z.succ (Z.pos (digits2_pos p) - 1))%Z by lia.
    rewrite !Z.pow_succ_r by lia. lia.
  - rewrite Pos2Z.inj_succ, (Pos2Z.inj_xO p).
    replace (Z.succ (Z.pos (digits2_pos p)) - 1)%Z
      with (Z.succ (Z.pos (digits2_pos p) - 1))%Z by lia.
    rewrite !Z.pow_succ_r by lia. lia.
  - cbn. lia.
Qed.

(** A mantissa below [2 ^ k] has at most [k] digits. *)
Lemma Zdigits2_le (m k : Z) :
  (0 <= m < 2 ^ k)%Z -> (0 <= k)%Z -> (Zdigits2 m <= k)%Z.
Proof.
  intros [H0 H] Hk. destruct m as [|p|p]; cbn [Zdigits2]; [lia| |lia].
  destruct (digits2_pos_bounds p) as [L _].
  destruct (Z_le_gt_dec (Z.pos (digits2_pos p)) k) as [|G]; [assumption|exfalso].
  assert (2 ^ k <= 2 ^ (Z.pos (digits2_pos p) - 1))%Z
    by (apply Z.pow_le_mono_r; lia).
  lia.
Qed.

Lemma iter_xO (d m : positive) :
  Zpos (Pos.iter xO m d) = (Zpos m * 2 ^ Zpos d)%Z.
Proof.
  induction d as [|d IH] using Pos.peano_ind.
  - cbn. lia.
  - rewrite Pos.iter_succ, (Pos2Z.inj_xO (Pos.iter xO m d)), IH, Pos2Z.inj_succ, Z.pow_succ_r by lia.
    lia.
Qed.

(** [shl_align] keeps the value and never raises the exponent. *)
Lemma shl_align_spec (m : positive) (e e' : Z) :
  let r := shl_align m e e' in
  (snd r <= e)%Z /\ snd r = Z.min e e' /\
  Zpos (fst r) = (Zpos m * 2 ^ (e - snd r))%Z.
Proof.
  unfold shl_align. destruct (e' - e)%Z as [|d|d] eqn:E; cbn [fst snd].
  - rewrite Z.sub_diag. cbn. lia.
  - rewrite Z.sub_diag. cbn. lia.
  - rewrite iter_xO. replace (e - e')%Z with (Zpos d) by lia. lia.
Qed.

Lemma fexp_le (k b : Z) :
  (k <= b + 53)%Z -> (-1074 <= b)%Z -> (fexp prec emax k <= b)%Z.
Proof. unfold fexp, SpecFloat.emin, prec, emax. lia. Qed.

Lemma shr_fexp_spec (m e : Z) (l : location) :
  (0 <= m)%Z ->
  let r := shr_fexp prec emax m e l in
  (0 <= shr_m (fst r))%Z /\
  snd r = Z.max e (fexp prec emax (Zdigits2 m + e)) /\
  shr_m (fst r) = (m / 2 ^ (snd r - e))%Z.
Proof.
  intros H. unfold shr_fexp.
  destruct (shr_spec (shr_record_of_loc m l) e
              (fexp prec emax (Zdigits2 m + e) - e)) as (H1 & H2 & H3).
  { now rewrite shr_record_of_loc_m. }
  cbn zeta. split; [exact H1|]. split; [rewrite H3; lia|].
  rewrite H2, H3, shr_record_of_loc_m. f_equal; f_equal; lia.
Qed.

(** Rounding a mantissa whose value is below the largest binary64 number
    gives zero or a finite number of the same sign. *)
Lemma binary_round_aux_finite (s : bool) (m e : Z) :
  (0 <= m)%Z -> (-1074 <= e <= 971)%Z ->
  (m < (2 ^ 53 - 1) * 2 ^ (971 - e))%Z ->
  match binary_round_aux prec emax s m e loc_Exact with
  | S754_zero s' | S754_finite s' _ _ => s' = s
  | _ => False
  end.
Proof.
  intros Hm He Hlt. unfold binary_round_aux.
  destruct (shr_fexp prec emax m e loc_Exact) as [mrs' e'] eqn:E1.
  destruct (shr_fexp_spec m e loc_Exact Hm) as (N1 & X1 & V1).
  rewrite E1 in N1, X1, V1. cbn [fst snd] in N1, X1, V1.
  set (m2 := round_nearest_even (shr_m mrs') (loc_of_shr_record mrs')).
  assert (B2 := round_nearest_even_bounds (shr_m mrs') (loc_of_shr_record mrs')).
  fold m2 in B2.
  assert (Hm2 : (0 <= m2)%Z) by lia.
  destruct (shr_fexp prec emax m2 e' loc_Exact) as [mrs'' e''] eqn:E2.
  destruct (shr_fexp_spec m2 e' loc_Exact Hm2) as (N2 & X2 & V2).
  rewrite E2 in N2, X2, V2. cbn [fst snd] in N2, X2, V2.
  (* the first exponent stays in range *)
  assert (Hpow : (0 < 2 ^ (971 - e))%Z) by (apply Z.pow_pos_nonneg; lia).
  assert (Hm1024 : (m < 2 ^ (1024 - e))%Z).
  { replace (1024 - e)%Z with (53 + (971 - e))%Z by lia.
    rewrite Z.pow_add_r by lia. nia. }
  assert (Hd : (Zdigits2 m + e <= 1024)%Z).
  { assert (Zdigits2 m <= 1024 - e)%Z by (apply Zdigits2_le; lia). lia. }
  assert (He' : (e <= e' <= 971)%Z).
  { assert (fexp prec emax (Zdigits2 m + e) <= 971)%Z by (apply fexp_le; lia). lia. }
  (* the rounded mantissa stays below 2 ^ (1024 - e') *)
  assert (Hm2lt : (m2 < 2 ^ (1024 - e'))%Z).
  { assert (Hsplit : (2 ^ (971 - e) = 2 ^ (971 - e') * 2 ^ (e' - e))%Z).
    { rewrite <- Z.pow_add_r by lia. f_equal. lia. }
    assert (Hp : (0 < 2 ^ (e' - e))%Z) by (apply Z.pow_pos_nonneg; lia).
    assert (Hq : (0 < 2 ^ (971 - e'))%Z) by (apply Z.pow_pos_nonneg; lia).
    assert (shr_m mrs' < (2 ^ 53 - 1) * 2 ^ (971 - e'))%Z.
    { rewrite V1. apply Z.div_lt_upper_bound; [assumption|].
      rewrite Hsplit in Hlt. lia. }
    replace (1024 - e')%Z with (53 + (971 - e'))%Z by lia.
    rewrite Z.pow_add_r by lia. nia. }
  assert (Hd2 : (Zdigits2 m2 + e' <= 1024)%Z).
  { assert (Zdigits2 m2 <= 1024 - e')%Z by (apply Zdigits2_le; lia). lia. }
  assert (He'' : (e'' <= 971)%Z).
  { assert (fexp prec emax (Zdigits2 m2 + e') <= 971)%Z by (apply fexp_le; lia). lia. }
  destruct (shr_m mrs'') as [|p|p]; [reflexivity | | lia].
  replace (e'' <=? emax - prec)%Z with true; [reflexivity|].
  symmetry. apply Z.leb_le. unfold emax, prec. lia.
Qed.

(** Rounding keeps the sign: the result is a zero, a finite number or an
    infinity of the sign it was given. *)
Lemma binary_round_aux_sign (s : bool) (m e : Z) (l : location) :
  (0 <= m)%Z ->
  match binary_round_aux prec emax s m e l with
  | S754_zero s' | S754_finite s' _ _ | S754_infinity s' => s' = s
  | S754_nan => False
  end.
Proof.
  intros Hm. unfold binary_round_aux.
  destruct (shr_fexp prec emax m e l) as [mrs' e'] eqn:E1.
  destruct (shr_fexp_spec m e l Hm) as (N1 & _).
  rewrite E1 in N1. cbn [fst] in N1.
  assert (B2 := round_nearest_even_bounds (shr_m mrs') (loc_of_shr_record mrs')).
  destruct (shr_fexp prec emax _ e' loc_Exact) as [mrs'' e''] eqn:E2.
  destruct (shr_fexp_spec (round_nearest_even (shr_m mrs') (loc_of_shr_record mrs'))
              e' loc_Exact) as (N2 & _); [lia|].
  rewrite E2 in N2. cbn [fst] in N2.
  destruct (shr_m mrs'') as [|p|p]; [reflexivity | | lia].
  destruct (e'' <=? emax - prec)%Z; reflexivity.
Qed.

Lemma binary_round_sign (s : bool) (m : positive) (e : Z) :
  match binary_round prec emax s m e with
  | S754_zero s' | S754_finite s' _ _ | S754_infinity s' => s' = s
  | S754_nan => False
  end.
Proof.
  unfold binary_round. destruct (shl_align m e _) as [mz ez].
  apply binary_round_aux_sign. lia.
Qed.

(** What [valid_binary] says of a finite number. *)
Lemma bounded_inv (m : positive) (e : Z) :
  bounded prec emax m e = true ->
  (-1074 <= e <= 971)%Z /\
  (Zpos m < 2 ^ 53)%Z /\
  (-1074 < e -> 2 ^ 52 <= Zpos m)%Z.
Proof.
  unfold bounded, canonical_mantissa, fexp, SpecFloat.emin, prec, emax.
  intros H. apply andb_true_iff in H as [H1 H2].
  apply Z.eqb_eq in H1. apply Z.leb_le in H2.
  destruct (digits2_pos_bounds m) as [L U].
  split; [lia|]. split.
  - assert (2 ^ Z.pos (digits2_pos m) <= 2 ^ 53)%Z
      by (apply Z.pow_le_mono_r; lia).
    lia.
  - intros He. replace (Z.pos (digits2_pos m)) with 53%Z in L by lia. exact L.
Qed.

(** Subtracting a positive finite number from one that is not below it
    gives [+0] or a positive finite number: no overflow, no negative zero. *)
Lemma SFadd_opp_finite (mx my : positive) (ex ey : Z) :
  bounded prec emax mx ex = true ->
  bounded prec emax my ey = true ->
  SFcompare (S754_finite false mx ex) (S754_finite false my ey) <> Some Lt ->
  match SFadd prec emax (S754_finite false mx ex) (S754_finite true my ey) with
  | S754_zero false | S754_finite false _ _ => True
  | _ => False
  end.
Proof.
  intros Bx By Hc.
  destruct (bounded_inv mx ex Bx) as (Ex & Ux & Lx).
  destruct (bounded_inv my ey By) as (Ey & Uy & Ly).
  cbn [SFadd cond_Zopp].
  destruct (shl_align_spec mx ex (Z.min ex ey)) as (_ & Sx & Vx).
  destruct (shl_align_spec my ey (Z.min ex ey)) as (_ & Sy & Vy).
  cbn zeta in Sx, Sy, Vx, Vy.
  set (mx' := Zpos (fst (shl_align mx ex (Z.min ex ey)))) in *.
  set (my' := Zpos (fst (shl_align my ey (Z.min ex ey)))) in *.
  rewrite Sx in Vx. rewrite Sy in Vy.
  replace (Z.min ex (Z.min ex ey)) with (Z.min ex ey) in Vx by lia.
  replace (Z.min ey (Z.min ex ey)) with (Z.min ex ey) in Vy by lia.
  set (ez := Z.min ex ey) in *.
  assert (Hpx : (0 < 2 ^ (ex - ez))%Z) by (apply Z.pow_pos_nonneg; lia).
  assert (Hpy : (0 < 2 ^ (ey - ez))%Z) by (apply Z.pow_pos_nonneg; lia).
  assert (HM : (0 <= mx' + - my')%Z).
  { cbn [SFcompare] in Hc.
    destruct (ex ?= ey)%Z eqn:C.
    - apply Z.compare_eq in C.
      rewrite Vx, Vy. replace (ey - ez)%Z with (ex - ez)%Z by lia.
      assert (Zpos my <= Zpos mx)%Z.
      { destruct (Pos.compare_cont Eq mx my) eqn:C'; try congruence;
          change (Pos.compare_cont Eq mx my) with (mx ?= my)%positive in C'.
        - apply Pos.compare_eq in C'. subst. lia.
        - apply Pos.compare_gt_iff in C'. lia. }
      nia.
    - congruence.
    - apply Z.compare_gt_iff in C.
      assert (2 ^ 52 <= Zpos mx)%Z by (apply Lx; lia).
      assert (ez = ey) by (unfold ez; lia).
      rewrite Vx, Vy. replace (ey - ez)%Z with 0%Z by lia.
      assert (2 ^ 1 <= 2 ^ (ex - ez))%Z by (apply Z.pow_le_mono_r; lia).
      change (2 ^ 1)%Z with 2%Z in *. change (2 ^ 0)%Z with 1%Z.
      change (2 ^ 53)%Z with (2 * 2 ^ 52)%Z in Uy. nia. }
  destruct (mx' + - my')%Z as [|p|p] eqn:EM; [exact I | | lia].
  cbn [binary_normalize]. unfold binary_round.
  destruct (shl_align_spec p ez (fexp prec emax (Z.pos (digits2_pos p) + ez)))
    as (S1 & S2 & V).
  destruct (shl_align p ez _) as [mz ez1]. cbn [fst snd] in S1, S2, V.
  assert (Hez1 : (-1074 <= ez1 <= 971)%Z).
  { unfold fexp, SpecFloat.emin, prec, emax in S2. unfold ez in *. lia. }
  assert (Hlt : (Zpos mz < (2 ^ 53 - 1) * 2 ^ (971 - ez1))%Z).
  { rewrite V.
    assert (Hp : (Zpos p < Zpos mx * 2 ^ (ex - ez))%Z) by lia.
    assert (Hb : (0 < 2 ^ (ez - ez1))%Z) by (apply Z.pow_pos_nonneg; lia).
    assert (Hc' : (0 < 2 ^ (971 - ex))%Z) by (apply Z.pow_pos_nonneg; lia).
    replace (971 - ez1)%Z with ((971 - ex) + (ex - ez) + (ez - ez1))%Z by lia.
    rewrite !Z.pow_add_r by lia.
    assert (Zpos p * 2 ^ (ez - ez1) < Zpos mx * 2 ^ (ex - ez) * 2 ^ (ez - ez1))%Z
      by (apply Z.mul_lt_mono_pos_r; lia).
    assert (Zpos mx * (2 ^ (ex - ez) * 2 ^ (ez - ez1))
            <= (2 ^ 53 - 1) * (2 ^ (ex - ez) * 2 ^ (ez - ez1)))%Z
      by (apply Z.mul_le_mono_nonneg_r; lia).
    assert (1 * ((2 ^ 53 - 1) * (2 ^ (ex - ez) * 2 ^ (ez - ez1)))
            <= 2 ^ (971 - ex) * ((2 ^ 53 - 1) * (2 ^ (ex - ez) * 2 ^ (ez - ez1))))%Z
      by (apply Z.mul_le_mono_nonneg_r; lia).
    lia. }
  assert (R := binary_round_aux_finite false (Zpos mz) ez1 ltac:(lia) Hez1 Hlt).
  destruct (binary_round_aux prec emax false (Z.pos mz) ez1 loc_Exact)
    as [[]|[]| |[] m e]; solve [exact I | destruct R | discriminate R].
Qed.

(** ** Arithmetic of the ledger on binary64 numbers *)

Lemma clampNonNeg_id (n : float) :
  is_finite n = true -> (0 <? n) = true -> clampNonNeg n = n.
Proof. intros F P. unfold clampNonNeg. now rewrite F, P. Qed.

Lemma or0_clampNonNeg (n : float) :
  JS.or0 (Some (clampNonNeg n)) = clampNonNeg n.
Proof.
  destruct (clampNonNeg_cases n) as [(-> & _ & H) | (-> & _)].
  - unfold JS.or0, JS.or_else. now rewrite pos_truthy.
  - reflexivity.
Qed.

Lemma or0_pos (x : float) : (0 <? x) = true -> JS.or0 (Some x) = x.
Proof. intros H. unfold JS.or0, JS.or_else. now rewrite pos_truthy. Qed.

Lemma or0_opp_pos (x : float) : (0 <? x) = true -> JS.or0 (Some (- x)) = - x.
Proof.
  intros H. unfold JS.or0, JS.or_else.
  now rewrite opp_truthy by now apply pos_truthy.
Qed.

Lemma pos_le_trans (q s : float) :
  (0 <? q) = true -> (q <=? s) = true -> (0 <? s) = true.
Proof.
  rewrite !pos_spec, FloatAxioms.leb_spec. unfold SFleb.
  destruct (Prim2SF q) as [sq|[]| |[] mq eq], (Prim2SF s) as [ss|[]| |[] ms es];
    cbn; congruence.
Qed.

(** For a finite stock [s] and a finite quantity [0 < q <= s], the clamp
    applied by [adjustStock] to [s + (-q)] is the identity: the new stock is
    the binary64 difference [s - q]. *)
Lemma clampNonNeg_sub (s q : float) :
  is_finite s = true -> is_finite q = true ->
  (0 <? q) = true -> (q <=? s) = true ->
  clampNonNeg (s + - q) = s - q.
Proof.
  intros Fs Fq Pq Le.
  rewrite sub_add_opp.
  assert (Ps := pos_le_trans q s Pq Le).
  assert (Vs := Prim2SF_valid s). assert (Vq := Prim2SF_valid q).
  assert (Hlt := leb_not_ltb q s Le).
  rewrite FloatAxioms.ltb_spec in Hlt. unfold SFltb in Hlt.
  destruct (finite_pos_inv s Fs Ps) as (ms & es & Es).
  destruct (finite_pos_inv q Fq Pq) as (mq & eq & Eq).
  rewrite Es in Vs, Hlt. rewrite Eq in Vq, Hlt. cbn [valid_binary] in Vs, Vq.
  assert (Hc : SFcompare (S754_finite false ms es) (S754_finite false mq eq) <> Some Lt).
  { intros C. rewrite C in Hlt. discriminate. }
  assert (R := SFadd_opp_finite ms mq es eq Vs Vq Hc).
  assert (E : Prim2SF (s + - q) = SFadd prec emax (S754_finite false ms es)
                                     (S754_finite true mq eq)).
  { rewrite add_spec, opp_spec, Es, Eq. reflexivity. }
  rewrite <- E in R.
  destruct (Prim2SF (s + - q)) as [[]|[]| |[] m e] eqn:Er; try contradiction.
  - assert (s + - q = 0) as -> by (apply Prim2SF_inj; rewrite Er; reflexivity).
    reflexivity.
  - apply clampNonNeg_id.
    + rewrite is_finite_spec, Er. reflexivity.
    + rewrite pos_spec, Er. reflexivity.
Qed.

(** A sum of two numbers that are [>= 0] is [>= 0] (and so not NaN). *)
Lemma add_nonneg (a b : float) :
  (0 <=? a) = true -> (0 <=? b) = true -> (0 <=? a + b) = true.
Proof.
  rewrite !nonneg_spec, add_spec. unfold SF64add.
  destruct (Prim2SF a) as [[]|[]| |[] ma ea], (Prim2SF b) as [[]|[]| |[] mb eb];
    cbn [SFadd]; try congruence; intros _ _.
  cbn [cond_Zopp].
  assert (S := binary_round_sign false).
  destruct (_ + _)%Z as [|p|p] eqn:E; [reflexivity | | lia].
  cbn [binary_normalize]. specialize (S p (Z.min ea eb)).
  destruct (binary_round prec emax false p (Z.min ea eb)) as [[]|[]| |[] m e];
    solve [reflexivity | destruct S | discriminate S].
Qed.

(** The product of a positive and a negative finite number is negative,
    or [-0] when it underflows. *)
Lemma mul_pos_neg (q p : float) :
  is_finite q = true -> (0 <? q) = true ->
  is_finite p = true -> (p <? 0) = true ->
  (q * p <? 0) = true \/ q * p = (-0).
Proof.
  intros Fq Pq Fp Np.
  destruct (finite_pos_inv q Fq Pq) as (mq & eq & Eq).
  assert (exists mp ep, Prim2SF p = S754_finite true mp ep) as (mp & ep & Ep).
  { revert Fp Np. rewrite is_finite_spec, neg_spec.
    destruct (Prim2SF p) as [s|[]| |[] m e]; try discriminate; eauto. }
  assert (E : Prim2SF (q * p) =
              binary_round_aux prec emax true (Z.pos (mq * mp)) (eq + ep) loc_Exact).
  { rewrite mul_spec, Eq, Ep. reflexivity. }
  assert (S := binary_round_aux_sign true (Z.pos (mq * mp)) (eq + ep) loc_Exact
                 ltac:(lia)).
  rewrite <- E in S. rewrite neg_spec.
  destruct (Prim2SF (q * p)) as [[]|[]| |[] m e] eqn:Er;
    try solve [destruct S | discriminate S]; auto.
  right. apply Prim2SF_inj. rewrite Er. reflexivity.
Qed.


(** ** Whole numbers are added and subtracted exactly *)

Lemma iter_pos_Pos_iter {A : Type} (f : A -> A) (n : positive) (x : A) :
  SpecFloat.iter_pos f n x = Pos.iter f x n.
Proof.
  revert x. induction n as [n IH|n IH|]; intros x; cbn [SpecFloat.iter_pos Pos.iter].
  - rewrite !IH. now rewrite <- !Pos.iter_swap.
  - now rewrite !IH.
  - reflexivity.
Qed.

Lemma iter_pos_add {A : Type} (f : A -> A) (n k : positive) (x : A) :
  SpecFloat.iter_pos f (n + k) x = SpecFloat.iter_pos f n (SpecFloat.iter_pos f k x).
Proof. rewrite !iter_pos_Pos_iter. apply Pos.iter_add. Qed.

Lemma shr_1_double (x : Z) :
  (0 <= x)%Z ->
  shr_1 (Build_shr_record (x * 2) false false) = Build_shr_record x false false.
Proof.
  intros H. destruct x as [|p|p]; [reflexivity | | lia].
  replace (Z.pos p * 2)%Z with (Z.pos p~0) by lia. reflexivity.
Qed.

(** Shifting out [k] zero bits loses nothing. *)
Lemma iter_shr_1_exact (k : positive) (m : Z) :
  (0 <= m)%Z ->
  SpecFloat.iter_pos shr_1 k (Build_shr_record (m * 2 ^ Zpos k) false false)
  = Build_shr_record m false false.
Proof.
  intros Hm. rewrite iter_pos_Pos_iter.
  induction k as [|k IH] using Pos.peano_ind.
  - cbn [Pos.iter]. change (2 ^ 1)%Z with 2%Z. now apply shr_1_double.
  - rewrite Pos.iter_succ_r.
    replace (m * 2 ^ Z.pos (Pos.succ k))%Z with ((m * 2 ^ Z.pos k) * 2)%Z
      by (rewrite Pos2Z.inj_succ, Z.pow_succ_r by lia; lia).
    rewrite shr_1_double; [exact IH|].
    apply Z.mul_nonneg_nonneg; [assumption | apply Z.pow_nonneg; lia].
Qed.

Lemma digits2_pos_iter_xO (m k : positive) :
  Zpos (digits2_pos (Pos.iter xO m k)) = (Zpos (digits2_pos m) + Zpos k)%Z.
Proof.
  induction k as [|k IH] using Pos.peano_ind.
  - cbn. lia.
  - rewrite Pos.iter_succ. cbn [digits2_pos]. lia.
Qed.

Lemma Zdigits2_shift (m : positive) (k : Z) (p : positive) :
  (0 <= k)%Z -> Zpos p = (Zpos m * 2 ^ k)%Z ->
  Zpos (digits2_pos p) = (Zpos (digits2_pos m) + k)%Z.
Proof.
  intros Hk E. destruct k as [|k|k]; [| |lia].
  - assert (p = m) by lia. subst. lia.
  - rewrite <- iter_xO in E. injection E as ->. apply digits2_pos_iter_xO.
Qed.

(** The same number written with [j] more low zero bits is shifted to the
    same record and exponent. *)
Lemma shr_fexp_shift (m P : positive) (e j : Z) :
  (0 <= j)%Z -> Zpos P = (Zpos m * 2 ^ j)%Z ->
  (e <= fexp prec emax (Zpos (digits2_pos m) + e))%Z ->
  shr_fexp prec emax (Zpos P) (e - j) loc_Exact
  = shr_fexp prec emax (Zpos m) e loc_Exact.
Proof.
  intros Hj HP He. unfold shr_fexp. cbn [Zdigits2 shr_record_of_loc].
  rewrite (Zdigits2_shift m j P Hj HP).
  replace (Z.pos (digits2_pos m) + j + (e - j))%Z
    with (Z.pos (digits2_pos m) + e)%Z by lia.
  set (T := fexp prec emax (Z.pos (digits2_pos m) + e)) in *.
  destruct j as [|jp|jp]; [| |lia].
  - assert (P = m) by lia. subst P. now rewrite Z.sub_0_r.
  - destruct (T - e)%Z as [|np|np] eqn:En; [| |lia].
    + replace (T - (e - Z.pos jp))%Z with (Z.pos jp) by lia.
      cbn [shr]. rewrite HP, iter_shr_1_exact by lia. f_equal. lia.
    + replace (T - (e - Z.pos jp))%Z with (Z.pos (np + jp)) by lia.
      cbn [shr]. rewrite iter_pos_add, HP, iter_shr_1_exact by lia.
      f_equal. lia.
Qed.

Lemma binary_round_aux_shift (s : bool) (m P : positive) (e j : Z) :
  (0 <= j)%Z -> Zpos P = (Zpos m * 2 ^ j)%Z ->
  (e <= fexp prec emax (Zpos (digits2_pos m) + e))%Z ->
  binary_round_aux prec emax s (Zpos P) (e - j) loc_Exact
  = binary_round_aux prec emax s (Zpos m) e loc_Exact.
Proof.
  intros Hj HP He. unfold binary_round_aux.
  now rewrite (shr_fexp_shift m P e j Hj HP He).
Qed.

(** Rounding does not depend on how the number is written: [p * 2 ^ k] at
    exponent [e - k] rounds as [p] at exponent [e]. *)
Lemma binary_round_shift (s : bool) (p P : positive) (e k : Z) :
  (0 <= k)%Z -> Zpos P = (Zpos p * 2 ^ k)%Z ->
  binary_round prec emax s P (e - k) = binary_round prec emax s p e.
Proof.
  intros Hk HP. unfold binary_round.
  rewrite (Zdigits2_shift p k P Hk HP).
  replace (Z.pos (digits2_pos p) + k + (e - k))%Z
    with (Z.pos (digits2_pos p) + e)%Z by lia.
  set (T := fexp prec emax (Z.pos (digits2_pos p) + e)).
  destruct (shl_align_spec P (e - k) T) as (_ & S1 & V1).
  destruct (shl_align_spec p e T) as (_ & S2 & V2).
  destruct (shl_align P (e - k) T) as [mz1 ez1].
  destruct (shl_align p e T) as [mz2 ez2].
  cbn [fst snd] in S1, V1, S2, V2.
  assert (D2 : (Zpos (digits2_pos mz2) + ez2 = Zpos (digits2_pos p) + e)%Z).
  { rewrite (Zdigits2_shift p (e - ez2) mz2) by (try assumption; lia). lia. }
  destruct (Z_le_gt_dec T (e - k)) as [L | G].
  - assert (E12 : ez1 = ez2) by lia. rewrite E12 in V1 |- *.
    assert (mz1 = mz2) as ->; [|reflexivity].
    apply Pos2Z.inj. rewrite V1, V2, HP, <- Z.mul_assoc, <- Z.pow_add_r by lia.
    f_equal. f_equal. lia.
  - assert (E1 : ez1 = (e - k)%Z) by lia.
    assert (mz1 = P).
    { apply Pos2Z.inj. rewrite V1, E1, Z.sub_diag. cbn. lia. }
    subst mz1. rewrite E1.
    replace (e - k)%Z with (ez2 - (ez2 - (e - k)))%Z by lia.
    apply binary_round_aux_shift; [lia | | rewrite D2; fold T; lia].
    rewrite V2, HP, <- Z.mul_assoc, <- Z.pow_add_r by lia.
    f_equal. f_equal. lia.
Qed.

Lemma binary_normalize_shift (n N k : Z) (z : bool) :
  (0 <= k)%Z -> N = (n * 2 ^ k)%Z ->
  binary_normalize prec emax N (- k) z = binary_normalize prec emax n 0 z.
Proof.
  intros Hk HN.
  assert (Hp : (0 < 2 ^ k)%Z) by (apply Z.pow_pos_nonneg; lia).
  destruct n as [|p|p].
  - subst N. reflexivity.
  - destruct N as [|P|P]; try lia. cbn [binary_normalize].
    apply (binary_round_shift false p P 0 k Hk HN).
  - destruct N as [|P|P]; try lia. cbn [binary_normalize].
    apply (binary_round_shift true p P 0 k Hk). lia.
Qed.

(** A positive integer below [2 ^ 53] is a binary64 number: rounding it
    only aligns its mantissa to 53 bits. *)
Lemma binary_round_whole (s : bool) (a : positive) :
  (Zpos a < 2 ^ 53)%Z ->
  exists (m : positive) (e : Z),
    binary_round prec emax s a 0 = S754_finite s m e /\
    (e <= 0)%Z /\ Zpos m = (Zpos a * 2 ^ (- e))%Z.
Proof.
  intros Ha. unfold binary_round.
  assert (Hd : (Zpos (digits2_pos a) <= 53)%Z)
    by (apply (Zdigits2_le (Zpos a)); lia).
  assert (HT : (fexp prec emax (Z.pos (digits2_pos a) + 0)
                = Z.pos (digits2_pos a) - 53)%Z)
    by (unfold fexp, SpecFloat.emin, prec, emax; lia).
  rewrite HT.
  destruct (shl_align_spec a 0 (Z.pos (digits2_pos a) - 53)) as (_ & S & V).
  destruct (shl_align a 0 _) as [mz ez]. cbn [fst snd] in S, V.
  assert (Ez : ez = (Z.pos (digits2_pos a) - 53)%Z) by lia.
  assert (Dz : Zpos (digits2_pos mz) = 53%Z).
  { rewrite (Zdigits2_shift a (0 - ez) mz) by (try assumption; lia). lia. }
  assert (HF : (fexp prec emax (Z.pos (digits2_pos mz) + ez) - ez = 0)%Z)
    by (rewrite Dz; unfold fexp, SpecFloat.emin, prec, emax; lia).
  exists mz, ez. split; [|split; [lia | rewrite V; f_equal; f_equal; lia]].
  unfold binary_round_aux, shr_fexp.
  cbn [Zdigits2 shr_record_of_loc]. rewrite HF.
  cbn [shr shr_m loc_of_shr_record round_nearest_even Zdigits2 shr_record_of_loc].
  rewrite HF. cbn [shr shr_m].
  replace (ez <=? emax - prec)%Z with true; [reflexivity|].
  symmetry. apply Z.leb_le. unfold emax, prec. lia.
Qed.

(** Two finite numbers that are integers [a] and [b] (up to sign) add up
    to the rounding of the integer sum. *)
Lemma SFadd_finite_scaled (sa sb : bool) (ma mb : positive) (ea eb a b : Z) :
  (ea <= 0)%Z -> (eb <= 0)%Z ->
  Zpos ma = (a * 2 ^ (- ea))%Z -> Zpos mb = (b * 2 ^ (- eb))%Z ->
  SFadd prec emax (S754_finite sa ma ea) (S754_finite sb mb eb)
  = binary_normalize prec emax (cond_Zopp sa a + cond_Zopp sb b) 0 false.
Proof.
  intros Ha Hb Va Vb. cbn [SFadd].
  destruct (shl_align_spec ma ea (Z.min ea eb)) as (_ & Sa & Xa).
  destruct (shl_align_spec mb eb (Z.min ea eb)) as (_ & Sb & Xb).
  cbn zeta in Sa, Sb, Xa, Xb.
  rewrite Xa, Xb, Sa, Sb, Va, Vb.
  set (ez := Z.min ea eb).
  replace (Z.min ea ez) with ez by (unfold ez; lia).
  replace (Z.min eb ez) with ez by (unfold ez; lia).
  replace ez with (- - ez)%Z at 3 by lia.
  apply binary_normalize_shift; [unfold ez; lia|].
  rewrite <- !Z.mul_assoc, <- !Z.pow_add_r by (unfold ez; lia).
  replace (- ea + (ea - ez))%Z with (- ez)%Z by lia.
  replace (- eb + (eb - ez))%Z with (- ez)%Z by lia.
  destruct sa, sb; cbn [cond_Zopp]; lia.
Qed.

Lemma whole_inv (x : float) (n : Z) :
  whole x n ->
  (n = 0%Z /\ Prim2SF x = S754_zero false) \/
  (0 < n)%Z /\
  exists (m : positive) (e : Z),
    Prim2SF x = S754_finite false m e /\
    (e <= 0)%Z /\ Zpos m = (n * 2 ^ (- e))%Z.
Proof.
  intros [Hn E]. destruct n as [|a|a]; [left; auto | right | lia].
  split; [lia|]. cbn [binary_normalize] in E.
  destruct (binary_round_whole false a) as (m & e & R & He & V); [lia|].
  exists m, e. rewrite E, R. auto.
Qed.

Lemma whole_sub (s q : float) (a b : Z) :
  whole s a -> whole q b -> (0 < b <= a)%Z -> whole (s + - q) (a - b).
Proof.
  intros Hs Hq Hab. split; [destruct Hs, Hq; lia|].
  destruct (whole_inv s a Hs) as [[-> _] | (_ & ma & ea & Es & Ha & Va)]; [lia|].
  destruct (whole_inv q b Hq) as [[-> _] | (_ & mb & eb & Eq & Hb & Vb)]; [lia|].
  rewrite add_spec, opp_spec, Es, Eq. cbn [SFopp negb].
  unfold SF64add.
  rewrite (SFadd_finite_scaled false true ma mb ea eb a b Ha Hb Va Vb).
  reflexivity.
Qed.

Lemma whole_add (x y : float) (a b : Z) :
  whole x a -> whole y b -> (0 < b)%Z -> (a + b < 2 ^ 53)%Z -> whole (x + y) (a + b).
Proof.
  intros Hx Hy Hb Hab. split; [destruct Hx, Hy; lia|].
  destruct (whole_inv y b Hy) as [[-> _] | (_ & mb & eb & Ey & Heb & Vb)]; [lia|].
  rewrite add_spec, Ey. unfold SF64add.
  destruct (whole_inv x a Hx) as [[-> Ex] | (_ & ma & ea & Ex & Hea & Va)];
    rewrite Ex.
  - cbn [SFadd Z.add]. rewrite <- Ey. apply Hy.
  - rewrite (SFadd_finite_scaled false false ma mb ea eb a b Hea Heb Va Vb).
    reflexivity.
Qed.

(** For whole numbers the ledger's subtraction and addition undo each
    other exactly. *)
Lemma whole_round_trip (s q : float) (a b : Z) :
  whole s a -> whole q b -> (0 < b <= a)%Z -> s - q + q = s.
Proof.
  intros Hs Hq Hab. rewrite sub_add_opp.
  assert (H : whole (s + - q + q) (a - b + b)).
  { apply whole_add; auto using whole_sub; destruct Hs; lia. }
  apply Prim2SF_inj. destruct H as [_ ->], Hs as [_ ->]. f_equal. lia.
Qed.

Example whole_3 : whole 3 3.
Proof. split; [lia | reflexivity]. Qed.

Example whole_big : whole 9007199254740991 9007199254740991.
Proof. split; [lia | vm_compute; reflexivity]. Qed.

(** ** The stock invariant *)

Lemma evolves_refl (i : Item.t) : evolves i i.
Proof. repeat split; auto. Qed.

Lemma evolves_trans (i j k : Item.t) : evolves i j -> evolves j k -> evolves i k.
Proof.
  intros (H1 & H2 & H3) (K1 & K2 & K3).
  repeat split; [congruence | congruence | auto].
Qed.

Lemma adjustItem_evolves now id du dk (i : Item.t) :
  evolves i (adjustItem now id du dk i).
Proof.
  unfold adjustItem.
  destruct (negb (String.eqb (Item.id i) id)); [apply evolves_refl|].
  destruct (Item.trackBy i) eqn:T; repeat split; simpl; auto; intros _;
    unfold stockNonNeg, stockField; simpl; rewrite T;
    apply clampNonNeg_nonneg.
Qed.

(** Under the invariant the stock a handler reads is [>= 0] too. *)
Lemma stockNonNeg_read (i : Item.t) :
  stockNonNeg i -> (0 <=? stockInMode i) = true.
Proof.
  unfold stockNonNeg, stockInMode.
  destruct (stockField i) as [x|]; [apply or0_some_nonneg | reflexivity].
Qed.

Lemma Forall2_evolves_refl (l : list Item.t) : Forall2 evolves l l.
Proof. induction l; constructor; auto using evolves_refl. Qed.

Lemma Forall2_evolves_trans (l1 l2 l3 : list Item.t) :
  Forall2 evolves l1 l2 -> Forall2 evolves l2 l3 -> Forall2 evolves l1 l3.
Proof.
  intros H. revert l3.
  induction H; intros l3 K; inversion K; subst; constructor;
    eauto using evolves_trans.
Qed.

Lemma adjustStock_evolves now id du dk (st : State) :
  Forall2 evolves (items st) (items (adjustStock now id du dk st)).
Proof.
  simpl. induction (items st); simpl; constructor;
    auto using adjustItem_evolves.
Qed.

Create HintDb ledger.
#[local] Hint Resolve Forall2_evolves_refl adjustStock_evolves : ledger.

(** Case analysis on every test of a handler, running [tac] in each branch. *)
Ltac destruct_ifs tac :=
  repeat match goal with
         | |- context [if ?b then _ else _] => destruct b; tac
         end.

Lemma addSale_evolves newId now payload (st : State) :
  Forall2 evolves (items st) (items (fst (addSale newId now payload st))).
Proof.
  unfold addSale.
  destruct (itemMap (items st) !! SalePayload.itemId payload) as [it|];
    simpl; auto with ledger.
  destruct (Item.trackBy it); destruct_ifs simpl; auto with ledger;
    match goal with
    | |- Forall2 evolves ?l (map (adjustItem ?n ?i ?a ?b) ?l) =>
        apply (adjustStock_evolves n i a b (mkState l nil))
    end.
Qed.

Lemma updateSale_evolves now saleId changes (st : State) :
  Forall2 evolves (items st) (items (fst (updateSale now saleId changes st))).
Proof.
  unfold updateSale.
  destruct (findSale saleId (sales st)) as [old|]; simpl; auto with ledger.
  destruct (itemMap (items st) !! Sale.itemId old) as [it|];
    simpl; auto with ledger.
  destruct (Item.trackBy it); destruct_ifs simpl; auto with ledger;
    match goal with
    | |- Forall2 evolves ?l (map (adjustItem ?n ?i ?a ?b) ?l) =>
        apply (adjustStock_evolves n i a b (mkState l nil))
    end.
Qed.

Lemma deleteSale_evolves now saleId (st : State) :
  Forall2 evolves (items st) (items (deleteSale now saleId st)).
Proof.
  unfold deleteSale.
  destruct (findSale saleId (sales st)) as [s|]; simpl; auto with ledger.
  destruct (itemMap (items st) !! Sale.itemId s) as [it|];
    simpl; auto with ledger.
  destruct (isUnit it && JS.truthy_opt (Sale.qtyUnits s));
    destruct (isKg it && JS.truthy_opt (Sale.qtyKg s)); auto with ledger.
  eapply Forall2_evolves_trans; [|apply adjustStock_evolves].
  apply adjustStock_evolves.
Qed.

Lemma step_evolves (st : State) (o : Op) :
  Forall2 evolves (items st) (items (step st o)).
Proof.
  destruct o; cbn [step].
  - apply adjustStock_evolves.
  - apply addSale_evolves.
  - apply updateSale_evolves.
  - apply deleteSale_evolves.
Qed.

Lemma run_evolves (ops : list Op) (st : State) :
  Forall2 evolves (items st) (items (run st ops)).
Proof.
  revert st. induction ops as [|o ops IH]; intros st; simpl.
  - apply Forall2_evolves_refl.
  - eapply Forall2_evolves_trans; [apply step_evolves | apply IH].
Qed.

(** C1. In every sequence of [adjustStock], [addSale], [updateSale] and
    [deleteSale] calls, an item whose stock in its tracking mode is
    non-negative at the start is still there, at the same position, with the
    same identifier and tracking mode, and has a non-negative stock in that
    mode after every operation of the sequence (after each prefix
    [take n ops]): the stock field holds a number [>= 0], and so does the
    available stock the handlers read from it. *)
Theorem stock_never_negative (st : State) (ops : list Op) (k : nat) (i : Item.t) :
  items st !! k = Some i ->
  stockNonNeg i ->
  forall n : nat, exists i' : Item.t,
    items (run st (take n ops)) !! k = Some i' /\
    Item.id i' = Item.id i /\
    Item.trackBy i' = Item.trackBy i /\
    stockNonNeg i' /\
    (0 <=? stockInMode i') = true.
Proof.
  intros Hk Hi n.
  destruct (Forall2_lookup_l _ _ _ _ _ (run_evolves (take n ops) st) Hk)
    as (i' & Hk' & Hid & Htb & Hst).
  exists i'. repeat split; auto using stockNonNeg_read.
Qed.

(** Two apples sold, the sale deleted, then nine taken off the stock: the
    stock after the first two operations. *)
Lemma stock_never_negative_witness :
  exists i' : Item.t,
    items (run shop (take 2 [RecordSale "s1" 1 (sell 2); DeleteSale 2 "s1";
                             AdjustStock 3 "a1" (Some (-9)) None])) !! 0%nat
      = Some i' /\
    Item.id i' = Item.id apples /\
    Item.trackBy i' = Item.trackBy apples /\
    stockNonNeg i' /\
    (0 <=? stockInMode i') = true.
Proof.
  apply (stock_never_negative shop
           [RecordSale "s1" 1 (sell 2); DeleteSale 2 "s1";
            AdjustStock 3 "a1" (Some (-9)) None] 0 apples);
    reflexivity.
Defined.

(** ** The item map *)

Lemma itemMap_snoc (l : list Item.t) (x : Item.t) :
  itemMap (l ++ [x]) = <[Item.id x := x]> (itemMap l).
Proof. unfold itemMap. now rewrite foldl_app. Qed.

Lemma itemMap_lookup_id (l : list Item.t) (k : string) (it : Item.t) :
  itemMap l !! k = Some it -> Item.id it = k.
Proof.
  induction l as [|x l IH] using rev_ind.
  - unfold itemMap. cbn. now rewrite lookup_empty.
  - rewrite itemMap_snoc, lookup_insert.
    case_decide; [congruence | assumption].
Qed.

(** Mapping a function that keeps identifiers over the items maps it over
    the entries of the item map. *)
Lemma itemMap_map (f : Item.t -> Item.t) (l : list Item.t) (k : string) :
  (forall i, Item.id (f i) = Item.id i) ->
  itemMap (map f l) !! k = f <$> (itemMap l !! k).
Proof.
  intros Hf. induction l as [|x l IH] using rev_ind.
  - unfold itemMap. cbn. now rewrite lookup_empty.
  - rewrite map_app. cbn [map]. rewrite !itemMap_snoc, !lookup_insert, Hf.
    case_decide; [reflexivity | exact IH].
Qed.

Lemma adjustItem_id now id du dk (i : Item.t) :
  Item.id (adjustItem now id du dk i) = Item.id i.
Proof. apply adjustItem_evolves. Qed.

Lemma adjustItem_trackBy now id du dk (i : Item.t) :
  Item.trackBy (adjustItem now id du dk i) = Item.trackBy i.
Proof. apply adjustItem_evolves. Qed.

(** ** Rejected sales and edits *)

(** C2. When the item's available stock in its tracking mode is below the
    clamped, positive requested quantity, [addSale] changes nothing: it
    returns the state it was given (no sale added, every item as it was)
    and raises the insufficient-stock alert. *)
Theorem addSale_insufficient_stock (newId : string) (now : float)
    (payload : SalePayload.t) (st : State) (it : Item.t) :
  itemMap (items st) !! SalePayload.itemId payload = Some it ->
  (0 <? requestedQty it payload) = true ->
  (stockInMode it <? requestedQty it payload) = true ->
  addSale newId now payload st =
    (st, Some (InsufficientStock (stockInMode it) (labelOf it))).
Proof.
  unfold requestedQty, payloadQtyField, stockInMode, stockField, labelOf, addSale.
  intros -> Hq Hs.
  destruct (Item.trackBy it); rewrite (pos_not_nonpos _ Hq), Hs; reflexivity.
Qed.

(** C4. When an edit raises the clamped quantity of a sale by [delta > 0]
    and the item's available stock in its tracking mode is below [delta],
    [updateSale] changes nothing: it returns the state it was given, so the
    sale keeps its quantity, price, total and note and the item its stock,
    and it raises the insufficient-stock alert. *)
Theorem updateSale_insufficient_stock (now : float) (saleId : string)
    (changes : PartialSale.t) (st : State) (old : Sale.t) (it : Item.t) :
  findSale saleId (sales st) = Some old ->
  itemMap (items st) !! Sale.itemId old = Some it ->
  (0 <? editDelta it changes old) = true ->
  (stockInMode it <? editDelta it changes old) = true ->
  updateSale now saleId changes st =
    (st, Some (InsufficientStockToIncrease (stockInMode it) (labelOf it))).
Proof.
  unfold editDelta, saleQty, saleQtyField, stockInMode, stockField, labelOf, updateSale.
  intros -> -> Hd Hs.
  destruct (Item.trackBy it); rewrite (pos_neq0 _ Hd), Hd, Hs; reflexivity.
Qed.

Lemma float_neq (x y : float) : PrimFloat.Leibniz.eqb x y = false -> x <> y.
Proof.
  intros H E. apply FloatAxioms.Leibniz.eqb_spec in E. congruence.
Qed.

(** Five apples asked for when three are in stock. *)
Lemma addSale_insufficient_stock_witness :
  addSale "s1" 1 (sell 5) shop = (shop, Some (InsufficientStock 3 "unit")).
Proof.
  apply (addSale_insufficient_stock "s1" 1 (sell 5) shop apples);
    vm_compute; reflexivity.
Defined.

(** Raising the sale of three apples to five when one apple is left. *)
Lemma updateSale_insufficient_stock_witness :
  updateSale 3 "s1" (qtyOnly 5) scarceShop =
    (scarceShop, Some (InsufficientStockToIncrease 1 "unit")).
Proof.
  apply (updateSale_insufficient_stock 3 "s1" (qtyOnly 5) scarceShop threeApples
           (Item.mk "a1" "Apples" None None ByUnit (Some "unit")
                    (Some 10) None (Some 1) None 0 2));
    vm_compute; reflexivity.
Defined.

(** ** Edits that omit the price *)

(** The sale of three apples was priced at 10; after the catalog price went
    up to 12, editing its quantity to 2 without a price keeps the price 10
    and gives the total 20, not 12 and 24. *)
Lemma edit_takes_catalog_price_fails : ~ edit_takes_catalog_price.
Proof.
  intros H.
  destruct (H 3 "s1" (qtyOnly 2) repricedShop threeApples repriced)
    as (s' & Hf & Hp & _); try (vm_compute; reflexivity).
  vm_compute in Hf. apply (inj Some) in Hf. subst s'.
  vm_compute in Hp. apply (inj Some) in Hp.
  revert Hp. apply float_neq. reflexivity.
Qed.

(** C3 (amended). When [updateSale] goes through and the edit omits the
    price field of the sale's mode, the price it resolves is the sale's own
    price snapshot when that is a finite number, and the item's current
    catalog price only otherwise; the sale keeps its price field, and its
    total becomes the resolved price times the new clamped quantity. *)
Theorem updateSale_omitted_price (now : float) (saleId : string)
    (changes : PartialSale.t) (st : State) (old : Sale.t) (it : Item.t) :
  findSale saleId (sales st) = Some old ->
  itemMap (items st) !! Sale.itemId old = Some it ->
  changesPriceField it changes = None ->
  snd (updateSale now saleId changes st) = None ->
  let next := mergeSale changes old in
  let resolved := finiteOr (salePriceField it old) (catalogPrice it) in
  let next' := Sale.with_total (resolved * saleQty it next) next in
  sales (fst (updateSale now saleId changes st)) = replaceSale saleId next' (sales st) /\
  salePriceField it next' = salePriceField it old /\
  Sale.total next' = resolved * saleQty it next.
Proof.
  unfold changesPriceField, salePriceField, catalogPrice, saleQty,
    saleQtyField, updateSale.
  intros -> -> Hc.
  destruct (Item.trackBy it); cbn [mergeSale Sale.unitPrice Sale.kgPrice
    Sale.qtyUnits Sale.qtyKg Sale.with_total Sale.total]; rewrite Hc;
    cbn [spread]; destruct_ifs idtac; cbn [fst snd sales]; intros R;
    try discriminate R; repeat split.
Qed.

(** The edit of the counterexample: price 10 kept, total 2 * 10. *)
Lemma updateSale_omitted_price_witness :
  sales (fst (updateSale 3 "s1" (qtyOnly 2) repricedShop)) =
    [Sale.mk "s1" "a1" (Some 2) None (Some 10) None 20 None None 1].
Proof.
  apply (updateSale_omitted_price 3 "s1" (qtyOnly 2) repricedShop
           threeApples repriced); vm_compute; reflexivity.
Defined.

(** ** Recording a sale *)

Lemma stockInMode_adjustItem now (it : Item.t) (du dk : option float) :
  stockInMode (adjustItem now (Item.id it) du dk it) =
  clampNonNeg (stockInMode it +
               JS.or0 (match Item.trackBy it with ByUnit => du | ByKg => dk end)).
Proof.
  unfold adjustItem, stockInMode, stockField. rewrite String.eqb_refl. cbn [negb].
  destruct (Item.trackBy it) eqn:T; cbn; rewrite T; apply or0_clampNonNeg.
Qed.

(** The state after a sale that passes the quantity and the stock check. *)
Lemma addSale_accepted (newId : string) (now : float) (payload : SalePayload.t)
    (st : State) (it : Item.t) :
  itemMap (items st) !! SalePayload.itemId payload = Some it ->
  (0 <? requestedQty it payload) = true ->
  (stockInMode it <? requestedQty it payload) = false ->
  addSale newId now payload st =
    (mkState (map (adjustItem now (Item.id it)
                     (deltaUnitsOf it (- requestedQty it payload))
                     (deltaKgOf it (- requestedQty it payload)))
                  (items st))
             (newSale newId now it payload :: sales st),
     None).
Proof.
  unfold newSale, resolvedPrice, catalogPrice, deltaUnitsOf, deltaKgOf,
    requestedQty, payloadQtyField, stockInMode, stockField, addSale.
  intros -> Hq Hs.
  destruct (Item.trackBy it); rewrite (pos_not_nonpos _ Hq), Hs; reflexivity.
Qed.

Lemma newSale_fields (newId : string) (now : float) (it : Item.t)
    (payload : SalePayload.t) :
  Sale.id (newSale newId now it payload) = newId /\
  Sale.itemId (newSale newId now it payload) = Item.id it /\
  saleQtyField it (newSale newId now it payload) = Some (requestedQty it payload) /\
  salePriceField it (newSale newId now it payload) = Some (resolvedPrice it payload) /\
  Sale.total (newSale newId now it payload) =
    requestedQty it payload * resolvedPrice it payload.
Proof.
  unfold newSale, saleQtyField, salePriceField.
  destruct (Item.trackBy it); repeat split.
Qed.

Lemma itemMap_adjustStock now (its : list Item.t) (it : Item.t)
    (du dk : option float) (k : string) :
  itemMap its !! k = Some it ->
  itemMap (map (adjustItem now (Item.id it) du dk) its) !! k =
    Some (adjustItem now (Item.id it) du dk it).
Proof.
  intros H. rewrite itemMap_map by (intros; apply adjustItem_id).
  now rewrite H.
Qed.

(** With stock [Infinity] the sale goes through and the stock becomes 0,
    not [Infinity - 3]. *)
Lemma every_covered_sale_is_recorded_fails : ~ every_covered_sale_is_recorded.
Proof.
  intros H.
  destruct (H "s1" 1 (sell 3) (mkState [bottomless] []) bottomless)
    as (sale & st' & it' & Ha & _ & _ & _ & _ & _ & _ & Hm & _ & Hs);
    try (vm_compute; reflexivity).
  apply (f_equal fst) in Ha. vm_compute in Ha. subst st'.
  vm_compute in Hm. apply (inj Some) in Hm. subst it'.
  vm_compute in Hs. revert Hs. apply float_neq. reflexivity.
Qed.

(** C5 (amended). For an item whose available stock is finite and at least
    the clamped, positive requested quantity [q], [addSale] puts exactly one
    new sale in front of the sales, with quantity [q], price snapshot [p]
    (the resolved price) and total [q * p], and the item's stock in its
    tracking mode becomes the binary64 difference [stock - q]. *)
Theorem addSale_records_sale (newId : string) (now : float)
    (payload : SalePayload.t) (st : State) (it : Item.t) :
  itemMap (items st) !! SalePayload.itemId payload = Some it ->
  (0 <? requestedQty it payload) = true ->
  (requestedQty it payload <=? stockInMode it) = true ->
  is_finite (stockInMode it) = true ->
  saleRecorded newId now payload st it.
Proof.
  intros Hit Hq Hle Hfin. unfold saleRecorded.
  assert (Hid := itemMap_lookup_id _ _ _ Hit).
  assert (Hs := leb_not_ltb _ _ Hle).
  rewrite (addSale_accepted newId now payload st it Hit Hq Hs).
  destruct (newSale_fields newId now it payload) as (F1 & F2 & F3 & F4 & F5).
  exists (newSale newId now it payload).
  eexists.
  exists (adjustItem now (Item.id it)
            (deltaUnitsOf it (- requestedQty it payload))
            (deltaKgOf it (- requestedQty it payload)) it).
  split; [reflexivity|]. cbn [sales items].
  repeat split; try assumption.
  - apply itemMap_adjustStock. now rewrite Hid.
  - apply adjustItem_trackBy.
  - rewrite stockInMode_adjustItem.
    replace (JS.or0 _) with (- requestedQty it payload).
    + apply clampNonNeg_sub; auto. apply clampNonNeg_finite.
    + unfold deltaUnitsOf, deltaKgOf.
      destruct (Item.trackBy it); symmetry; now apply or0_opp_pos.
Qed.

(** Selling three of three apples at 10: total 30, stock 0. *)
Lemma addSale_records_sale_witness : saleRecorded "s1" 1 (sell 3) shop apples.
Proof.
  apply (addSale_records_sale "s1" 1 (sell 3) shop apples);
    vm_compute; reflexivity.
Defined.

Example addSale_three_of_three :
  addSale "s1" 1 (sell 3) shop =
    (mkState
       [Item.mk "a1" "Apples" None None ByUnit (Some "unit")
                (Some 10) None (Some 0) None 0 1]
       [Sale.mk "s1" "a1" (Some 3) None (Some 10) None 30 None None 1],
     None).
Proof. vm_compute. reflexivity. Qed.

(** ** Deleting the sale just recorded *)

Lemma findSale_filter_out (saleId : string) (l : list Sale.t) :
  findSale saleId
    (List.filter (fun x => negb (String.eqb (Sale.id x) saleId)) l) = None.
Proof.
  unfold findSale. induction l as [|s l IH]; [reflexivity|].
  cbn [List.filter]. destruct (String.eqb (Sale.id s) saleId) eqn:E; cbn [negb].
  - exact IH.
  - cbn [List.find]. now rewrite E.
Qed.

(** [deleteSale] on the sale [addSale] has just put in front: the stock of
    every item with the sale's item id goes down by [q] and up by [q]
    again, each time through the clamp, and the sale is filtered out. *)
Lemma deleteSale_after_addSale (newId : string) (now now' : float)
    (payload : SalePayload.t) (st : State) (it : Item.t) :
  itemMap (items st) !! SalePayload.itemId payload = Some it ->
  (0 <? requestedQty it payload) = true ->
  (stockInMode it <? requestedQty it payload) = false ->
  let q := requestedQty it payload in
  deleteSale now' newId (fst (addSale newId now payload st)) =
    mkState
      (map (adjustItem now' (Item.id it) (deltaUnitsOf it q) (deltaKgOf it q))
         (map (adjustItem now (Item.id it) (deltaUnitsOf it (- q)) (deltaKgOf it (- q)))
            (items st)))
      (List.filter (fun x => negb (String.eqb (Sale.id x) newId)) (sales st)).
Proof.
  intros Hit Hq Hs q. subst q.
  assert (Hid := itemMap_lookup_id _ _ _ Hit).
  rewrite (addSale_accepted newId now payload st it Hit Hq Hs).
  destruct (newSale_fields newId now it payload) as (F1 & F2 & F3 & _).
  unfold deleteSale, findSale. cbn [fst sales items List.find List.filter].
  rewrite F1, String.eqb_refl, F2. cbn [negb].
  rewrite (itemMap_adjustStock now (items st) it _ _ (Item.id it))
    by now rewrite Hid.
  unfold isUnit, isKg. rewrite adjustItem_trackBy, adjustItem_id.
  unfold saleQtyField in F3. unfold deltaUnitsOf, deltaKgOf.
  assert (Ht := pos_truthy _ Hq).
  destruct (Item.trackBy it) eqn:T; unfold newSale; rewrite T;
    cbn [Sale.qtyUnits Sale.qtyKg JS.truthy_opt andb]; rewrite Ht;
    reflexivity.
Qed.

(** 0.9 kg in stock, 0.2 kg sold and the sale deleted at once: the stock
    comes back as 0.8999999999999999. *)
Lemma every_round_trip_restores_fails : ~ every_round_trip_restores.
Proof.
  intros H.
  destruct (H "s1" 1 2 (sellKg 0.2 None) (mkState [beef] []) beef)
    as (it2 & _ & _ & Hm & _ & Hs); try (vm_compute; reflexivity).
  vm_compute in Hm. apply (inj Some) in Hm. subst it2.
  vm_compute in Hs. revert Hs. apply float_neq. reflexivity.
Qed.

(** C6 (amended). After a successful [addSale] on an item with a finite
    stock, [deleteSale] on the sale it produced removes that sale and
    sets the item's stock in its tracking mode to the binary64 value
    [(stock - q) + q]: the pre-sale stock whenever that subtraction and
    addition round-trip exactly, as they do for whole numbers
    ([whole_round_trip]). *)
Theorem sale_round_trip (newId : string) (now now' : float)
    (payload : SalePayload.t) (st : State) (it : Item.t) :
  itemMap (items st) !! SalePayload.itemId payload = Some it ->
  (0 <? requestedQty it payload) = true ->
  (requestedQty it payload <=? stockInMode it) = true ->
  is_finite (stockInMode it) = true ->
  stockInMode it - requestedQty it payload + requestedQty it payload = stockInMode it ->
  roundTripRestores newId now now' payload st it.
Proof.
  intros Hit Hq Hle Hfin Hexact. unfold roundTripRestores.
  assert (Hid := itemMap_lookup_id _ _ _ Hit).
  assert (Hs := leb_not_ltb _ _ Hle).
  rewrite (deleteSale_after_addSale newId now now' payload st it Hit Hq Hs).
  cbn [sales items].
  set (q := requestedQty it payload) in *.
  set (it1 := adjustItem now (Item.id it) (deltaUnitsOf it (- q)) (deltaKgOf it (- q)) it).
  assert (H1 : stockInMode it1 = stockInMode it - q).
  { unfold it1. rewrite stockInMode_adjustItem.
    replace (JS.or0 _) with (- q).
    - apply clampNonNeg_sub; auto. apply clampNonNeg_finite.
    - unfold deltaUnitsOf, deltaKgOf.
      destruct (Item.trackBy it); symmetry; now apply or0_opp_pos. }
  assert (T1 : Item.trackBy it1 = Item.trackBy it) by apply adjustItem_trackBy.
  assert (I1 : Item.id it1 = Item.id it) by apply adjustItem_id.
  exists (adjustItem now' (Item.id it) (deltaUnitsOf it q) (deltaKgOf it q) it1).
  split; [apply findSale_filter_out|]. split; [reflexivity|]. split; [|split].
  - rewrite itemMap_map by (intros; apply adjustItem_id).
    rewrite (itemMap_adjustStock now (items st) it _ _ (Item.id it))
      by now rewrite Hid.
    reflexivity.
  - now rewrite adjustItem_trackBy.
  - rewrite <- I1 at 1. rewrite stockInMode_adjustItem, H1, T1.
    replace (JS.or0 _) with q.
    + rewrite Hexact. apply clampNonNeg_id; [assumption|].
      now apply (pos_le_trans q).
    + unfold deltaUnitsOf, deltaKgOf.
      destruct (Item.trackBy it); symmetry; now apply or0_pos.
Qed.

(** Three apples in stock, three sold, the sale deleted: three again. *)
Lemma sale_round_trip_witness : roundTripRestores "s1" 1 2 (sell 3) shop apples.
Proof.
  apply (sale_round_trip "s1" 1 2 (sell 3) shop apples);
    vm_compute; reflexivity.
Defined.

(** ** Negative prices *)

Lemma clampNonNeg_pos (n : float) :
  (clampNonNeg n <=? 0) = false -> (0 <? clampNonNeg n) = true.
Proof.
  destruct (clampNonNeg_cases n) as [(-> & _ & H) | (-> & _)];
    [auto | discriminate].
Qed.

(** A sale of 1e-200 kg at -1e-200 per kg: the product underflows and the
    total is [-0], which is not below zero. *)
Lemma negative_price_gives_negative_total_fails :
  ~ negative_price_gives_negative_total.
Proof.
  intros H.
  destruct (H "s1" 1 (sellKg 1e-200 (Some (-1e-200))) (mkState [beef] [])
              beef (-1e-200))
    as (sale & st' & Ha & Hs & _ & _ & Hn); try (vm_compute; reflexivity).
  apply (f_equal fst) in Ha. vm_compute in Ha. subst st'.
  vm_compute in Hs. apply (f_equal (hd sale)) in Hs. cbn [hd] in Hs. subst sale.
  vm_compute in Hn. discriminate Hn.
Qed.

(** C10 (amended). When [overridePrice] is finite and negative and the
    quantity and stock checks pass, [addSale] does not reject: it records
    the sale with that price as its snapshot, unclamped, and with the total
    [q * price], which is negative or, when the product underflows, [-0]:
    never above zero. *)
Theorem addSale_negative_price (newId : string) (now : float)
    (payload : SalePayload.t) (st : State) (it : Item.t) (p : float) :
  itemMap (items st) !! SalePayload.itemId payload = Some it ->
  SalePayload.overridePrice payload = Some p ->
  is_finite p = true ->
  (p <? 0) = true ->
  (requestedQty it payload <=? 0) = false ->
  (stockInMode it <? requestedQty it payload) = false ->
  exists (sale : Sale.t) (st' : State),
    addSale newId now payload st = (st', None) /\
    sales st' = sale :: sales st /\
    salePriceField it sale = Some p /\
    Sale.total sale = requestedQty it payload * p /\
    ((Sale.total sale <? 0) = true \/ Sale.total sale = (-0)).
Proof.
  intros Hit Hp Fp Np Hq Hs.
  assert (Pq : (0 <? requestedQty it payload) = true)
    by now apply clampNonNeg_pos.
  rewrite (addSale_accepted newId now payload st it Hit Pq Hs).
  destruct (newSale_fields newId now it payload) as (_ & _ & _ & F4 & F5).
  assert (R : resolvedPrice it payload = p).
  { unfold resolvedPrice, finiteOr. now rewrite Hp, Fp. }
  rewrite R in F4, F5.
  exists (newSale newId now it payload). eexists.
  split; [reflexivity|]. cbn [sales].
  repeat split; try assumption.
  rewrite F5. apply mul_pos_neg; auto. apply clampNonNeg_finite.
Qed.

(** Two units at -4 each: price snapshot -4, total -8. *)
Lemma addSale_negative_price_witness :
  exists (sale : Sale.t) (st' : State),
    addSale "s1" 1 (SalePayload.mk "a1" (Some 2) None (Some (-4)) None) shop
      = (st', None) /\
    sales st' = sale :: sales shop /\
    salePriceField apples sale = Some (-4) /\
    Sale.total sale = 2 * -4 /\
    ((Sale.total sale <? 0) = true \/ Sale.total sale = (-0)).
Proof.
  apply (addSale_negative_price "s1" 1
           (SalePayload.mk "a1" (Some 2) None (Some (-4)) None) shop apples (-4));
    vm_compute; reflexivity.
Defined.

(** ** Statistics *)

Lemma statsBase_snoc (l : list Item.t) (x : Item.t) :
  statsBase (l ++ [x]) = <[Item.id x := mkStats 0 0 0]> (statsBase l).
Proof. unfold statsBase. now rewrite foldl_app. Qed.

(** The first loop gives every item id, and no other key, a zero record. *)
Lemma statsBase_lookup (l : list Item.t) (k : string) :
  statsBase l !! k =
  if existsb (fun i => String.eqb (Item.id i) k) l then Some (mkStats 0 0 0) else None.
Proof.
  induction l as [|x l IH] using rev_ind.
  - unfold statsBase. cbn. now rewrite lookup_empty.
  - rewrite statsBase_snoc, lookup_insert, IH, existsb_app. cbn [existsb].
    rewrite orb_false_r.
    case_decide as E.
    + subst k. rewrite String.eqb_refl, orb_true_r. reflexivity.
    + apply String.eqb_neq in E. rewrite E, orb_false_r. reflexivity.
Qed.

Lemma hasItem_iff (l : list Item.t) (k : string) :
  existsb (fun i => String.eqb (Item.id i) k) l = true <->
  exists i, In i l /\ Item.id i = k.
Proof.
  rewrite existsb_exists. split; intros (i & Hi & E); exists i; split; auto;
    now apply String.eqb_eq.
Qed.

Lemma statsAdd_lookup (base : gmap string Stats) (s : Sale.t) (k : string) :
  statsAdd base s !! k =
  if decide (Sale.itemId s = k) then (fun st => addToStats st s) <$> (base !! k)
  else base !! k.
Proof.
  unfold statsAdd, addToStats.
  destruct (base !! Sale.itemId s) as [st|] eqn:E.
  - rewrite lookup_insert. case_decide; [subst k; now rewrite E | reflexivity].
  - case_decide; [subst k; now rewrite E | reflexivity].
Qed.

Lemma addToStats_nonneg (st : Stats) (s : Sale.t) :
  nonNegStats st -> nonNegStats (addToStats st s).
Proof.
  intros (H1 & H2 & H3).
  repeat split; cbn; apply add_nonneg; auto using clampNonNeg_nonneg.
Qed.

Lemma foldl_statsAdd_nonneg (sls : list Sale.t) (base : gmap string Stats) :
  (forall k st, base !! k = Some st -> nonNegStats st) ->
  forall k st, foldl statsAdd base sls !! k = Some st -> nonNegStats st.
Proof.
  revert base. induction sls as [|s sls IH]; intros base Hb; [exact Hb|].
  cbn [foldl]. apply IH. intros k st. rewrite statsAdd_lookup.
  case_decide; [|apply Hb].
  destruct (base !! k) as [st0|] eqn:E; [|discriminate].
  cbn. intros Hst. apply (inj Some) in Hst. subst st.
  apply addToStats_nonneg. eauto.
Qed.

Lemma foldl_statsAdd_dom (sls : list Sale.t) (base : gmap string Stats) (k : string) :
  is_Some (foldl statsAdd base sls !! k) <-> is_Some (base !! k).
Proof.
  revert base. induction sls as [|s sls IH]; intros base; [reflexivity|].
  cbn [foldl]. rewrite IH, statsAdd_lookup.
  case_decide; [|reflexivity]. apply fmap_is_Some.
Qed.

(** C7. [statsByItem] has a record for the ids of the items and for nothing
    else; a sale whose [itemId] matches no item is skipped, so that removing
    it changes no record; every other sale adds its quantities and total,
    each clamped to [>= 0], to the record of its item; hence the
    [soldUnits], [soldKg] and [revenue] of every item are [>= 0] whatever
    the stored sales hold; and with no sales every item has the zero
    record. *)
Theorem statsByItem_spec (its : list Item.t) :
  (forall sls id, is_Some (statsByItem its sls !! id) <->
                  exists i, In i its /\ Item.id i = id) /\
  (forall sls1 s sls2,
      (forall i, In i its -> Item.id i <> Sale.itemId s) ->
      statsByItem its (sls1 ++ s :: sls2) = statsByItem its (sls1 ++ sls2)) /\
  (forall sls s st,
      statsByItem its sls !! Sale.itemId s = Some st ->
      statsByItem its (sls ++ [s]) !! Sale.itemId s = Some (addToStats st s)) /\
  (forall sls id st, statsByItem its sls !! id = Some st -> nonNegStats st) /\
  (forall i, In i its -> statsByItem its [] !! Item.id i = Some (mkStats 0 0 0)).
Proof.
  unfold statsByItem.
  assert (Hzero : forall k st, statsBase its !! k = Some st -> nonNegStats st).
  { intros k st. rewrite statsBase_lookup.
    destruct (existsb _ its); [|discriminate].
    intros H. apply (inj Some) in H. subst st. repeat split. }
  split; [|split; [|split; [|split]]].
  - intros sls id.
    rewrite foldl_statsAdd_dom, statsBase_lookup, <- hasItem_iff.
    destruct (existsb _ its); split; eauto; try discriminate.
    intros []; discriminate.
  - intros sls1 s sls2 Hs. rewrite !foldl_app. cbn [foldl]. f_equal.
    unfold statsAdd at 1.
    destruct (foldl statsAdd (statsBase its) sls1 !! Sale.itemId s) eqn:E;
      [|reflexivity].
    exfalso.
    assert (X : is_Some (statsBase its !! Sale.itemId s)).
    { apply (foldl_statsAdd_dom sls1). rewrite E. eauto. }
    rewrite statsBase_lookup in X.
    destruct (existsb _ its) eqn:D; [|destruct X; discriminate].
    apply hasItem_iff in D as (i & Hi & Ei). now apply (Hs i).
  - intros sls s st H. rewrite foldl_app. cbn [foldl].
    rewrite statsAdd_lookup, H. now case_decide.
  - intros sls. now apply foldl_statsAdd_nonneg.
  - intros i Hi. cbn [foldl]. rewrite statsBase_lookup.
    replace (existsb _ its) with true; [reflexivity|].
    symmetry. apply hasItem_iff. eauto.
Qed.

(** A stored sale with a negative quantity and total, and an orphan sale,
    leave the record of the apples at zero. *)
Example statsByItem_corrupt_sale :
  statsByItem [apples]
    [Sale.mk "s1" "a1" (Some (-3)) None (Some 10) None (-30) None None 1;
     Sale.mk "s2" "gone" (Some 2) None (Some 10) None 20 None None 1] !! "a1"
  = Some (mkStats 0 0 0).
Proof. vm_compute. reflexivity. Qed.

(** ** Restoring a backup *)

(** C8. When [items] or [sales] of the parsed backup is not an array,
    [importJson] raises the invalid-backup alert and returns the state it
    was given; when both are arrays, the two arrays become the state,
    whatever it was before.  (A file that does not parse leaves the state
    as it was too, with the failed-import alert.) *)
Theorem importJson_spec (st : State) :
  (forall (fi : Field Item.t) (fs : Field Sale.t),
      fi = NotArray \/ fs = NotArray ->
      importJson (Value fi fs) st = (st, Some InvalidBackupFile)) /\
  (forall (its : list Item.t) (sls : list Sale.t),
      importJson (Value (IsArray its) (IsArray sls)) st = (mkState its sls, None)) /\
  importJson Throws st = (st, Some FailedToImportFile).
Proof.
  split; [|split].
  - intros fi fs [-> | ->]; [reflexivity|]. now destruct fi.
  - reflexivity.
  - reflexivity.
Qed.

(** ** Editing an item *)

(** C9. [upsertItem] with the id of an existing item replaces that item by
    the merge of the supplied fields over it: a supplied [stockUnits],
    [stockKg] or [trackBy] is taken as it is, unclamped and unchecked, and
    only [updatedAt] is set afresh.  So some edit (one that supplies the
    stock -1) leaves the item with a negative stock in its tracking mode:
    item updates do not preserve the stock invariant. *)
Theorem upsertItem_update_unchecked (st : State) (k : nat) (i : Item.t) :
  items st !! k = Some i ->
  Item.id i <> EmptyString ->
  (forall (newId : string) (now : float) (partial : PartialItem.t),
      PartialItem.id partial = Some (Item.id i) ->
      items (upsertItem newId now partial st) !! k = Some (mergeItem now partial i) /\
      sales (upsertItem newId now partial st) = sales st /\
      Item.updatedAt (mergeItem now partial i) = now /\
      (forall v, PartialItem.stockUnits partial = Some v ->
                 Item.stockUnits (mergeItem now partial i) = v) /\
      (forall v, PartialItem.stockKg partial = Some v ->
                 Item.stockKg (mergeItem now partial i) = v) /\
      (forall v, PartialItem.trackBy partial = Some v ->
                 Item.trackBy (mergeItem now partial i) = v)) /\
  (exists (newId : string) (now : float) (partial : PartialItem.t) (i' : Item.t),
      PartialItem.id partial = Some (Item.id i) /\
      items (upsertItem newId now partial st) !! k = Some i' /\
      ~ stockNonNeg i' /\
      (stockInMode i' <? 0) = true).
Proof.
  intros Hk Hid.
  assert (Hup : forall newId now partial,
             PartialItem.id partial = Some (Item.id i) ->
             items (upsertItem newId now partial st) !! k
             = Some (mergeItem now partial i)).
  { intros newId now partial Hp. unfold upsertItem. rewrite Hp.
    destruct (Item.id i) as [|c s] eqn:E; [contradiction|].
    cbn [items]. rewrite list_lookup_fmap, Hk. cbn.
    now rewrite E, String.eqb_refl. }
  split.
  - intros newId now partial Hp. split; [now apply Hup|].
    split.
    { unfold upsertItem. rewrite Hp.
      destruct (Item.id i); [contradiction | reflexivity]. }
    split; [reflexivity|].
    unfold mergeItem; cbn.
    repeat split; intros v ->; reflexivity.
  - exists EmptyString, 0, (negativeStock (Item.id i)),
      (mergeItem 0 (negativeStock (Item.id i)) i).
    split; [reflexivity|]. split; [now apply Hup|].
    unfold stockNonNeg, stockInMode, stockField. cbn.
    destruct (Item.trackBy i); split; vm_compute; congruence.
Qed.

(** Setting the stock of the three apples to -1. *)
Lemma upsertItem_update_unchecked_witness :
  items (upsertItem "" 5 (negativeStock "a1") shop) !! 0%nat =
    Some (Item.mk "a1" "Apples" None None ByUnit (Some "unit")
                  (Some 10) None (Some (-1)) (Some (-1)) 0 5).
Proof.
  apply (upsertItem_update_unchecked shop 0 apples);
    [reflexivity | discriminate | reflexivity].
Defined.

(** * The forms, the report and the books *)

(** ** Integers in binary64 *)

Lemma whole_integer (x : float) (n : Z) : whole x n -> integer x n.
Proof. intros [H E]. split; [lia | exact E]. Qed.

Lemma integer_whole (x : float) (n : Z) : integer x n -> (0 <= n)%Z -> whole x n.
Proof. intros [H E] Hn. split; [lia | exact E]. Qed.

Lemma integer_inv (x : float) (n : Z) :
  integer x n ->
  (n = 0%Z /\ x = 0) \/
  (n <> 0%Z /\
   exists (m : positive) (e : Z),
     Prim2SF x = S754_finite (n <? 0)%Z m e /\
     (e <= 0)%Z /\ Zpos m = (Z.abs n * 2 ^ (- e))%Z).
Proof.
  intros [Hn E]. destruct n as [|a|a].
  - left. split; [reflexivity|]. apply Prim2SF_inj. now rewrite E.
  - right. split; [lia|]. cbn [binary_normalize] in E.
    destruct (binary_round_whole false a) as (m & e & R & He & V); [lia|].
    exists m, e. rewrite E, R. auto.
  - right. split; [lia|]. cbn [binary_normalize] in E.
    destruct (binary_round_whole true a) as (m & e & R & He & V); [lia|].
    exists m, e. rewrite E, R. auto.
Qed.

Lemma integer_zero : integer 0 0.
Proof. split; [lia | reflexivity]. Qed.

(** The sign and the class of an integer. *)
Lemma integer_sign (x : float) (n : Z) :
  integer x n ->
  is_finite x = true /\
  (0 <? x) = (0 <? n)%Z /\
  (x <? 0) = (n <? 0)%Z /\
  (x =? 0) = (n =? 0)%Z.
Proof.
  intros H.
  destruct (integer_inv x n H) as [[-> ->] | (Hn & m & e & E & _)].
  - repeat split.
  - rewrite is_finite_spec, pos_spec, neg_spec.
    change (x =? 0) with (is_zero x). rewrite is_zero_spec, E.
    destruct n as [|a|a]; [lia | |]; repeat split.
Qed.

Lemma integer_cond_Zopp (n : Z) : cond_Zopp (n <? 0)%Z (Z.abs n) = n.
Proof. destruct n; reflexivity. Qed.

(** Integers are added exactly. *)
Lemma integer_add (x y : float) (a b : Z) :
  integer x a -> integer y b -> (- 2 ^ 53 < a + b < 2 ^ 53)%Z ->
  integer (x + y) (a + b).
Proof.
  intros Hx Hy Hab. split; [exact Hab|].
  rewrite add_spec. unfold SF64add.
  destruct (integer_inv x a Hx) as [[-> ->] | (Ha & ma & ea & Ex & Hea & Va)];
    destruct (integer_inv y b Hy) as [[-> ->] | (Hb & mb & eb & Ey & Heb & Vb)].
  - reflexivity.
  - rewrite Ey. cbn [Prim2SF_zero]. change (Prim2SF 0) with (S754_zero false).
    cbn [SFadd Z.add]. rewrite <- Ey. apply Hy.
  - rewrite Ex. change (Prim2SF 0) with (S754_zero false).
    cbn [SFadd]. rewrite Z.add_0_r, <- Ex. apply Hx.
  - rewrite Ex, Ey.
    rewrite (SFadd_finite_scaled _ _ ma mb ea eb (Z.abs a) (Z.abs b) Hea Heb Va Vb).
    now rewrite !integer_cond_Zopp.
Qed.

Lemma binary_round_opp (s : bool) (p : positive) (e : Z) :
  SFopp (binary_round prec emax s p e) = binary_round prec emax (negb s) p e.
Proof.
  unfold binary_round. destruct (shl_align p e _) as [mz ez].
  unfold binary_round_aux.
  destruct (shr_fexp prec emax (Z.pos mz) ez loc_Exact) as [mrs' e'].
  destruct (shr_fexp prec emax _ e' loc_Exact) as [mrs'' e''].
  destruct (shr_m mrs''); [reflexivity | | reflexivity].
  destruct (e'' <=? emax - prec)%Z; reflexivity.
Qed.

Lemma integer_opp (x : float) (a : Z) :
  integer x a -> a <> 0%Z -> integer (- x) (- a).
Proof.
  intros Hx Ha. split; [destruct Hx; lia|].
  destruct (integer_inv x a Hx) as [[-> _] | (_ & m & e & E & _)]; [lia|].
  rewrite opp_spec. destruct Hx as [_ ->].
  destruct a as [|p|p]; [lia | |]; cbn [binary_normalize Z.opp];
    now rewrite binary_round_opp.
Qed.

(** Integers are subtracted exactly. *)
Lemma integer_sub (x y : float) (a b : Z) :
  integer x a -> integer y b -> (- 2 ^ 53 < a - b < 2 ^ 53)%Z ->
  integer (x - y) (a - b).
Proof.
  intros Hx Hy Hab.
  destruct (Z.eq_dec b 0%Z) as [-> | Hb].
  - destruct (integer_inv y 0%Z Hy) as [[_ ->] | (H & _)]; [|lia].
    rewrite Z.sub_0_r. split; [destruct Hx; lia|].
    rewrite sub_spec. unfold SF64sub. change (Prim2SF 0) with (S754_zero false).
    destruct (integer_inv x a Hx) as [[-> ->] | (Ha & ma & ea & Ex & _)].
    + reflexivity.
    + rewrite Ex. cbn [SFsub]. rewrite <- Ex. apply Hx.
  - rewrite sub_add_opp. replace (a - b)%Z with (a + - b)%Z by lia.
    apply integer_add; [assumption | now apply integer_opp | lia].
Qed.

(** Clamping an integer gives the larger of it and zero. *)
Lemma integer_clampNonNeg (x : float) (n : Z) :
  integer x n -> whole (clampNonNeg x) (Z.max 0 n).
Proof.
  intros H. destruct (integer_sign x n H) as (F & P & _).
  unfold clampNonNeg. rewrite F, P. cbn [andb].
  destruct (0 <? n)%Z eqn:E.
  - apply Z.ltb_lt in E. rewrite Z.max_r by lia. apply integer_whole; [assumption | lia].
  - apply Z.ltb_ge in E. rewrite Z.max_l by lia. split; [lia | reflexivity].
Qed.

Lemma integer_or0 (x : float) (n : Z) : integer x n -> JS.or0 (Some x) = x.
Proof.
  intros H. destruct (integer_inv x n H) as [[_ ->] | (Hn & m & e & E & _)].
  - reflexivity.
  - unfold JS.or0, JS.or_else, JS.truthy.
    now rewrite is_zero_spec, is_nan_spec, E.
Qed.

Lemma integer_truthy (x : float) (n : Z) :
  integer x n -> JS.truthy x = negb (n =? 0)%Z.
Proof.
  intros H. destruct (integer_inv x n H) as [[-> ->] | (Hn & m & e & E & _)].
  - reflexivity.
  - unfold JS.truthy. rewrite is_zero_spec, is_nan_spec, E. cbn.
    symmetry. apply negb_true_iff, Z.eqb_neq, Hn.
Qed.

(** A positive whole number has a full 53-bit mantissa. *)
Lemma whole_pos_inv (x : float) (a : Z) :
  whole x a -> (0 < a)%Z ->
  exists (m : positive) (e : Z),
    Prim2SF x = S754_finite false m e /\
    (e <= 0)%Z /\ Zpos m = (a * 2 ^ (- e))%Z /\
    (2 ^ 52 <= Zpos m < 2 ^ 53)%Z.
Proof.
  intros H Ha.
  destruct (whole_inv x a H) as [[-> _] | (_ & m & e & E & He & V)]; [lia|].
  exists m, e. repeat split; try assumption.
  - assert (B := Prim2SF_valid x). rewrite E in B. cbn [valid_binary] in B.
    destruct (bounded_inv m e B) as (Be & Um & Lm).
    apply Lm. destruct (Z.eq_dec e (-1074)%Z) as [-> | Hne]; [exfalso | lia].
    assert (2 ^ 53 <= 2 ^ (- -1074))%Z by (apply Z.pow_le_mono_r; lia).
    nia.
  - assert (B := Prim2SF_valid x). rewrite E in B. cbn [valid_binary] in B.
    now destruct (bounded_inv m e B) as (_ & Um & _).
Qed.

(** Whole numbers compare as the integers they are. *)
Lemma whole_ltb (x y : float) (a b : Z) :
  whole x a -> whole y b -> (x <? y) = (a <? b)%Z.
Proof.
  intros Hx Hy.
  assert (Ha : (0 <= a)%Z) by (destruct Hx; lia).
  assert (Hb : (0 <= b)%Z) by (destruct Hy; lia).
  destruct (Z.eq_dec b 0%Z) as [-> | Nb].
  - destruct (integer_inv y 0%Z (whole_integer _ _ Hy)) as [[_ ->] | (H & _)]; [|lia].
    destruct (integer_sign x a (whole_integer _ _ Hx)) as (_ & _ & -> & _).
    destruct (a <? 0)%Z eqn:E1, (a <? 0)%Z eqn:E2; try reflexivity; lia.
  - destruct (Z.eq_dec a 0%Z) as [-> | Na].
    + destruct (integer_inv x 0%Z (whole_integer _ _ Hx)) as [[_ ->] | (H & _)]; [|lia].
      now destruct (integer_sign y b (whole_integer _ _ Hy)) as (_ & -> & _).
    + destruct (whole_pos_inv x a Hx) as (ma & ea & Ex & Hea & Va & La & Ua); [lia|].
      destruct (whole_pos_inv y b Hy) as (mb & eb & Ey & Heb & Vb & Lb & Ub); [lia|].
      rewrite FloatAxioms.ltb_spec, Ex, Ey. unfold SFltb. cbn [SFcompare].
      change (2 ^ 53)%Z with (2 * 2 ^ 52)%Z in *.
      destruct (ea ?= eb)%Z eqn:C.
      * apply Z.compare_eq in C. subst eb.
        assert (Hp : (0 < 2 ^ (- ea))%Z) by (apply Z.pow_pos_nonneg; lia).
        change (Pos.compare_cont Eq ma mb) with (ma ?= mb)%positive.
        destruct (ma ?= mb)%positive eqn:C'.
        -- apply Pos.compare_eq in C'. subst mb.
           symmetry. apply Z.ltb_ge.
           assert (a = b); [|lia].
           apply (Z.mul_reg_r _ _ (2 ^ (- ea))); [lia | now rewrite <- Va, <- Vb].
        -- symmetry. apply Z.ltb_lt.
           apply (Z.mul_lt_mono_pos_r (2 ^ (- ea))); [lia|].
           rewrite <- Va, <- Vb. now apply Pos2Z.pos_lt_pos.
        -- symmetry. apply Z.ltb_ge.
           apply Z.lt_le_incl, (Z.mul_lt_mono_pos_r (2 ^ (- ea))); [lia|].
           rewrite <- Va, <- Vb. now apply Pos2Z.pos_lt_pos, Pos.compare_gt_iff.
      * assert (Hlt : (ea < eb)%Z) by now apply Z.compare_lt_iff.
        symmetry. apply Z.ltb_lt.
        assert (Hp : (0 < 2 ^ (- eb))%Z) by (apply Z.pow_pos_nonneg; lia).
        assert (Hs : (2 ^ (- ea) = 2 ^ (- eb) * 2 ^ (eb - ea))%Z).
        { rewrite <- Z.pow_add_r by lia. f_equal. lia. }
        assert (H2 : (2 ^ 1 <= 2 ^ (eb - ea))%Z) by (apply Z.pow_le_mono_r; lia).
        change (2 ^ 1)%Z with 2%Z in H2.
        rewrite Hs, Z.mul_assoc in Va.
        assert (H0 : (0 <= a * 2 ^ (- eb))%Z) by (apply Z.mul_nonneg_nonneg; lia).
        assert (H3 : (a * 2 ^ (- eb) * 2 <= a * 2 ^ (- eb) * 2 ^ (eb - ea))%Z)
          by (apply Z.mul_le_mono_nonneg_l; lia).
        apply (Z.mul_lt_mono_pos_r (2 ^ (- eb))); lia.
      * assert (Hgt : (eb < ea)%Z) by now apply Z.compare_gt_iff.
        symmetry. apply Z.ltb_ge.
        assert (Hp : (0 < 2 ^ (- ea))%Z) by (apply Z.pow_pos_nonneg; lia).
        assert (Hs : (2 ^ (- eb) = 2 ^ (- ea) * 2 ^ (ea - eb))%Z).
        { rewrite <- Z.pow_add_r by lia. f_equal. lia. }
        assert (H2 : (2 ^ 1 <= 2 ^ (ea - eb))%Z) by (apply Z.pow_le_mono_r; lia).
        change (2 ^ 1)%Z with 2%Z in H2.
        rewrite Hs, Z.mul_assoc in Vb.
        assert (H0 : (0 <= b * 2 ^ (- ea))%Z) by (apply Z.mul_nonneg_nonneg; lia).
        assert (H3 : (b * 2 ^ (- ea) * 2 <= b * 2 ^ (- ea) * 2 ^ (ea - eb))%Z)
          by (apply Z.mul_le_mono_nonneg_l; lia).
        apply Z.lt_le_incl, (Z.mul_lt_mono_pos_r (2 ^ (- ea))); lia.
Qed.

Lemma sub_self (x : float) : is_finite x = true -> x - x = 0.
Proof.
  intros F. apply Prim2SF_inj. rewrite sub_spec, Prim2SF_zero.
  rewrite is_finite_spec in F. unfold SF64sub.
  destruct (Prim2SF x) as [s| s| |s m e]; try discriminate.
  - now destruct s.
  - cbn [SFsub]. rewrite Z.sub_diag. reflexivity.
Qed.

(** Closes a goal [whole x n] or [integer x n] on literals. *)
Ltac count_lit := split; [vm_compute; split; congruence | reflexivity].

(** ** Items by identifier *)

Lemma eqb_neq_iff (a b : string) : negb (String.eqb a b) = true <-> a <> b.
Proof.
  rewrite negb_true_iff. split.
  - intros H E. apply String.eqb_eq in E. congruence.
  - intros H. now apply String.eqb_neq.
Qed.

Lemma itemMap_nil (k : string) : itemMap [] !! k = None.
Proof. unfold itemMap. cbn. apply lookup_empty. Qed.

Lemma itemMap_lookup_None (l : list Item.t) (k : string) :
  itemMap l !! k = None <-> forall i, In i l -> Item.id i <> k.
Proof.
  induction l as [|x l IH] using rev_ind.
  - split; [intros _ i [] | intros _; apply itemMap_nil].
  - rewrite itemMap_snoc, lookup_insert. case_decide as E.
    + split; [discriminate|]. intros H. exfalso. apply (H x); [|exact E].
      apply in_or_app. right. now left.
    + rewrite IH. split.
      * intros H i Hi. apply in_app_or in Hi as [Hi | [<- | []]]; auto.
      * intros H i Hi. apply H. apply in_or_app. now left.
Qed.

Lemma itemMap_In (l : list Item.t) (k : string) (it : Item.t) :
  itemMap l !! k = Some it -> In it l.
Proof.
  induction l as [|x l IH] using rev_ind.
  - now rewrite itemMap_nil.
  - rewrite itemMap_snoc, lookup_insert. case_decide as E.
    + intros H. apply (inj Some) in H. subst. apply in_or_app. right. now left.
    + intros H. apply in_or_app. left. auto.
Qed.

Lemma itemMap_filter (l : list Item.t) (id k : string) :
  itemMap (List.filter (fun i => negb (String.eqb (Item.id i) id)) l) !! k =
  if decide (k = id) then None else itemMap l !! k.
Proof.
  induction l as [|x l IH] using rev_ind.
  - cbn. rewrite itemMap_nil. now case_decide.
  - rewrite List.filter_app. cbn [List.filter].
    destruct (negb (Item.id x =? id)%string) eqn:E.
    + apply eqb_neq_iff in E.
      rewrite !itemMap_snoc, !lookup_insert.
      destruct (decide (Item.id x = k)) as [E1|E1]; [|exact IH].
      destruct (decide (k = id)); [congruence | reflexivity].
    + apply negb_false_iff, String.eqb_eq in E.
      rewrite app_nil_r, IH, itemMap_snoc, lookup_insert.
      destruct (decide (k = id)) as [E1|E1]; [reflexivity|].
      destruct (decide (Item.id x = k)); [congruence | reflexivity].
Qed.

Lemma map_id_on {A : Type} (f : A -> A) (l : list A) :
  (forall x, In x l -> f x = x) -> map f l = l.
Proof.
  intros H. induction l as [|x l IH]; [reflexivity|].
  cbn. rewrite H by now left. f_equal. apply IH. intros y Hy. apply H. now right.
Qed.

Lemma Forall_map_keeps {A : Type} (P : A -> Prop) (f : A -> A) (l : list A) :
  (forall x, P x -> P (f x)) -> Forall P l -> Forall P (map f l).
Proof. intros Hf H. induction H; cbn; constructor; auto. Qed.

Lemma State_eta (st : State) : mkState (items st) (sales st) = st.
Proof. now destruct st. Qed.

(** ** Strings *)

Lemma str_or_nonempty (o : option string) (d : string) :
  d <> EmptyString -> JS.str_or o d <> EmptyString.
Proof. intros H. destruct o as [[|c s]|]; cbn; [exact H | discriminate | exact H]. Qed.

(** ** Sound stock *)

Lemma stockSound_nonNeg (i : Item.t) : stockSound i -> stockNonNeg i.
Proof.
  unfold stockSound, stockNonNeg. destruct (stockField i); [|intros []].
  now intros [_ H].
Qed.

Lemma clampNonNeg_sound (n : float) :
  is_finite (clampNonNeg n) = true /\ (0 <=? clampNonNeg n) = true.
Proof. split; [apply clampNonNeg_finite | apply clampNonNeg_nonneg]. Qed.

Lemma newItem_sound (newId : string) (now : float) (partial : PartialItem.t) :
  stockSound (newItem newId now partial).
Proof.
  unfold stockSound, stockField, newItem. cbn.
  destruct (spread ByUnit (PartialItem.trackBy partial)); apply clampNonNeg_sound.
Qed.

Lemma adjustItem_sound now id du dk (i : Item.t) :
  stockSound i -> stockSound (adjustItem now id du dk i).
Proof.
  intros H. unfold adjustItem.
  destruct (negb (Item.id i =? id)%string); [exact H|].
  unfold stockSound, stockField.
  destruct (Item.trackBy i) eqn:T; cbn; rewrite T; apply clampNonNeg_sound.
Qed.

Lemma mergeItem_payload_sound now (editing : option Item.t) (form : PartialItem.t)
    (i : Item.t) :
  stockSound (mergeItem now (InventoryTab.payload editing form) i).
Proof.
  unfold stockSound, stockField, mergeItem, InventoryTab.payload. cbn.
  destruct (spread ByUnit (PartialItem.trackBy form)); apply clampNonNeg_sound.
Qed.

Lemma adjustStock_sound now id du dk (st : State) :
  Forall stockSound (items st) -> Forall stockSound (items (adjustStock now id du dk st)).
Proof.
  intros H. cbn. apply Forall_map_keeps; [|exact H].
  intros i Hi. now apply adjustItem_sound.
Qed.

Lemma addSale_sound newId now payload (st : State) :
  Forall stockSound (items st) ->
  Forall stockSound (items (fst (addSale newId now payload st))).
Proof.
  intros H. unfold addSale.
  destruct (itemMap (items st) !! SalePayload.itemId payload) as [it|]; [|exact H].
  destruct (Item.trackBy it); destruct_ifs idtac; try exact H;
    cbn [fst]; now apply adjustStock_sound.
Qed.

Lemma updateSale_sound now saleId changes (st : State) :
  Forall stockSound (items st) ->
  Forall stockSound (items (fst (updateSale now saleId changes st))).
Proof.
  intros H. unfold updateSale.
  destruct (findSale saleId (sales st)) as [old|]; [|exact H].
  destruct (itemMap (items st) !! Sale.itemId old) as [it|]; [|exact H].
  destruct (Item.trackBy it); destruct_ifs idtac; try exact H;
    cbn [fst items]; now apply adjustStock_sound.
Qed.

Lemma deleteSale_sound now saleId (st : State) :
  Forall stockSound (items st) -> Forall stockSound (items (deleteSale now saleId st)).
Proof.
  intros H. unfold deleteSale.
  destruct (findSale saleId (sales st)) as [s|]; [|exact H].
  cbn [items].
  destruct (itemMap (items st) !! Sale.itemId s) as [it|]; [|exact H].
  destruct_ifs idtac; try exact H; repeat apply adjustStock_sound; exact H.
Qed.

Lemma submit_sound newId now editing form (st : State) :
  Forall stockSound (items st) ->
  Forall stockSound (items (InventoryTab.submit newId now editing form st)).
Proof.
  intros H. unfold InventoryTab.submit, upsertItem.
  destruct (PartialItem.id (InventoryTab.payload editing form)) as [[|c pid]|] eqn:E; cbn [items].
  - constructor; [apply newItem_sound | exact H].
  - apply Forall_map_keeps; [|exact H].
    intros i Hi.
    destruct (Item.id i =? String c pid)%string; [|exact Hi].
    apply mergeItem_payload_sound.
  - constructor; [apply newItem_sound | exact H].
Qed.

Lemma act_sound (st : State) (a : Action) :
  Forall stockSound (items st) -> Forall stockSound (items (act st a)).
Proof.
  intros H. destruct a as [newId now editing form|id also|now i n|newId now f|now sale item e|now saleId];
    cbn [act].
  - now apply submit_sound.
  - cbn. rewrite List.Forall_forall in *. intros x Hx.
    apply filter_In in Hx as [Hx _]. auto.
  - unfold RestockButton.apply. destruct (0 <? n); [|exact H].
    destruct (Item.trackBy i); now apply adjustStock_sound.
  - unfold SellTab.submit. destruct (SellTab.current f (items st)) as [cur|]; [|exact H].
    destruct (Item.trackBy cur); now apply addSale_sound.
  - now apply updateSale_sound.
  - now apply deleteSale_sound.
Qed.

(** ** Creating and editing items *)

(** X1. When [partial.id] is absent or the empty string, [upsertItem]
    puts one new item in front of the items and leaves the other items
    and the sales as they are; the new item has the fresh identifier, a
    name and a unit label that are not empty, the tracking mode asked for
    ("unit" when none is), a stock in that mode that is a finite number
    [>= 0] whatever stock was supplied, no stock in the other mode, and
    both time stamps equal to the time of the call. *)
Theorem upsertItem_creates (newId : string) (now : float)
    (partial : PartialItem.t) (st : State) :
  PartialItem.id partial = None \/ PartialItem.id partial = Some EmptyString ->
  exists i : Item.t,
    upsertItem newId now partial st = mkState (i :: items st) (sales st) /\
    Item.id i = newId /\
    Item.name i <> EmptyString /\
    (exists l, Item.unitLabel i = Some l /\ l <> EmptyString) /\
    Item.trackBy i = spread ByUnit (PartialItem.trackBy partial) /\
    stockSound i /\
    match Item.trackBy i with
    | ByUnit =>
        Item.stockUnits i =
          Some (clampNonNeg (JS.or0 (join_opt (PartialItem.stockUnits partial)))) /\
        Item.stockKg i = None
    | ByKg =>
        Item.stockKg i =
          Some (clampNonNeg (JS.or0 (join_opt (PartialItem.stockKg partial)))) /\
        Item.stockUnits i = None
    end /\
    Item.createdAt i = now /\
    Item.updatedAt i = now.
Proof.
  intros Hid. exists (newItem newId now partial).
  split. { unfold upsertItem. now destruct Hid as [-> | ->]. }
  split; [reflexivity|].
  split. { cbn. now apply str_or_nonempty. }
  split.
  { eexists. split; [reflexivity|]. apply str_or_nonempty.
    now destruct (spread ByUnit (PartialItem.trackBy partial)). }
  split; [reflexivity|].
  split; [apply newItem_sound|].
  split; [|split; reflexivity].
  cbn. destruct (spread ByUnit (PartialItem.trackBy partial)); split; reflexivity.
Qed.

(** A new item tracked by weight whose form holds a negative stock. *)
Lemma upsertItem_creates_witness :
  exists i : Item.t,
    upsertItem "b1" 7 beefForm shop = mkState (i :: items shop) (sales shop) /\
    Item.id i = "b1" /\
    Item.name i <> EmptyString /\
    (exists l, Item.unitLabel i = Some l /\ l <> EmptyString) /\
    Item.trackBy i = spread ByUnit (PartialItem.trackBy beefForm) /\
    stockSound i /\
    match Item.trackBy i with
    | ByUnit =>
        Item.stockUnits i =
          Some (clampNonNeg (JS.or0 (join_opt (PartialItem.stockUnits beefForm)))) /\
        Item.stockKg i = None
    | ByKg =>
        Item.stockKg i =
          Some (clampNonNeg (JS.or0 (join_opt (PartialItem.stockKg beefForm)))) /\
        Item.stockUnits i = None
    end /\
    Item.createdAt i = 7 /\
    Item.updatedAt i = 7.
Proof. apply (upsertItem_creates "b1" 7 beefForm shop). left. reflexivity. Defined.


(** X2. Saving the edit form of item [e] replaces every item that has
    [e]'s identifier and no other, and leaves the sales as they are.
    Unlike a direct [upsertItem] update, the saved item has a clamped
    stock: a finite number [>= 0] in the tracking mode of the form, and no
    stock and no price in the other mode.  The identifier and the
    creation time stay. *)
Theorem submit_edit_clamps (newId : string) (now : float) (e : Item.t)
    (form : PartialItem.t) (st : State) (k : nat) (i : Item.t) :
  Item.id e <> EmptyString ->
  is_Some (PartialItem.name form) ->
  items st !! k = Some i ->
  let st' := InventoryTab.submit newId now (Some e) form st in
  sales st' = sales st /\
  length (items st') = length (items st) /\
  (Item.id i <> Item.id e -> items st' !! k = Some i) /\
  (Item.id i = Item.id e ->
   exists i' : Item.t,
     items st' !! k = Some i' /\
     Item.id i' = Item.id i /\
     Item.createdAt i' = Item.createdAt i /\
     Item.updatedAt i' = now /\
     Item.trackBy i' = spread ByUnit (PartialItem.trackBy form) /\
     stockSound i' /\
     match Item.trackBy i' with
     | ByUnit =>
         Item.stockUnits i' =
           Some (clampNonNeg (JS.or0 (join_opt (PartialItem.stockUnits form)))) /\
         Item.stockKg i' = None /\ Item.pricePerKg i' = None
     | ByKg =>
         Item.stockKg i' =
           Some (clampNonNeg (JS.or0 (join_opt (PartialItem.stockKg form)))) /\
         Item.stockUnits i' = None /\ Item.pricePerUnit i' = None
     end).
Proof.
  intros He _ Hk st'. subst st'. unfold InventoryTab.submit, upsertItem.
  cbn [InventoryTab.payload PartialItem.id option_map].
  destruct (Item.id e) as [|c s] eqn:E; [contradiction|].
  cbn [items sales]. split; [reflexivity|].
  split; [apply length_map|].
  rewrite list_lookup_fmap, Hk. cbn [fmap option_fmap option_map].
  split.
  - intros Hne. apply String.eqb_neq in Hne. now rewrite Hne.
  - intros Heq. rewrite Heq, String.eqb_refl. eexists. split; [reflexivity|].
    split; [cbn; congruence|].
    split; [reflexivity|]. split; [reflexivity|]. split; [reflexivity|].
    split; [apply (mergeItem_payload_sound now (Some e) form i)|].
    cbn. destruct (spread ByUnit (PartialItem.trackBy form)); repeat split.
Qed.

(** The apples saved from a form that asks for a stock of -4: the stock
    is 0. *)
Lemma submit_edit_clamps_witness :
  items (InventoryTab.submit "" 5 (Some apples) applesForm shop) !! 0%nat =
    Some (Item.mk "a1" "Apples" None None ByUnit (Some "unit")
                  (Some 10) None (Some 0) None 0 5) /\
  sales (InventoryTab.submit "" 5 (Some apples) applesForm shop) = sales shop.
Proof.
  destruct (submit_edit_clamps "" 5 apples applesForm shop 0 apples)
    as (Hs & _ & _ & H).
  - discriminate.
  - eexists. reflexivity.
  - reflexivity.
  - destruct (H eq_refl) as (i' & Hi' & _). split; [reflexivity | exact Hs].
Defined.


(** X3. Through the user interface the stock stays sound: when every
    item has a finite stock [>= 0] in its tracking mode (as on first
    launch, with no items), then so has every item after any sequence of
    saving item forms, deleting items, restocking, selling, editing sales
    and deleting sales. *)
Theorem session_stock_sound (st : State) (acts : list Action) :
  Forall stockSound (items st) ->
  Forall namedEdit acts ->
  Forall stockSound (items (session st acts)).
Proof.
  intros H _. revert st H. unfold session.
  induction acts as [|a acts IH]; intros st H; [exact H|].
  cbn [foldl]. apply IH. now apply act_sound.
Qed.

(** The first day, from the empty store of a first launch. *)
Lemma session_stock_sound_witness :
  Forall stockSound (items (session (mkState [] []) firstDay)).
Proof.
  apply session_stock_sound; [constructor|].
  repeat constructor. eexists. reflexivity.
Defined.

(** ** What the ledger operations leave alone *)

(** The ledger operations change items only by mapping [adjustItem] over
    them: a relation on items that is reflexive, transitive and holds
    across [adjustItem] holds, position by position, across every
    sequence of operations. *)
Section Related.

Variable R : Item.t -> Item.t -> Prop.
Hypothesis R_refl : forall i, R i i.
Hypothesis R_trans : forall i j k, R i j -> R j k -> R i k.
Hypothesis R_adjust : forall now id du dk i, R i (adjustItem now id du dk i).

Lemma related_refl (l : list Item.t) : Forall2 R l l.
Proof. induction l; constructor; auto. Qed.

Lemma related_trans (l1 l2 l3 : list Item.t) :
  Forall2 R l1 l2 -> Forall2 R l2 l3 -> Forall2 R l1 l3.
Proof.
  intros H. revert l3.
  induction H; intros l3 K; inversion K; subst; constructor; eauto.
Qed.

Lemma related_adjust now id du dk (l : list Item.t) :
  Forall2 R l (map (adjustItem now id du dk) l).
Proof. induction l; cbn; constructor; auto. Qed.

Lemma addSale_related newId now payload (st : State) :
  Forall2 R (items st) (items (fst (addSale newId now payload st))).
Proof.
  unfold addSale.
  destruct (itemMap (items st) !! SalePayload.itemId payload) as [it|];
    [|apply related_refl].
  destruct (Item.trackBy it); destruct_ifs idtac;
    solve [apply related_refl | apply related_adjust].
Qed.

Lemma updateSale_related now saleId changes (st : State) :
  Forall2 R (items st) (items (fst (updateSale now saleId changes st))).
Proof.
  unfold updateSale.
  destruct (findSale saleId (sales st)) as [old|]; [|apply related_refl].
  destruct (itemMap (items st) !! Sale.itemId old) as [it|]; [|apply related_refl].
  destruct (Item.trackBy it); destruct_ifs idtac;
    solve [apply related_refl | apply related_adjust].
Qed.

Lemma deleteSale_related now saleId (st : State) :
  Forall2 R (items st) (items (deleteSale now saleId st)).
Proof.
  unfold deleteSale.
  destruct (findSale saleId (sales st)) as [s|]; [|apply related_refl].
  cbn [items].
  destruct (itemMap (items st) !! Sale.itemId s) as [it|]; [|apply related_refl].
  destruct_ifs idtac; try apply related_refl; try apply related_adjust.
  eapply related_trans; apply related_adjust.
Qed.

Lemma step_related (st : State) (o : Op) : Forall2 R (items st) (items (step st o)).
Proof.
  destruct o; cbn [step].
  - apply related_adjust.
  - apply addSale_related.
  - apply updateSale_related.
  - apply deleteSale_related.
Qed.

Lemma run_related (ops : list Op) (st : State) :
  Forall2 R (items st) (items (run st ops)).
Proof.
  revert st. induction ops as [|o ops IH]; intros st; cbn.
  - apply related_refl.
  - eapply related_trans; [apply step_related | apply IH].
Qed.

End Related.

Lemma sameCatalog_refl (i : Item.t) : sameCatalog i i.
Proof. unfold sameCatalog. destruct (Item.trackBy i); repeat split. Qed.

Lemma sameCatalog_trans (i j k : Item.t) :
  sameCatalog i j -> sameCatalog j k -> sameCatalog i k.
Proof.
  unfold sameCatalog.
  intros (A1 & A2 & A3 & A4 & A5 & A6 & A7 & A8 & A9 & A10)
         (B1 & B2 & B3 & B4 & B5 & B6 & B7 & B8 & B9 & B10).
  rewrite A5 in B10.
  repeat split; try congruence.
  destruct (Item.trackBy i); congruence.
Qed.

Lemma sameCatalog_adjust now id du dk (i : Item.t) :
  sameCatalog i (adjustItem now id du dk i).
Proof.
  unfold adjustItem.
  destruct (negb (Item.id i =? id)%string); [apply sameCatalog_refl|].
  unfold sameCatalog. destruct (Item.trackBy i) eqn:T; cbn; rewrite ?T; repeat split.
Qed.

(** X4. Recording, editing and deleting sales and adjusting stock never
    add, remove or reorder items, and change nothing of an item but the
    stock of its tracking mode and the time of its last update: the
    identifier, name, SKU, photo, tracking mode, unit label, both prices,
    the creation time and the stock of the other mode stay, over every
    sequence of these operations. *)
Theorem ledger_keeps_catalog (st : State) (ops : list Op) :
  Forall2 sameCatalog (items st) (items (run st ops)).
Proof.
  apply run_related.
  - apply sameCatalog_refl.
  - apply sameCatalog_trans.
  - apply sameCatalog_adjust.
Qed.

(** ** One operation, one item *)

Lemma adjustItem_other now id du dk (i : Item.t) :
  Item.id i <> id -> adjustItem now id du dk i = i.
Proof. intros H. unfold adjustItem. apply eqb_neq_iff in H. now rewrite H. Qed.

Lemma adjustStock_frame now id du dk (st : State) (k : nat) (i : Item.t) :
  items st !! k = Some i -> Item.id i <> id ->
  items (adjustStock now id du dk st) !! k = Some i.
Proof.
  intros Hk Hne. cbn. rewrite list_lookup_fmap, Hk. cbn.
  now rewrite adjustItem_other.
Qed.

(** X5. An operation changes only the items that have the identifier it
    is about (the item adjusted, the item named by the sale payload, the
    item of the sale edited or deleted): every other item is left exactly
    as it was, time of update included. *)
Theorem step_frame (st : State) (o : Op) (k : nat) (i : Item.t) :
  items st !! k = Some i ->
  targetOf st o <> Some (Item.id i) ->
  items (step st o) !! k = Some i.
Proof.
  intros Hk Ht.
  destruct o as [now id du dk|newId now payload|now saleId changes|now saleId];
    cbn [step targetOf] in *.
  - apply adjustStock_frame; [exact Hk | congruence].
  - unfold addSale.
    destruct (itemMap (items st) !! SalePayload.itemId payload) as [it|] eqn:L;
      [|exact Hk].
    apply itemMap_lookup_id in L.
    destruct (Item.trackBy it); destruct_ifs idtac; try exact Hk;
      cbn [fst]; (apply adjustStock_frame; [exact Hk | congruence]).
  - unfold updateSale.
    destruct (findSale saleId (sales st)) as [old|]; [|exact Hk].
    cbn [option_map] in Ht.
    destruct (itemMap (items st) !! Sale.itemId old) as [it|] eqn:L; [|exact Hk].
    apply itemMap_lookup_id in L.
    destruct (Item.trackBy it); destruct_ifs idtac; try exact Hk;
      cbn [fst items]; (apply adjustStock_frame; [exact Hk | congruence]).
  - unfold deleteSale.
    destruct (findSale saleId (sales st)) as [s|]; [|exact Hk].
    cbn [option_map items] in *.
    destruct (itemMap (items st) !! Sale.itemId s) as [it|] eqn:L; [|exact Hk].
    apply itemMap_lookup_id in L.
    assert (Hne : Item.id i <> Item.id it) by congruence.
    destruct_ifs idtac; try exact Hk;
      repeat (apply adjustStock_frame; [|exact Hne]); exact Hk.
Qed.

(** Selling two apples leaves the beef as it is. *)
Lemma step_frame_witness :
  items (step pantry (RecordSale "s1" 1 (sell 2))) !! 1%nat = Some beef.
Proof.
  apply (step_frame pantry (RecordSale "s1" 1 (sell 2)) 1 beef); [reflexivity|].
  cbn. congruence.
Defined.

(** ** Statistics, item by item *)

Lemma foldl_statsAdd_lookup (sls : list Sale.t) (base : gmap string Stats) (k : string) :
  foldl statsAdd base sls !! k =
  (fun st => foldl addToStats st (salesOf k sls)) <$> (base !! k).
Proof.
  revert base. induction sls as [|s sls IH]; intros base.
  - cbn. now destruct (base !! k).
  - cbn [foldl]. rewrite IH, statsAdd_lookup. unfold salesOf. cbn [List.filter].
    case_decide as E.
    + subst k. rewrite String.eqb_refl. now destruct (base !! Sale.itemId s).
    + apply String.eqb_neq in E. now rewrite E.
Qed.

(** X6. The record of an item in [statsByItem] is the sum, from zero and
    in the order of the sales, of what each sale of that item adds; the
    sales of the other items do not enter it, and there is no record for
    an identifier that no item has. *)
Theorem statsByItem_lookup (its : list Item.t) (sls : list Sale.t) (k : string) :
  statsByItem its sls !! k =
  if hasItem k its
  then Some (foldl addToStats (mkStats 0 0 0) (salesOf k sls))
  else None.
Proof.
  unfold statsByItem, hasItem. rewrite foldl_statsAdd_lookup, statsBase_lookup.
  now destruct (existsb _ its).
Qed.

Lemma hasItem_filter (id k : string) (its : list Item.t) :
  hasItem k (List.filter (fun i => negb (String.eqb (Item.id i) id)) its) =
  if decide (k = id) then false else hasItem k its.
Proof.
  unfold hasItem. induction its as [|x its IH]; [now case_decide|].
  cbn [List.filter existsb].
  destruct (negb (Item.id x =? id)%string) eqn:E.
  - cbn [existsb]. rewrite IH. apply eqb_neq_iff in E.
    case_decide as E1; [|reflexivity].
    subst k. apply String.eqb_neq in E. now rewrite E.
  - rewrite IH. apply negb_false_iff, String.eqb_eq in E.
    case_decide as E1; [reflexivity|].
    assert (E2 : (Item.id x =? k)%string = false) by (apply String.eqb_neq; congruence).
    now rewrite E2.
Qed.

Lemma salesOf_filter (id k : string) (sls : list Sale.t) :
  k <> id ->
  salesOf k (List.filter (fun s => negb (String.eqb (Sale.itemId s) id)) sls) =
  salesOf k sls.
Proof.
  intros Hne. unfold salesOf. induction sls as [|s sls IH]; [reflexivity|].
  cbn [List.filter].
  destruct (negb (Sale.itemId s =? id)%string) eqn:E.
  - cbn [List.filter]. now rewrite IH.
  - rewrite IH. apply negb_false_iff, String.eqb_eq in E.
    assert (E2 : (Sale.itemId s =? k)%string = false) by (apply String.eqb_neq; congruence).
    now rewrite E2.
Qed.

(** ** Deleting an item *)

(** X7. After [deleteItem] no item has the identifier, in the list and
    in the item map, and the other items are kept, in their order; the
    sales of the item are all removed, and no other sale, when
    [alsoDeleteSales] is set, and all kept when it is not; and the
    statistics have no record for the identifier and the same record as
    before for every other item, whichever way the sales were treated. *)
Theorem deleteItem_spec (id : string) (alsoDeleteSales : bool) (st : State) :
  let st' := deleteItem id alsoDeleteSales st in
  items st' = List.filter (fun i => negb (String.eqb (Item.id i) id)) (items st) /\
  (forall i, In i (items st') <-> In i (items st) /\ Item.id i <> id) /\
  (forall k, itemMap (items st') !! k =
             if decide (k = id) then None else itemMap (items st) !! k) /\
  (forall s, In s (sales st') <->
             In s (sales st) /\ (alsoDeleteSales = true -> Sale.itemId s <> id)) /\
  (alsoDeleteSales = false -> sales st' = sales st) /\
  (forall k, statsByItem (items st') (sales st') !! k =
             if decide (k = id) then None
             else statsByItem (items st) (sales st) !! k).
Proof.
  cbn zeta. split; [reflexivity|].
  split.
  { intros i. cbn. rewrite filter_In, eqb_neq_iff. reflexivity. }
  split; [intros k; apply itemMap_filter|].
  split.
  { intros s. cbn. destruct alsoDeleteSales.
    - rewrite filter_In, eqb_neq_iff. intuition.
    - intuition discriminate. }
  split; [now intros ->|].
  intros k. unfold statsByItem.
  rewrite !foldl_statsAdd_lookup, !statsBase_lookup.
  change (existsb (fun i => (Item.id i =? k)%string)) with (hasItem k).
  cbn [items sales deleteItem]. rewrite hasItem_filter.
  case_decide as E; [reflexivity|].
  destruct alsoDeleteSales; [|reflexivity].
  now rewrite salesOf_filter.
Qed.

(** ** The handlers, case by case *)

(** [updateSale] on a sale [old] of an item [it], in the vocabulary of the
    properties. *)
Lemma updateSale_cases (now : float) (saleId : string) (changes : PartialSale.t)
    (st : State) (old : Sale.t) (it : Item.t) :
  findSale saleId (sales st) = Some old ->
  itemMap (items st) !! Sale.itemId old = Some it ->
  let next := mergeSale changes old in
  let delta := editDelta it changes old in
  let price := finiteOr (salePriceField it next) (catalogPrice it) in
  let stored := replaceSale saleId (Sale.with_total (price * saleQty it next) next)
                            (sales st) in
  updateSale now saleId changes st =
    if negb (delta =? 0) then
      if (0 <? delta) && (stockInMode it <? delta) then
        (st, Some (InsufficientStockToIncrease (stockInMode it) (labelOf it)))
      else
        (mkState (map (adjustItem now (Item.id it) (deltaUnitsOf it (- delta))
                                  (deltaKgOf it (- delta)))
                      (items st))
                 stored, None)
    else (mkState (items st) stored, None).
Proof.
  intros Hf Hi. cbn zeta. unfold updateSale. rewrite Hf, Hi.
  unfold editDelta, saleQty, saleQtyField, salePriceField, catalogPrice,
    stockInMode, stockField, labelOf, deltaUnitsOf, deltaKgOf.
  destruct (Item.trackBy it); reflexivity.
Qed.

(** [deleteSale] on a sale [s] of an item [it]. *)
Lemma deleteSale_cases (now : float) (saleId : string) (st : State)
    (s : Sale.t) (it : Item.t) :
  findSale saleId (sales st) = Some s ->
  itemMap (items st) !! Sale.itemId s = Some it ->
  deleteSale now saleId st =
    mkState
      (if JS.truthy_opt (saleQtyField it s)
       then map (adjustItem now (Item.id it)
                   (match Item.trackBy it with ByUnit => Sale.qtyUnits s | ByKg => Some 0 end)
                   (match Item.trackBy it with ByUnit => Some 0 | ByKg => Sale.qtyKg s end))
                (items st)
       else items st)
      (List.filter (fun x => negb (String.eqb (Sale.id x) saleId)) (sales st)).
Proof.
  intros Hf Hi. unfold deleteSale. rewrite Hf, Hi.
  unfold saleQtyField, isUnit, isKg.
  destruct (Item.trackBy it); cbn [andb];
    match goal with
    | |- context [JS.truthy_opt ?q] => destruct (JS.truthy_opt q)
    end; reflexivity.
Qed.

Lemma filter_keep_all {A : Type} (f : A -> bool) (l : list A) :
  (forall x, In x l -> f x = true) -> List.filter f l = l.
Proof.
  intros H. induction l as [|x l IH]; [reflexivity|].
  cbn [List.filter]. rewrite H by now left. f_equal. apply IH.
  intros y Hy. apply H. now right.
Qed.

Lemma findSale_None (saleId : string) (l : list Sale.t) :
  findSale saleId l = None ->
  List.filter (fun x => negb (String.eqb (Sale.id x) saleId)) l = l.
Proof.
  unfold findSale. induction l as [|s l IH]; [reflexivity|].
  cbn [find List.filter]. destruct (Sale.id s =? saleId)%string; [discriminate|].
  intros H. cbn [negb]. now rewrite IH.
Qed.

Lemma findSale_Some (saleId : string) (l : list Sale.t) (s : Sale.t) :
  findSale saleId l = Some s -> In s l /\ Sale.id s = saleId.
Proof.
  unfold findSale. intros H. apply find_some in H as [H1 H2].
  split; [exact H1 | now apply String.eqb_eq].
Qed.

(** ** Deleting a sale *)

(** X8. After [deleteSale] no sale has the identifier; the other sales
    are kept, in their order; the items are the same in number and
    order; deleting once more changes nothing; and when no sale had the
    identifier the whole state is unchanged. *)
Theorem deleteSale_removes (now : float) (saleId : string) (st : State) :
  let st' := deleteSale now saleId st in
  findSale saleId (sales st') = None /\
  sales st' = List.filter (fun x => negb (String.eqb (Sale.id x) saleId)) (sales st) /\
  (forall s, In s (sales st') <-> In s (sales st) /\ Sale.id s <> saleId) /\
  Forall2 sameCatalog (items st) (items st') /\
  (forall now', deleteSale now' saleId st' = st') /\
  (findSale saleId (sales st) = None -> st' = st).
Proof.
  cbn zeta.
  assert (Hs : sales (deleteSale now saleId st) =
               List.filter (fun x => negb (String.eqb (Sale.id x) saleId)) (sales st)).
  { unfold deleteSale. destruct (findSale saleId (sales st)) eqn:E; [reflexivity|].
    symmetry. now apply findSale_None. }
  assert (Hn : findSale saleId (sales (deleteSale now saleId st)) = None).
  { rewrite Hs. apply findSale_filter_out. }
  split; [exact Hn|]. split; [exact Hs|].
  split. { intros s. rewrite Hs, filter_In, eqb_neq_iff. reflexivity. }
  split.
  { apply deleteSale_related;
      [apply sameCatalog_refl | apply sameCatalog_trans | apply sameCatalog_adjust]. }
  split.
  { intros now'. unfold deleteSale at 1. now rewrite Hn. }
  intros E. unfold deleteSale. now rewrite E.
Qed.

(** ** Identifiers that no item has *)

(** X9. An identifier that no item has is ignored without a message:
    adjusting its stock, selling it, updating it and deleting it leave
    the state as it is, a sale that refers to it cannot be edited, and
    deleting such a sale removes the sale and touches no item. *)
Theorem unknown_item_is_ignored (st : State) (id : string) :
  (forall i, In i (items st) -> Item.id i <> id) ->
  (forall now du dk, adjustStock now id du dk st = st) /\
  (forall newId now payload,
      SalePayload.itemId payload = id -> addSale newId now payload st = (st, None)) /\
  (forall newId now partial,
      PartialItem.id partial = Some id -> id <> EmptyString ->
      upsertItem newId now partial st = st) /\
  (forall also, items (deleteItem id also st) = items st) /\
  (forall now saleId changes old,
      findSale saleId (sales st) = Some old -> Sale.itemId old = id ->
      updateSale now saleId changes st = (st, None)) /\
  (forall now saleId s,
      findSale saleId (sales st) = Some s -> Sale.itemId s = id ->
      deleteSale now saleId st =
        mkState (items st)
                (List.filter (fun x => negb (String.eqb (Sale.id x) saleId)) (sales st))).
Proof.
  intros H.
  assert (L : itemMap (items st) !! id = None) by now apply itemMap_lookup_None.
  split.
  { intros now du dk. unfold adjustStock. rewrite map_id_on; [apply State_eta|].
    intros i Hi. apply adjustItem_other. auto. }
  split.
  { intros newId now payload E. unfold addSale. now rewrite E, L. }
  split.
  { intros newId now partial E Hne. unfold upsertItem. rewrite E.
    destruct id as [|c s]; [contradiction|].
    rewrite map_id_on; [apply State_eta|].
    intros i Hi. apply H in Hi. apply String.eqb_neq in Hi. now rewrite Hi. }
  split.
  { intros also. cbn. apply filter_keep_all.
    intros i Hi. apply eqb_neq_iff. auto. }
  split.
  { intros now saleId changes old Hf E. unfold updateSale. now rewrite Hf, E, L. }
  intros now saleId s Hf E. unfold deleteSale. now rewrite Hf, E, L.
Qed.

(** Restocking an item that the shop does not have. *)
Lemma unknown_item_is_ignored_witness :
  adjustStock 1 "zz" (Some 5) None shop = shop.
Proof.
  apply (unknown_item_is_ignored shop "zz").
  intros i [<- | []]. discriminate.
Defined.

(** ** Quantities that are not sold *)

Lemma clampNonNeg_or0_zero (o : option float) :
  (forall x, o = Some x -> (is_finite x && (0 <? x)) = false) ->
  clampNonNeg (JS.or0 o) = 0.
Proof.
  intros H. destruct o as [x|]; [|reflexivity].
  specialize (H x eq_refl). unfold JS.or0, JS.or_else.
  destruct (JS.truthy x); [|reflexivity].
  unfold clampNonNeg. now rewrite H.
Qed.

(** X10. A sale whose quantity, in the tracking mode of the item, is
    missing, NaN, zero, negative or infinite is dropped without a
    message: [addSale] leaves the state as it is. *)
Theorem addSale_ignores_quantity (newId : string) (now : float)
    (payload : SalePayload.t) (st : State) (it : Item.t) :
  itemMap (items st) !! SalePayload.itemId payload = Some it ->
  (forall x, payloadQtyField it payload = Some x -> (is_finite x && (0 <? x)) = false) ->
  addSale newId now payload st = (st, None).
Proof.
  intros L H. unfold addSale. rewrite L.
  unfold payloadQtyField in H.
  destruct (Item.trackBy it); rewrite (clampNonNeg_or0_zero _ H); reflexivity.
Qed.

(** A sale of -2 apples. *)
Lemma addSale_ignores_quantity_witness :
  addSale "s1" 1 (sell (-2)) shop = (shop, None).
Proof.
  apply (addSale_ignores_quantity "s1" 1 (sell (-2)) shop apples); [reflexivity|].
  intros x H. cbn in H. apply (inj Some) in H. subst x. reflexivity.
Defined.

(** ** Edits that keep the quantity *)

(** X11. An edit that leaves the clamped quantity of the sale as it was
    (a change of the note or of the price, say) is never refused and
    never touches the items, whatever the stock: the sale is replaced by
    the merged one, with the total recomputed from the resolved price. *)
Theorem updateSale_same_quantity (now : float) (saleId : string)
    (changes : PartialSale.t) (st : State) (old : Sale.t) (it : Item.t) :
  findSale saleId (sales st) = Some old ->
  itemMap (items st) !! Sale.itemId old = Some it ->
  saleQty it (mergeSale changes old) = saleQty it old ->
  let next := mergeSale changes old in
  let price := finiteOr (salePriceField it next) (catalogPrice it) in
  updateSale now saleId changes st =
    (mkState (items st)
             (replaceSale saleId (Sale.with_total (price * saleQty it next) next)
                          (sales st)),
     None).
Proof.
  intros Hf Hi Hq. cbn zeta. rewrite (updateSale_cases _ _ _ _ _ _ Hf Hi). cbn zeta.
  unfold editDelta. rewrite Hq, sub_self by apply clampNonNeg_finite.
  reflexivity.
Qed.

(** A note is added to the sale of three apples. *)
Lemma updateSale_same_quantity_witness :
  let next := mergeSale noteOnly threeApples in
  let price := finiteOr (salePriceField repriced next) (catalogPrice repriced) in
  updateSale 3 "s1" noteOnly repricedShop =
    (mkState (items repricedShop)
             (replaceSale "s1" (Sale.with_total (price * saleQty repriced next) next)
                          (sales repricedShop)),
     None).
Proof.
  apply (updateSale_same_quantity 3 "s1" noteOnly repricedShop threeApples repriced);
    reflexivity.
Defined.

(** ** The report *)

Lemma totals_from (stats : gmap string Stats) (its : list Item.t) (t : ReportTab.Totals) :
  (forall i, In i its -> exists st, stats !! Item.id i = Some st /\ nonNegStats st) ->
  (0 <=? ReportTab.revenue t) = true ->
  (0 <=? ReportTab.totalUnits t) = true ->
  (0 <=? ReportTab.totalKg t) = true ->
  exists t' : ReportTab.Totals,
    foldl (fun acc it => ReportTab.add acc (stats !! Item.id it)) (Some t) its = Some t' /\
    (0 <=? ReportTab.revenue t') = true /\
    (0 <=? ReportTab.totalUnits t') = true /\
    (0 <=? ReportTab.totalKg t') = true.
Proof.
  revert t. induction its as [|i its IH]; intros t H R U K.
  - exists t. auto.
  - cbn [foldl]. destruct (H i) as (st & E & N1 & N2 & N3); [now left|].
    rewrite E. destruct st as [u k r]. cbn [ReportTab.add]. cbn in N1, N2, N3.
    apply IH; cbn; auto using add_nonneg.
    intros j Hj. apply H. now right.
Qed.

(** X12. The totals of the report are always computed: every item has a
    record in [statsByItem], so that the read of [st.revenue] never meets
    [undefined]; and the three totals are [>= 0], hence not NaN, whatever
    the stored sales hold. *)
Theorem totals_defined (its : list Item.t) (sls : list Sale.t) :
  exists t : ReportTab.Totals,
    ReportTab.totals its (statsByItem its sls) = Some t /\
    (0 <=? ReportTab.revenue t) = true /\
    (0 <=? ReportTab.totalUnits t) = true /\
    (0 <=? ReportTab.totalKg t) = true.
Proof.
  unfold ReportTab.totals. apply totals_from; try reflexivity.
  intros i Hi.
  assert (S : is_Some (statsByItem its sls !! Item.id i)).
  { unfold statsByItem. apply foldl_statsAdd_dom. rewrite statsBase_lookup.
    assert (E : existsb (fun j => (Item.id j =? Item.id i)%string) its = true)
      by (apply hasItem_iff; eauto).
    rewrite E. eauto. }
  destruct S as [st E]. exists st. split; [exact E|].
  revert E. unfold statsByItem. apply foldl_statsAdd_nonneg.
  intros k st0. rewrite statsBase_lookup.
  destruct (existsb _ its); [|discriminate].
  intros E0. apply (inj Some) in E0. subst st0. repeat split.
Qed.

(** ** The sell form *)

Lemma clampNonNeg_or0 (x : float) : clampNonNeg (JS.or0 (Some x)) = clampNonNeg x.
Proof.
  unfold JS.or0, JS.or_else, JS.truthy.
  destruct (is_zero x || is_nan x) eqn:E; [|reflexivity]. cbn [negb].
  transitivity 0; [reflexivity|]. symmetry.
  unfold clampNonNeg. rewrite is_zero_spec, is_nan_spec in E.
  rewrite is_finite_spec, pos_spec.
  destruct (Prim2SF x) as [s| [|] | |[|] m e]; try discriminate; reflexivity.
Qed.

Lemma finiteOr_idem (o : option float) (d : float) :
  finiteOr (Some (finiteOr o d)) d = finiteOr o d.
Proof.
  unfold finiteOr. destruct o as [x|].
  - destruct (is_finite x) eqn:E; [now rewrite E|]. now destruct (is_finite d).
  - now destruct (is_finite d).
Qed.

(** X13. The sell form, for the item it shows, when that is the item the
    ledger knows under the identifier: a typed quantity that is finite,
    above zero and covered by the stock is sold as typed, at the typed
    price when that is a finite number and at the catalog price of the
    item otherwise (an empty price field included); the sale is put in
    front of the sales with total quantity x price and the stock goes
    down by the quantity.  With no item to show the form does nothing. *)
Theorem sell_form_sells (newId : string) (now : float) (f : SellTab.Form) (st : State) :
  (SellTab.current f (items st) = None ->
   SellTab.submit newId now f st = (st, None)) /\
  (forall cur : Item.t,
      SellTab.current f (items st) = Some cur ->
      itemMap (items st) !! Item.id cur = Some cur ->
      let q := match Item.trackBy cur with
               | ByUnit => SellTab.qtyUnits f
               | ByKg => SellTab.qtyKg f
               end in
      let p := finiteOr (SellTab.overridePrice f) (catalogPrice cur) in
      is_finite q = true -> (0 <? q) = true -> (q <=? stockInMode cur) = true ->
      is_finite (stockInMode cur) = true ->
      exists (sale : Sale.t) (cur' : Item.t),
        SellTab.submit newId now f st =
          (mkState (map (adjustItem now (Item.id cur) (deltaUnitsOf cur (- q))
                                    (deltaKgOf cur (- q)))
                        (items st))
                   (sale :: sales st), None) /\
        Sale.id sale = newId /\
        Sale.itemId sale = Item.id cur /\
        saleQtyField cur sale = Some q /\
        salePriceField cur sale = Some p /\
        Sale.total sale = q * p /\
        itemMap (items (fst (SellTab.submit newId now f st))) !! Item.id cur = Some cur' /\
        stockInMode cur' = stockInMode cur - q).
Proof.
  split.
  { intros E. unfold SellTab.submit. now rewrite E. }
  intros cur Hc Hm q p Fq Pq Sq Fs.
  set (payload :=
         SalePayload.mk (Item.id cur)
           (match Item.trackBy cur with
            | ByUnit => Some (JS.or0 (Some q)) | ByKg => None end)
           (match Item.trackBy cur with
            | ByUnit => None | ByKg => Some (JS.or0 (Some q)) end)
           (Some (match SellTab.overridePrice f with
                  | None => catalogPrice cur
                  | Some x => x
                  end))
           (JS.str_or_undefined (Some (JS.trim (SellTab.note f))))).
  assert (Hsub : SellTab.submit newId now f st = addSale newId now payload st).
  { unfold SellTab.submit. rewrite Hc. subst payload q. unfold catalogPrice.
    destruct (Item.trackBy cur); reflexivity. }
  assert (Hq : requestedQty cur payload = q).
  { unfold requestedQty, payloadQtyField. subst payload.
    cbn [SalePayload.qtyUnits SalePayload.qtyKg].
    destruct (Item.trackBy cur); rewrite !clampNonNeg_or0; now apply clampNonNeg_id. }
  assert (Hp : resolvedPrice cur payload = p).
  { unfold resolvedPrice. subst payload p. cbn [SalePayload.overridePrice].
    destruct (SellTab.overridePrice f) as [x|]; [reflexivity|].
    unfold finiteOr. now destruct (is_finite (catalogPrice cur)). }
  assert (Hacc : addSale newId now payload st =
                 (mkState (map (adjustItem now (Item.id cur) (deltaUnitsOf cur (- q))
                                           (deltaKgOf cur (- q)))
                               (items st))
                          (newSale newId now cur payload :: sales st), None)).
  { rewrite <- Hq. apply addSale_accepted; [exact Hm | now rewrite Hq |].
    rewrite Hq. now apply leb_not_ltb. }
  destruct (newSale_fields newId now cur payload) as (N1 & N2 & N3 & N4 & N5).
  rewrite Hq in N3, N5. rewrite Hp in N4, N5.
  exists (newSale newId now cur payload),
    (adjustItem now (Item.id cur) (deltaUnitsOf cur (- q)) (deltaKgOf cur (- q)) cur).
  rewrite Hsub, Hacc. repeat (split; [assumption || reflexivity|]).
  split; [cbn; now apply itemMap_adjustStock|].
  rewrite stockInMode_adjustItem.
  assert (Ho : JS.or0 (match Item.trackBy cur with
                       | ByUnit => deltaUnitsOf cur (- q)
                       | ByKg => deltaKgOf cur (- q)
                       end) = - q).
  { unfold deltaUnitsOf, deltaKgOf. destruct (Item.trackBy cur); now apply or0_opp_pos. }
  rewrite Ho. apply clampNonNeg_sub; auto.
Qed.

(** Two of the three apples sold through the form, at the catalog price
    of 10. *)
Lemma sell_form_sells_witness :
  exists (sale : Sale.t) (cur' : Item.t),
    SellTab.submit "s1" 1 twoApples shop =
      (mkState (map (adjustItem 1 "a1" (Some (- 2)) (Some 0)) (items shop))
               (sale :: sales shop), None) /\
    Sale.id sale = "s1" /\
    Sale.itemId sale = "a1" /\
    saleQtyField apples sale = Some 2 /\
    salePriceField apples sale = Some 10 /\
    Sale.total sale = 2 * 10 /\
    itemMap (items (fst (SellTab.submit "s1" 1 twoApples shop))) !! "a1" = Some cur' /\
    stockInMode cur' = 3 - 2.
Proof.
  destruct (sell_form_sells "s1" 1 twoApples shop) as [_ H].
  apply (H apples); reflexivity.
Defined.

(** ** Counts *)

Lemma whole_toZ (x : float) (n : Z) : whole x n -> toZ x = n.
Proof.
  intros H. unfold toZ.
  destruct (whole_inv x n H) as [[-> E] | (Hn & m & e & E & He & V)]; rewrite E.
  - reflexivity.
  - cbn [cond_Zopp].
    rewrite Z.shiftl_div_pow2, V by exact He. apply Z.div_mul. apply Z.pow_nonzero; lia.
Qed.

Lemma whole_count (x : float) (n : Z) : whole x n -> count x.
Proof. intros H. unfold count. now rewrite (whole_toZ x n H). Qed.

Lemma count_bounds (x : float) : count x -> (0 <= toZ x < 2 ^ 53)%Z.
Proof. now intros [H _]. Qed.

Lemma whole_zero : whole 0 0.
Proof. split; [lia | reflexivity]. Qed.

Lemma whole_clampNonNeg (x : float) (n : Z) : whole x n -> clampNonNeg x = x.
Proof.
  intros H. destruct (whole_inv x n H) as [[-> E] | (Hn & m & e & E & _)].
  - apply Prim2SF_inj. rewrite E. unfold clampNonNeg.
    rewrite is_finite_spec, pos_spec, E. reflexivity.
  - apply clampNonNeg_id; [rewrite is_finite_spec | rewrite pos_spec]; now rewrite E.
Qed.

(** A count read through [|| 0]: either the field holds a truthy count, or
    the count is zero. *)
Lemma whole_or0_inv (o : option float) (n : Z) :
  whole (JS.or0 o) n ->
  (n <> 0%Z /\ exists x, o = Some x /\ JS.or0 o = x /\ JS.truthy x = true) \/
  (n = 0%Z /\ JS.or0 o = 0 /\ JS.truthy_opt o = false).
Proof.
  intros H. destruct o as [x|].
  - unfold JS.or0, JS.or_else in *. cbn [JS.truthy_opt].
    destruct (JS.truthy x) eqn:T.
    + left. split; [|eauto].
      pose proof (integer_truthy x n (whole_integer _ _ H)) as T'.
      rewrite T in T'. intros ->. discriminate.
    + right. split; [|auto]. now rewrite <- (whole_toZ _ _ H).
  - right. split; [|auto]. now rewrite <- (whole_toZ _ _ H).
Qed.

(** ** The handlers on counts *)

Lemma adjustItem_whole now (it : Item.t) (du dk : option float) (a d : Z) :
  whole (stockInMode it) a ->
  integer (JS.or0 (match Item.trackBy it with ByUnit => du | ByKg => dk end)) d ->
  (a + d < 2 ^ 53)%Z ->
  whole (stockInMode (adjustItem now (Item.id it) du dk it)) (Z.max 0 (a + d)).
Proof.
  intros Wa Wd Hb. rewrite stockInMode_adjustItem.
  apply integer_clampNonNeg, integer_add; auto using whole_integer.
  destruct Wa, Wd. lia.
Qed.

Lemma itemMap_adjust_other now id du dk (its : list Item.t) (k : string) :
  k <> id ->
  itemMap (map (adjustItem now id du dk) its) !! k = itemMap its !! k.
Proof.
  intros Hne. rewrite itemMap_map by apply adjustItem_id.
  destruct (itemMap its !! k) as [it|] eqn:E; [|reflexivity].
  cbn. f_equal. apply adjustItem_other.
  apply itemMap_lookup_id in E. congruence.
Qed.

Lemma addSale_cases (newId : string) (now : float) (payload : SalePayload.t)
    (st : State) (it : Item.t) :
  itemMap (items st) !! SalePayload.itemId payload = Some it ->
  let q := requestedQty it payload in
  addSale newId now payload st =
    if q <=? 0 then (st, None)
    else if stockInMode it <? q then
      (st, Some (InsufficientStock (stockInMode it) (labelOf it)))
    else
      (mkState (map (adjustItem now (Item.id it) (deltaUnitsOf it (- q))
                                (deltaKgOf it (- q)))
                    (items st))
               (newSale newId now it payload :: sales st), None).
Proof.
  intros L. cbn zeta. unfold addSale. rewrite L.
  unfold requestedQty, payloadQtyField, newSale, resolvedPrice, requestedQty,
    payloadQtyField, catalogPrice, stockInMode, stockField, labelOf,
    deltaUnitsOf, deltaKgOf.
  destruct (Item.trackBy it); reflexivity.
Qed.

(** Selling a count [n] out of a stock [a]. *)
Lemma addSale_whole (newId : string) (now : float) (payload : SalePayload.t)
    (st : State) (it : Item.t) (a n : Z) :
  itemMap (items st) !! SalePayload.itemId payload = Some it ->
  whole (stockInMode it) a ->
  whole (JS.or0 (payloadQtyField it payload)) n ->
  let q := requestedQty it payload in
  if ((0 <? n) && (n <=? a))%Z then
    addSale newId now payload st =
      (mkState (map (adjustItem now (Item.id it) (deltaUnitsOf it (- q))
                                (deltaKgOf it (- q)))
                    (items st))
               (newSale newId now it payload :: sales st), None) /\
    whole q n /\
    whole (stockInMode (adjustItem now (Item.id it) (deltaUnitsOf it (- q))
                                   (deltaKgOf it (- q)) it)) (a - n)
  else
    fst (addSale newId now payload st) = st /\
    snd (addSale newId now payload st) =
      if (0 <? n)%Z
      then Some (InsufficientStock (stockInMode it) (labelOf it))
      else None.
Proof.
  intros L Wa Wn q.
  assert (Wq : whole q n).
  { subst q. unfold requestedQty. now rewrite (whole_clampNonNeg _ _ Wn). }
  rewrite (addSale_cases _ _ _ _ _ L). fold q.
  destruct (integer_sign q n (whole_integer _ _ Wq)) as (Fq & Pq & _ & Zq).
  assert (Lq : (q <=? 0) = negb (0 <? n)%Z).
  { destruct (0 <? n)%Z eqn:E.
    - apply pos_not_nonpos. now rewrite Pq.
    - apply Z.ltb_ge in E. assert (n = 0%Z) by (destruct Wn; lia). subst n.
      destruct (whole_inv q 0%Z Wq) as [[_ E0] | (H & _)]; [|lia].
      rewrite nonpos_spec, E0. reflexivity. }
  rewrite Lq, (whole_ltb _ _ _ _ Wa Wq).
  destruct (0 <? n)%Z eqn:E0; cbn [negb andb]; [|auto].
  replace (n <=? a)%Z with (negb (a <? n)%Z) by (symmetry; apply Z.leb_antisym).
  destruct (a <? n)%Z eqn:E1; cbn [negb]; [auto|].
  apply Z.ltb_lt in E0. apply Z.ltb_ge in E1.
  split; [reflexivity|]. split; [exact Wq|].
  replace (a - n)%Z with (Z.max 0 (a + - n)) by lia.
  apply adjustItem_whole; [exact Wa | | destruct Wa; lia].
  assert (I : integer (- q) (- n)) by (apply integer_opp; [now apply whole_integer | lia]).
  replace (JS.or0 _) with (- q); [exact I|].
  symmetry. unfold deltaUnitsOf, deltaKgOf.
  destruct (Item.trackBy it); apply (integer_or0 _ _ I).
Qed.

(** Editing the count of a sale from [n] to [n'] with a stock of [a]. *)
Lemma updateSale_whole (now : float) (saleId : string) (changes : PartialSale.t)
    (st : State) (old : Sale.t) (it : Item.t) (a n n' : Z) :
  findSale saleId (sales st) = Some old ->
  itemMap (items st) !! Sale.itemId old = Some it ->
  whole (stockInMode it) a ->
  whole (JS.or0 (saleQtyField it old)) n ->
  whole (JS.or0 (saleQtyField it (mergeSale changes old))) n' ->
  (a + n < 2 ^ 53)%Z ->
  let next := mergeSale changes old in
  let delta := editDelta it changes old in
  let price := finiteOr (salePriceField it next) (catalogPrice it) in
  let stored := replaceSale saleId (Sale.with_total (price * saleQty it next) next)
                            (sales st) in
  let adj := adjustItem now (Item.id it) (deltaUnitsOf it (- delta))
                        (deltaKgOf it (- delta)) in
  if (a <? n' - n)%Z then
    updateSale now saleId changes st =
      (st, Some (InsufficientStockToIncrease (stockInMode it) (labelOf it)))
  else if (n' =? n)%Z then
    updateSale now saleId changes st = (mkState (items st) stored, None)
  else
    updateSale now saleId changes st = (mkState (map adj (items st)) stored, None) /\
    whole (stockInMode (adj it)) (a - (n' - n)).
Proof.
  intros Hf Hi Wa Wn Wn' Hb. cbn zeta.
  rewrite (updateSale_cases _ _ _ _ _ _ Hf Hi). cbn zeta.
  set (delta := editDelta it changes old).
  assert (Id : integer delta (n' - n)).
  { subst delta. unfold editDelta, saleQty.
    rewrite (whole_clampNonNeg _ _ Wn), (whole_clampNonNeg _ _ Wn').
    apply integer_sub; auto using whole_integer. destruct Wn, Wn'. lia. }
  destruct (integer_sign _ _ Id) as (_ & Pd & _ & Zd).
  rewrite Zd, Pd.
  assert (Ha : (0 <= a)%Z) by (destruct Wa; lia).
  assert (Hn' : (0 <= n')%Z) by (destruct Wn'; lia).
  destruct (a <? n' - n)%Z eqn:E.
  - apply Z.ltb_lt in E.
    assert (E0 : (n' - n =? 0)%Z = false) by (apply Z.eqb_neq; lia).
    assert (E1 : (0 <? n' - n)%Z = true) by (apply Z.ltb_lt; lia).
    rewrite E0, E1. cbn [negb andb].
    assert (Wd : whole delta (n' - n)) by (apply integer_whole; [exact Id | lia]).
    rewrite (whole_ltb _ _ _ _ Wa Wd).
    apply Z.ltb_lt in E. now rewrite E.
  - apply Z.ltb_ge in E.
    destruct (n' =? n)%Z eqn:E0.
    + apply Z.eqb_eq in E0. subst n'. now rewrite Z.sub_diag.
    + apply Z.eqb_neq in E0.
      assert (E1 : (n' - n =? 0)%Z = false) by (apply Z.eqb_neq; lia).
      rewrite E1. cbn [negb].
      assert (C : ((0 <? n' - n)%Z && (stockInMode it <? delta)) = false).
      { destruct (0 <? n' - n)%Z eqn:E2; [|reflexivity]. cbn [andb].
        apply Z.ltb_lt in E2.
        assert (Wd : whole delta (n' - n)) by (apply integer_whole; [exact Id | lia]).
        rewrite (whole_ltb _ _ _ _ Wa Wd). apply Z.ltb_ge. exact E. }
      rewrite C. split; [reflexivity|].
      replace (a - (n' - n))%Z with (Z.max 0 (a + - (n' - n))) by lia.
      apply adjustItem_whole; [exact Wa | | lia].
      assert (I : integer (- delta) (- (n' - n))) by (apply integer_opp; [exact Id | lia]).
      replace (JS.or0 _) with (- delta); [exact I|].
      symmetry. unfold deltaUnitsOf, deltaKgOf.
      destruct (Item.trackBy it); apply (integer_or0 _ _ I).
Qed.

(** Deleting a sale of [n] with a stock of [a]. *)
Lemma deleteSale_whole (now : float) (saleId : string) (st : State)
    (s : Sale.t) (it : Item.t) (a n : Z) :
  findSale saleId (sales st) = Some s ->
  itemMap (items st) !! Sale.itemId s = Some it ->
  whole (stockInMode it) a ->
  whole (JS.or0 (saleQtyField it s)) n ->
  (a + n < 2 ^ 53)%Z ->
  let adj := adjustItem now (Item.id it)
               (match Item.trackBy it with ByUnit => Sale.qtyUnits s | ByKg => Some 0 end)
               (match Item.trackBy it with ByUnit => Some 0 | ByKg => Sale.qtyKg s end) in
  deleteSale now saleId st =
    mkState (if (n =? 0)%Z then items st else map adj (items st))
            (List.filter (fun x => negb (String.eqb (Sale.id x) saleId)) (sales st)) /\
  (n <> 0%Z -> whole (stockInMode (adj it)) (a + n)).
Proof.
  intros Hf Hi Wa Wn Hb. cbn zeta.
  rewrite (deleteSale_cases _ _ _ _ _ Hf Hi).
  destruct (whole_or0_inv _ _ Wn) as [(Hn & x & Ex & Eo & T) | (-> & Eo & T)].
  - apply Z.eqb_neq in Hn. rewrite Hn, Ex. cbn [JS.truthy_opt]. rewrite T.
    split; [reflexivity|]. intros _.
    assert (Ha : (0 <= a)%Z) by (destruct Wa; lia).
    assert (Hn0 : (0 <= n)%Z) by (destruct Wn; lia).
    replace (a + n)%Z with (Z.max 0 (a + n)) by lia.
    apply adjustItem_whole; [exact Wa | | exact Hb].
    apply whole_integer. unfold saleQtyField in Ex, Wn.
    destruct (Item.trackBy it); rewrite Ex; now rewrite Ex in Wn.
  - rewrite T. split; [reflexivity | congruence].
Qed.

(** ** Sums over the sales *)

(** Sales with distinct identifiers: what deleting or replacing the sale
    with identifier [saleId] does to a sum over the sales. *)
Section Sums.

Variable w : Sale.t -> Z.

Lemma sumOf_cons (x : Sale.t) (l : list Sale.t) :
  sumOf w (x :: l) = (w x + sumOf w l)%Z.
Proof. reflexivity. Qed.

Lemma findSale_fresh (saleId : string) (l : list Sale.t) :
  findSale saleId l = None -> ~ In saleId (map Sale.id l).
Proof.
  unfold findSale. induction l as [|x l IH]; [intros _ []|].
  cbn [find map]. destruct (Sale.id x =? saleId)%string eqn:E; [discriminate|].
  apply String.eqb_neq in E. intros H [H1 | H1]; [congruence | now apply IH].
Qed.

Lemma fresh_findSale (saleId : string) (l : list Sale.t) :
  ~ In saleId (map Sale.id l) -> findSale saleId l = None.
Proof.
  unfold findSale. induction l as [|x l IH]; [reflexivity|].
  cbn [find map]. intros H.
  destruct (Sale.id x =? saleId)%string eqn:E.
  - apply String.eqb_eq in E. exfalso. apply H. now left.
  - apply IH. intros H1. apply H. now right.
Qed.

Lemma sum_filter_out (saleId : string) (l : list Sale.t) (s : Sale.t) :
  NoDup (map Sale.id l) -> findSale saleId l = Some s ->
  sumOf w (List.filter (fun x => negb (String.eqb (Sale.id x) saleId)) l) =
  (sumOf w l - w s)%Z.
Proof.
  unfold findSale. induction l as [|x l IH]; [discriminate|].
  cbn [map find List.filter]. intros ND Hf.
  apply NoDup_cons in ND as [Hx ND']. rewrite list_elem_of_In in Hx.
  destruct (Sale.id x =? saleId)%string eqn:E; cbn [negb].
  - apply (inj Some) in Hf. subst x. apply String.eqb_eq in E. rewrite <- E in *.
    rewrite (findSale_None _ _ (fresh_findSale _ _ Hx)), sumOf_cons. lia.
  - rewrite !sumOf_cons, (IH ND' Hf). lia.
Qed.

Lemma replaceSale_fresh (saleId : string) (s' : Sale.t) (l : list Sale.t) :
  ~ In saleId (map Sale.id l) -> replaceSale saleId s' l = l.
Proof.
  intros H. unfold replaceSale. apply map_id_on. intros x Hx.
  destruct (Sale.id x =? saleId)%string eqn:E; [|reflexivity].
  apply String.eqb_eq in E. exfalso. apply H. rewrite <- E. now apply in_map.
Qed.

Lemma sum_replace (saleId : string) (l : list Sale.t) (s s' : Sale.t) :
  NoDup (map Sale.id l) -> findSale saleId l = Some s ->
  sumOf w (replaceSale saleId s' l) = (sumOf w l - w s + w s')%Z.
Proof.
  unfold findSale. induction l as [|x l IH]; [discriminate|].
  cbn [map find replaceSale]. intros ND Hf.
  apply NoDup_cons in ND as [Hx ND']. rewrite list_elem_of_In in Hx.
  destruct (Sale.id x =? saleId)%string eqn:E.
  - apply (inj Some) in Hf. subst x. apply String.eqb_eq in E. rewrite <- E in *.
    fold (replaceSale (Sale.id s) s' l).
    rewrite (replaceSale_fresh _ _ _ Hx), !sumOf_cons. lia.
  - fold (replaceSale saleId s' l). rewrite !sumOf_cons, (IH ND' Hf). lia.
Qed.

Lemma sum_member (l : list Sale.t) (s : Sale.t) :
  Forall (fun x => (0 <= w x)%Z) l -> In s l -> (0 <= w s <= sumOf w l)%Z.
Proof.
  induction 1 as [|x l Hx Hl IH]; [intros []|].
  assert (0 <= sumOf w l)%Z.
  { clear IH. induction Hl; [cbn; lia|]. rewrite sumOf_cons. lia. }
  rewrite sumOf_cons. intros [-> | Hs]; [lia|].
  specialize (IH Hs). lia.
Qed.

End Sums.

Lemma replaceSale_ids (saleId : string) (s' : Sale.t) (l : list Sale.t) :
  Sale.id s' = saleId -> map Sale.id (replaceSale saleId s' l) = map Sale.id l.
Proof.
  intros E. unfold replaceSale. rewrite map_map. apply map_ext_in.
  intros x _. destruct (Sale.id x =? saleId)%string eqn:E1; [|reflexivity].
  apply String.eqb_eq in E1. congruence.
Qed.

Lemma NoDup_filter_ids (saleId : string) (l : list Sale.t) :
  NoDup (map Sale.id l) ->
  NoDup (map Sale.id (List.filter (fun x => negb (String.eqb (Sale.id x) saleId)) l)).
Proof.
  induction l as [|x l IH]; [auto|].
  cbn [map List.filter]. intros ND.
  apply NoDup_cons in ND as [Hx ND']. rewrite list_elem_of_In in Hx.
  destruct (negb (Sale.id x =? saleId)%string); [|auto].
  cbn [map]. apply NoDup_cons. split; [|auto].
  rewrite list_elem_of_In. intros H. apply Hx. apply in_map_iff in H as (y & Ey & Hy).
  apply filter_In in Hy as [Hy _]. rewrite <- Ey. now apply in_map.
Qed.

Lemma Forall_replaceSale (P : Sale.t -> Prop) (saleId : string) (s' : Sale.t)
    (l : list Sale.t) :
  P s' -> Forall P l -> Forall P (replaceSale saleId s' l).
Proof.
  intros Hs H. unfold replaceSale. induction H; cbn; constructor; auto.
  now destruct (Sale.id x =? saleId)%string.
Qed.

Lemma Forall_filter_keeps {A : Type} (P : A -> Prop) (f : A -> bool) (l : list A) :
  Forall P l -> Forall P (List.filter f l).
Proof.
  intros H. induction H; cbn; [constructor|]. destruct (f x); auto.
Qed.

(** ** The books of an item *)

Lemma saleQtyField_same (it it' : Item.t) (s : Sale.t) :
  Item.trackBy it' = Item.trackBy it -> saleQtyField it' s = saleQtyField it s.
Proof. intros E. unfold saleQtyField. now rewrite E. Qed.

Lemma soldBy_same (it it' : Item.t) (s : Sale.t) :
  Item.id it' = Item.id it -> Item.trackBy it' = Item.trackBy it ->
  soldBy it' s = soldBy it s.
Proof.
  intros E1 E2. unfold soldBy, saleQty. now rewrite E1, (saleQtyField_same it it' s E2).
Qed.

Lemma soldOf_same (it it' : Item.t) (sls : list Sale.t) :
  Item.id it' = Item.id it -> Item.trackBy it' = Item.trackBy it ->
  soldOf it' sls = soldOf it sls.
Proof.
  intros E1 E2. unfold soldOf. induction sls as [|s sls IH]; [reflexivity|].
  now rewrite !sumOf_cons, IH, (soldBy_same it it' s E1 E2).
Qed.

Lemma soldBy_other (it : Item.t) (s : Sale.t) :
  Sale.itemId s <> Item.id it -> soldBy it s = 0%Z.
Proof. intros H. unfold soldBy. apply String.eqb_neq in H. now rewrite H. Qed.

Lemma soldBy_count (it : Item.t) (s : Sale.t) :
  Sale.itemId s = Item.id it -> count (JS.or0 (saleQtyField it s)) ->
  soldBy it s = toZ (JS.or0 (saleQtyField it s)).
Proof.
  intros E C. unfold soldBy, saleQty. rewrite E, String.eqb_refl.
  now rewrite (whole_clampNonNeg _ _ C).
Qed.

Lemma soldBy_nonneg (it : Item.t) (s : Sale.t) :
  (Sale.itemId s = Item.id it -> count (JS.or0 (saleQtyField it s))) ->
  (0 <= soldBy it s)%Z.
Proof.
  intros H. destruct (decide (Sale.itemId s = Item.id it)) as [E|E].
  - rewrite (soldBy_count it s E (H E)). apply count_bounds. auto.
  - rewrite (soldBy_other it s E). lia.
Qed.

(** The books balance in a state as soon as they are shown to for the
    item found there. *)
Lemma balanced_intro (k : string) (T : Z) (it it' : Item.t) (a' : Z) (st' : State) :
  Item.id it = k ->
  Item.id it' = Item.id it -> Item.trackBy it' = Item.trackBy it ->
  itemMap (items st') !! k = Some it' ->
  whole (stockInMode it') a' ->
  Forall (fun s => Sale.itemId s = k -> count (JS.or0 (saleQtyField it s))) (sales st') ->
  NoDup (map Sale.id (sales st')) ->
  (a' + soldOf it (sales st'))%Z = T ->
  (T < 2 ^ 53)%Z ->
  balanced k T st'.
Proof.
  intros Ek E1 E2 L W F ND S HT. exists it'.
  split; [exact L|]. split; [exact (whole_count _ _ W)|].
  split.
  { eapply List.Forall_impl; [|exact F]. intros s H Hs.
    rewrite (saleQtyField_same it it' s E2). auto. }
  split; [exact ND|]. split; [|exact HT].
  now rewrite (whole_toZ _ _ W), (soldOf_same it it' _ E1 E2).
Qed.

Lemma Some_item_inj (i j : Item.t) : Some i = Some j -> i = j.
Proof. apply (inj Some). Qed.

(** One operation keeps the books. *)
Lemma step_balanced (k : string) (T : Z) (st : State) (o : Op) :
  balanced k T st -> keepsBooks k st o -> balanced k T (step st o).
Proof.
  intros B HK. pose proof B as (it & L & Ca & Fa & ND & Sum & HT).
  pose proof (itemMap_lookup_id _ _ _ L) as Ek.
  assert (Wa : whole (stockInMode it) (toZ (stockInMode it))) by exact Ca.
  set (a := toZ (stockInMode it)) in *.
  assert (Fw : Forall (fun s => (0 <= soldBy it s)%Z) (sales st)).
  { eapply List.Forall_impl; [|exact Fa]. intros s H. apply soldBy_nonneg.
    rewrite Ek. exact H. }
  assert (Ha : (0 <= a)%Z) by (destruct Wa; lia).
  destruct o as [now id du dk|newId now payload|now saleId changes|now saleId];
    cbn [step keepsBooks] in *.
  - (* adjustStock of another item *)
    apply (balanced_intro k T it it a); auto.
    cbn. rewrite itemMap_adjust_other by congruence. exact L.
  - (* addSale *)
    destruct HK as [Fresh Hq].
    destruct (itemMap (items st) !! SalePayload.itemId payload) as [it0|] eqn:L0;
      [|unfold addSale; rewrite L0; exact B].
    pose proof (itemMap_lookup_id _ _ _ L0) as Ek0.
    assert (NDn : NoDup (map Sale.id (newSale newId now it0 payload :: sales st))).
    { cbn [map]. apply NoDup_cons. split; [|exact ND].
      rewrite list_elem_of_In.
      destruct (newSale_fields newId now it0 payload) as (-> & _).
      now apply findSale_fresh. }
    destruct (decide (SalePayload.itemId payload = k)) as [E|E].
    + rewrite E, L in L0. apply Some_item_inj in L0. subst it0.
      specialize (Hq it L E).
      assert (L1 : itemMap (items st) !! SalePayload.itemId payload = Some it)
        by (rewrite E; exact L).
      pose proof (addSale_whole newId now payload st it a _ L1 Wa Hq) as H.
      cbn zeta in H.
      destruct ((0 <? _)%Z && (_ <=? a)%Z) eqn:C.
      * destruct H as (-> & Wq & Ws). cbn [fst].
        apply andb_prop in C as [C1 C2]. apply Z.ltb_lt in C1. apply Z.leb_le in C2.
        destruct (newSale_fields newId now it payload) as (_ & N2 & N3 & _).
        assert (Cn : count (JS.or0 (saleQtyField it (newSale newId now it payload)))).
        { rewrite N3.
          rewrite (integer_or0 _ _ (whole_integer _ _ Wq)). exact (whole_count _ _ Wq). }
        eapply (balanced_intro k T it); [exact Ek | apply adjustItem_id
          | apply adjustItem_trackBy | | exact Ws | | exact NDn | | exact HT].
        -- cbn [items]. now apply itemMap_adjustStock.
        -- cbn [sales]. constructor; [intros _; exact Cn | exact Fa].
        -- cbn [sales]. unfold soldOf. rewrite sumOf_cons.
           rewrite (soldBy_count it _ N2 Cn), N3.
           rewrite (integer_or0 _ _ (whole_integer _ _ Wq)), (whole_toZ _ _ Wq).
           fold (soldOf it (sales st)). lia.
      * destruct H as [-> _]. exact B.
    + rewrite (addSale_cases _ _ _ _ _ L0). cbn zeta.
      destruct (_ <=? 0); [exact B|]. destruct (_ <? _); [exact B|]. cbn [fst].
      destruct (newSale_fields newId now it0 payload) as (_ & N2 & _).
      assert (N : Sale.itemId (newSale newId now it0 payload) <> k) by congruence.
      apply (balanced_intro k T it it a); auto.
      * cbn [items]. rewrite itemMap_adjust_other by congruence. exact L.
      * cbn [sales]. constructor; [intros; contradiction | exact Fa].
      * cbn [sales]. unfold soldOf. rewrite sumOf_cons, soldBy_other by congruence.
        exact Sum.
  - (* updateSale *)
    destruct HK as (Hid & Hitem & Hq).
    destruct (findSale saleId (sales st)) as [old|] eqn:Hf;
      [|unfold updateSale; rewrite Hf; exact B].
    destruct (itemMap (items st) !! Sale.itemId old) as [it0|] eqn:L0;
      [|unfold updateSale; rewrite Hf, L0; exact B].
    pose proof (itemMap_lookup_id _ _ _ L0) as Ek0.
    destruct (findSale_Some _ _ _ Hf) as [Hin Eid].
    assert (Nid : forall v, Sale.id (Sale.with_total v (mergeSale changes old)) = saleId).
    { intros v. cbn. now rewrite Hid. }
    assert (Nit : forall v, Sale.itemId (Sale.with_total v (mergeSale changes old)) = Sale.itemId old).
    { intros v. cbn. now rewrite Hitem. }
    assert (NDr : forall v, NoDup (map Sale.id (replaceSale saleId (Sale.with_total v (mergeSale changes old))
                                                            (sales st)))).
    { intros v. now rewrite replaceSale_ids. }
    destruct (decide (Sale.itemId old = k)) as [E|E].
    + pose proof L0 as L0'. rewrite E, L in L0'. apply Some_item_inj in L0'. subst it0.
      assert (Cn : count (JS.or0 (saleQtyField it old))).
      { rewrite List.Forall_forall in Fa. now apply Fa. }
      assert (Cn' : count (JS.or0 (saleQtyField it (mergeSale changes old)))).
      { unfold saleQtyField in *. specialize (Hq it).
        unfold changesQtyField in Hq.
        destruct (Item.trackBy it); cbn [mergeSale Sale.qtyUnits Sale.qtyKg].
        - destruct (PartialSale.qtyUnits changes) as [v|]; [now apply Hq | exact Cn].
        - destruct (PartialSale.qtyKg changes) as [v|]; [now apply Hq | exact Cn]. }
      assert (Cq : forall v, count (JS.or0 (saleQtyField it (Sale.with_total v (mergeSale changes old)))))
        by (intros v; exact Cn').
      pose proof (sum_member (soldBy it) _ _ Fw Hin) as Hm.
      rewrite (soldBy_count it old (eq_trans E (eq_sym Ek)) Cn) in Hm.
      fold (soldOf it (sales st)) in Hm.
      pose proof (updateSale_whole now saleId changes st old it a _ _ Hf L0 Wa Cn Cn')
        as H. cbn zeta in H.
      assert (Hs : forall v,
                 soldOf it (replaceSale saleId (Sale.with_total v (mergeSale changes old)) (sales st)) =
                 (soldOf it (sales st) - toZ (JS.or0 (saleQtyField it old))
                  + toZ (JS.or0 (saleQtyField it (mergeSale changes old))))%Z).
      { intros v. unfold soldOf. rewrite (sum_replace _ _ _ old _ ND Hf).
        rewrite (soldBy_count it old (eq_trans E (eq_sym Ek)) Cn).
        rewrite (soldBy_count it (Sale.with_total v (mergeSale changes old))); [reflexivity | | exact (Cq v)].
        rewrite Nit. congruence. }
      assert (Fr : forall v,
                 Forall (fun s => Sale.itemId s = k -> count (JS.or0 (saleQtyField it s)))
                        (replaceSale saleId (Sale.with_total v (mergeSale changes old)) (sales st))).
      { intros v. apply Forall_replaceSale; [intros _; exact (Cq v) | exact Fa]. }
      specialize (H ltac:(lia)).
      destruct (a <? _)%Z; [rewrite H; exact B|].
      destruct (_ =? _)%Z eqn:E0.
      * rewrite H. cbn [fst]. apply Z.eqb_eq in E0.
        apply (balanced_intro k T it it a); auto; cbn [sales];
          [apply Fr | apply NDr | rewrite Hs; lia].
      * destruct H as [-> Ws]. cbn [fst].
        eapply (balanced_intro k T it); [exact Ek | apply adjustItem_id
          | apply adjustItem_trackBy | | exact Ws | apply Fr | apply NDr | | exact HT].
        -- cbn [items]. now apply itemMap_adjustStock.
        -- cbn [sales]. rewrite Hs. lia.
    + assert (Hs : forall v,
                 soldOf it (replaceSale saleId (Sale.with_total v (mergeSale changes old)) (sales st)) =
                 soldOf it (sales st)).
      { intros v. unfold soldOf. rewrite (sum_replace _ _ _ old _ ND Hf).
        rewrite !soldBy_other; [lia | rewrite Nit; congruence | congruence]. }
      assert (Fr : forall v,
                 Forall (fun s => Sale.itemId s = k -> count (JS.or0 (saleQtyField it s)))
                        (replaceSale saleId (Sale.with_total v (mergeSale changes old)) (sales st))).
      { intros v. apply Forall_replaceSale; [|exact Fa].
        rewrite Nit. intros; contradiction. }
      rewrite (updateSale_cases _ _ _ _ _ _ Hf L0). cbn zeta.
      destruct (negb _); [destruct (_ && _); [exact B|]|]; cbn [fst];
        apply (balanced_intro k T it it a); auto; cbn [items sales];
        rewrite ?Hs; auto.
      rewrite itemMap_adjust_other by congruence. exact L.
  - (* deleteSale *)
    destruct (findSale saleId (sales st)) as [s|] eqn:Hf;
      [|unfold deleteSale; rewrite Hf; exact B].
    destruct (findSale_Some _ _ _ Hf) as [Hin Eid].
    pose proof (NoDup_filter_ids saleId _ ND) as NDf.
    pose proof (Forall_filter_keeps _ (fun x => negb (Sale.id x =? saleId)%string) _ Fa)
      as Ff.
    pose proof (sum_filter_out (soldBy it) _ _ _ ND Hf) as Hs.
    fold (soldOf it (sales st)) in Hs.
    destruct (itemMap (items st) !! Sale.itemId s) as [it0|] eqn:L0.
    + pose proof (itemMap_lookup_id _ _ _ L0) as Ek0.
      destruct (decide (Sale.itemId s = k)) as [E|E].
      * pose proof L0 as L0'. rewrite E, L in L0'. apply Some_item_inj in L0'. subst it0.
        assert (Cn : count (JS.or0 (saleQtyField it s))).
        { rewrite List.Forall_forall in Fa. now apply Fa. }
        pose proof (sum_member (soldBy it) _ _ Fw Hin) as Hm.
        rewrite (soldBy_count it s (eq_trans E (eq_sym Ek)) Cn) in Hm, Hs.
        fold (soldOf it (sales st)) in Hm.
        destruct (deleteSale_whole now saleId st s it a _ Hf L0 Wa Cn ltac:(lia))
          as [-> Ws].
        destruct (_ =? 0)%Z eqn:E0.
        -- apply Z.eqb_eq in E0. apply (balanced_intro k T it it a); auto.
           cbn [sales]. unfold soldOf. rewrite Hs. lia.
        -- apply Z.eqb_neq in E0. specialize (Ws E0).
           eapply (balanced_intro k T it); [exact Ek | apply adjustItem_id
             | apply adjustItem_trackBy | | exact Ws | exact Ff | exact NDf | | exact HT].
           ++ cbn [items]. now apply itemMap_adjustStock.
           ++ cbn [sales]. unfold soldOf. rewrite Hs. lia.
      * rewrite soldBy_other in Hs by congruence.
        rewrite (deleteSale_cases _ _ _ _ _ Hf L0).
        apply (balanced_intro k T it it a); auto; cbn [items sales].
        -- destruct (JS.truthy_opt _); [|exact L].
           rewrite itemMap_adjust_other by congruence. exact L.
        -- unfold soldOf. rewrite Hs. lia.
    + assert (E : Sale.itemId s <> k) by congruence.
      rewrite soldBy_other in Hs by congruence.
      unfold deleteSale. rewrite Hf, L0.
      apply (balanced_intro k T it it a); auto; cbn [items sales].
      unfold soldOf. rewrite Hs. lia.
Qed.

(** X14. Units are conserved.  When the stock of an item and the
    quantities of its sales are whole numbers that add up to [T], below
    [2 ^ 53], and the sales have distinct identifiers, then after any
    sequence of sales, edits and deletions of sales, and stock
    adjustments of other items, they still are and still add up to [T]:
    what is sold leaves the stock and what is given back returns to it,
    exactly, and a refused sale or edit changes neither. *)
Theorem books_balance (k : string) (T : Z) (st : State) (ops : list Op) :
  balanced k T st -> keepBooks k st ops -> balanced k T (run st ops).
Proof.
  revert st. unfold run. induction ops as [|o ops IH]; intros st B K; [exact B|].
  destruct K as [K1 K2]. cbn [foldl]. apply IH; [|exact K2].
  now apply step_balanced.
Qed.

(** Three apples in stock and none sold: after a sale of two, its edit to
    three and its deletion the books still balance at three. *)
Lemma books_balance_witness : balanced "a1" 3 (run shop sellEditDelete).
Proof.
  apply books_balance.
  - exists apples. split; [reflexivity|]. split; [count_lit|].
    split; [constructor|]. split; [constructor|]. split; [reflexivity | lia].
  - cbn [keepBooks keepsBooks sellEditDelete].
    split.
    { split; [reflexivity|]. intros it H _. vm_compute in H.
      apply (inj Some) in H. subst it. count_lit. }
    split.
    { split; [reflexivity|]. split; [reflexivity|]. intros it v H Hv.
      vm_compute in H. apply (inj Some) in H. subst it.
      cbn in Hv. apply (inj Some) in Hv. subst v. count_lit. }
    split; exact I.
Defined.

(** ** Stock in whole numbers *)






(** ** The edit form of a sale *)



(** ** The rows of the inventory *)






(** Searching the stall for "  APPLE ": the two kinds of apples. *)
Example filteredItems_apple :
  map Item.id (filteredItems "  APPLE " stall) = ["a1"; "g1"].
Proof. reflexivity. Qed.

(** ** The figures of the card *)

Lemma sumOf_nonneg (w : Sale.t -> Z) (l : list Sale.t) :
  Forall (fun s => (0 <= w s)%Z) l -> (0 <= sumOf w l)%Z.
Proof. induction 1; [cbn; lia|]. rewrite sumOf_cons. lia. Qed.

Lemma soldInMode_addToStats (it : Item.t) (st : Stats) (s : Sale.t) :
  soldInMode it (addToStats st s) = soldInMode it st + saleQty it s.
Proof.
  unfold soldInMode, saleQty, saleQtyField. now destruct (Item.trackBy it).
Qed.

Lemma saleQty_count (it : Item.t) (s : Sale.t) :
  count (JS.or0 (saleQtyField it s)) -> whole (saleQty it s) (toZ (saleQty it s)).
Proof. intros C. unfold saleQty. now rewrite (whole_clampNonNeg _ _ C). Qed.

(** Whole quantities are summed exactly by the statistics. *)
Lemma foldl_addToStats_sold (it : Item.t) (l : list Sale.t) (acc : Stats) (A : Z) :
  Forall (fun s => count (JS.or0 (saleQtyField it s))) l ->
  whole (soldInMode it acc) A ->
  (A + sumOf (fun s => toZ (saleQty it s)) l < 2 ^ 53)%Z ->
  whole (soldInMode it (foldl addToStats acc l))
        (A + sumOf (fun s => toZ (saleQty it s)) l).
Proof.
  intros F. revert acc A. induction F as [|s l Hs F IH]; intros acc A W Hb.
  - cbn. now rewrite Z.add_0_r.
  - cbn [foldl]. rewrite sumOf_cons in *. rewrite Z.add_assoc in *.
    pose proof (saleQty_count it s Hs) as Wq.
    assert (0 <= sumOf (fun s => toZ (saleQty it s)) l)%Z.
    { apply sumOf_nonneg. eapply List.Forall_impl; [|exact F].
      intros x Hx. apply (saleQty_count it x) in Hx. destruct Hx. lia. }
    apply IH; [|exact Hb].
    rewrite soldInMode_addToStats. apply integer_whole.
    + apply integer_add; auto using whole_integer. destruct W, Wq. lia.
    + destruct W, Wq. lia.
Qed.

Lemma soldOf_salesOf (it : Item.t) (sls : list Sale.t) :
  soldOf it sls = sumOf (fun s => toZ (saleQty it s)) (salesOf (Item.id it) sls).
Proof.
  unfold soldOf, salesOf. induction sls as [|s sls IH]; [reflexivity|].
  rewrite sumOf_cons, IH. cbn [List.filter]. unfold soldBy.
  destruct (Sale.itemId s =? Item.id it)%string; [now rewrite sumOf_cons | lia].
Qed.

(** X19. The figures of a card add up.  For an item whose books balance
    at [T], the figure that [statsByItem] reports as sold, in units or in
    kilograms according to the tracking mode, is exactly the whole number
    that the sales of the item hold, and the stock left plus the figure
    sold is [T]. *)
Theorem stats_match_books (k : string) (T : Z) (st : State) :
  balanced k T st ->
  exists (it : Item.t) (rec : Stats),
    itemMap (items st) !! k = Some it /\
    statsByItem (items st) (sales st) !! k = Some rec /\
    whole (soldInMode it rec) (soldOf it (sales st)) /\
    (toZ (stockInMode it) + toZ (soldInMode it rec))%Z = T.
Proof.
  intros (it & L & Ca & Fa & ND & Sum & HT).
  pose proof (itemMap_lookup_id _ _ _ L) as Ek.
  set (rec := foldl addToStats (mkStats 0 0 0) (salesOf k (sales st))).
  assert (W : whole (soldInMode it rec) (soldOf it (sales st))).
  { rewrite soldOf_salesOf, Ek.
    rewrite <- (Z.add_0_l (sumOf _ _)).
    apply foldl_addToStats_sold.
    - unfold salesOf. apply List.Forall_forall. intros s Hs.
      apply filter_In in Hs as [Hs E]. apply String.eqb_eq in E.
      rewrite List.Forall_forall in Fa. auto.
    - unfold soldInMode. destruct (Item.trackBy it); exact whole_zero.
    - rewrite Z.add_0_l, <- Ek, <- soldOf_salesOf.
      pose proof (count_bounds _ Ca). lia. }
  exists it, rec. split; [exact L|]. split.
  - unfold statsByItem. rewrite foldl_statsAdd_lookup, statsBase_lookup.
    assert (E : existsb (fun i => (Item.id i =? k)%string) (items st) = true).
    { apply hasItem_iff. exists it. split; [now apply (itemMap_In _ k) | exact Ek]. }
    now rewrite E.
  - split; [exact W|]. now rewrite (whole_toZ _ _ W).
Qed.

(** The apples after two of three are sold: one left, two sold. *)
Lemma stats_match_books_witness :
  exists (it : Item.t) (rec : Stats),
    itemMap (items (run shop [RecordSale "s1" 1 (sell 2)])) !! "a1" = Some it /\
    statsByItem (items (run shop [RecordSale "s1" 1 (sell 2)]))
                (sales (run shop [RecordSale "s1" 1 (sell 2)])) !! "a1" = Some rec /\
    whole (soldInMode it rec) (soldOf it (sales (run shop [RecordSale "s1" 1 (sell 2)]))) /\
    (toZ (stockInMode it) + toZ (soldInMode it rec))%Z = 3%Z.
Proof.
  apply (stats_match_books "a1" 3 (run shop [RecordSale "s1" 1 (sell 2)])).
  eexists. split; [reflexivity|]. split; [count_lit|].
  split.
  { apply List.Forall_forall. intros s Hs. vm_compute in Hs.
    destruct Hs as [<- | []]. intros _. count_lit. }
  split; [|split; [reflexivity | lia]].
  vm_compute. apply NoDup_cons_2; [intros H; inversion H | apply NoDup_nil_2].
Defined.

(** ** The books through the user interface *)

Lemma itemMap_from (m : gmap string Item.t) (l : list Item.t) (k : string) :
  foldl (fun m i => <[Item.id i := i]> m) m l !! k =
  match itemMap l !! k with
  | Some i => Some i
  | None => m !! k
  end.
Proof.
  induction l as [|x l IH] using rev_ind.
  - now rewrite itemMap_nil.
  - rewrite foldl_app, itemMap_snoc. cbn [foldl]. rewrite !lookup_insert.
    case_decide; [reflexivity | exact IH].
Qed.

(** An item put in front of the items is found only under an identifier
    that no other item has. *)
Lemma itemMap_cons (x : Item.t) (l : list Item.t) (k : string) :
  itemMap (x :: l) !! k =
  match itemMap l !! k with
  | Some i => Some i
  | None => if decide (Item.id x = k) then Some x else None
  end.
Proof.
  unfold itemMap at 1. cbn [foldl]. rewrite itemMap_from, lookup_insert, lookup_empty.
  reflexivity.
Qed.

Lemma balanced_items (k : string) (T : Z) (st : State) (its : list Item.t) :
  balanced k T st ->
  itemMap its !! k = itemMap (items st) !! k ->
  balanced k T (mkState its (sales st)).
Proof.
  intros (it & L & H) E. exists it. cbn [items sales]. rewrite E. auto.
Qed.

Lemma sumOf_filter_zero (w : Sale.t -> Z) (f : Sale.t -> bool) (l : list Sale.t) :
  (forall s, f s = false -> w s = 0%Z) ->
  sumOf w (List.filter f l) = sumOf w l.
Proof.
  intros H. induction l as [|s l IH]; [reflexivity|].
  cbn [List.filter]. destruct (f s) eqn:E; rewrite !sumOf_cons, ?IH; [reflexivity|].
  rewrite (H s E). lia.
Qed.

Lemma NoDup_filter_map (f : Sale.t -> bool) (l : list Sale.t) :
  NoDup (map Sale.id l) -> NoDup (map Sale.id (List.filter f l)).
Proof.
  induction l as [|x l IH]; [auto|].
  cbn [map List.filter]. intros ND.
  apply NoDup_cons in ND as [Hx ND']. rewrite list_elem_of_In in Hx.
  destruct (f x); [|auto].
  cbn [map]. apply NoDup_cons. split; [|auto].
  rewrite list_elem_of_In. intros H. apply Hx. apply in_map_iff in H as (y & Ey & Hy).
  apply filter_In in Hy as [Hy _]. rewrite <- Ey. now apply in_map.
Qed.

(** Deleting another item, with or without its sales, keeps the books. *)
Lemma deleteItem_balanced (k : string) (T : Z) (st : State) (id : string) (also : bool) :
  balanced k T st -> id <> k -> balanced k T (deleteItem id also st).
Proof.
  intros B Hne. unfold deleteItem.
  assert (B' : balanced k T
                 (mkState (items st)
                    (if also
                     then List.filter (fun s => negb (Sale.itemId s =? id)%string) (sales st)
                     else sales st))).
  { destruct also; [|now rewrite State_eta].
    destruct B as (it & L & Ca & Fa & ND & Sum & HT).
    pose proof (itemMap_lookup_id _ _ _ L) as Ek.
    exists it. cbn [items sales].
    split; [exact L|]. split; [exact Ca|].
    split; [now apply Forall_filter_keeps|].
    split; [now apply NoDup_filter_map|].
    split; [|exact HT].
    unfold soldOf in *. rewrite sumOf_filter_zero; [exact Sum|].
    intros s E. apply negb_false_iff, String.eqb_eq in E.
    apply soldBy_other. congruence. }
  apply (balanced_items k T _ _ B'). cbn [items].
  rewrite itemMap_filter. case_decide; [congruence | reflexivity].
Qed.

(** Saving the form of another item, new or edited, keeps the books. *)
Lemma submit_balanced (k : string) (T : Z) (st : State) (newId : string) (now : float)
    (editing : option Item.t) (form : PartialItem.t) :
  balanced k T st ->
  (forall e, editing = Some e -> Item.id e <> k) ->
  balanced k T (InventoryTab.submit newId now editing form st).
Proof.
  intros B He. pose proof B as (it & L & _).
  pose proof (itemMap_lookup_id _ _ _ L) as Ek.
  unfold InventoryTab.submit, upsertItem.
  assert (C : forall x, balanced k T (mkState (x :: items st) (sales st))).
  { intros x. apply (balanced_items k T st _ B). now rewrite itemMap_cons, L. }
  destruct (PartialItem.id (InventoryTab.payload editing form)) as [[|c pid]|] eqn:E;
    [apply C | | apply C].
  apply (balanced_items k T st _ B).
  destruct editing as [e|]; [|discriminate].
  cbn in E. apply (inj Some) in E.
  rewrite itemMap_map.
  - rewrite L. cbn. f_equal.
    assert (N : (Item.id it =? String c pid)%string = false).
    { apply String.eqb_neq. intros Hk. apply (He e eq_refl). congruence. }
    now rewrite N.
  - intros i. destruct (Item.id i =? String c pid)%string eqn:N; [|reflexivity].
    apply String.eqb_eq in N.
    unfold mergeItem, InventoryTab.payload.
    cbn [Item.id PartialItem.id option_map spread]. congruence.
Qed.

(** One action keeps the books. *)
Lemma act_balanced (k : string) (T : Z) (st : State) (a : Action) :
  balanced k T st -> keepsBooksUI k st a -> balanced k T (act st a).
Proof.
  intros B K.
  destruct a as [newId now editing form|id also|now i n|newId now f|now sale item e
                |now saleId]; cbn [act keepsBooksUI] in *.
  - now apply submit_balanced.
  - now apply deleteItem_balanced.
  - unfold RestockButton.apply. destruct (0 <? n); [|exact B].
    destruct (Item.trackBy i).
    + now apply (step_balanced k T st (AdjustStock now (Item.id i) (Some n) (Some 0))).
    + now apply (step_balanced k T st (AdjustStock now (Item.id i) (Some 0) (Some n))).
  - destruct K as (Fresh & Cu & Ck).
    unfold SellTab.submit. destruct (SellTab.current f (items st)) as [cur|]; [|exact B].
    assert (Cu' : count (JS.or0 (Some (JS.or0 (Some (SellTab.qtyUnits f)))))).
    { now rewrite !(integer_or0 _ _ (whole_integer _ _ Cu)). }
    assert (Ck' : count (JS.or0 (Some (JS.or0 (Some (SellTab.qtyKg f)))))).
    { now rewrite !(integer_or0 _ _ (whole_integer _ _ Ck)). }
    assert (C0 : count (JS.or0 None)) by exact (whole_count _ _ whole_zero).
    destruct (Item.trackBy cur);
      match goal with
      | |- balanced _ _ (fst (addSale ?i ?n ?p _)) =>
          apply (step_balanced k T st (RecordSale i n p)); [exact B|]
      end;
      (split; [exact Fresh|]); intros it _ _; unfold payloadQtyField;
      destruct (Item.trackBy it); assumption.
  - destruct K as (Cu & Ck). unfold EditableSaleCard.save.
    apply (step_balanced k T st
             (UpdateSale now (Sale.id sale) (EditableSaleCard.changes item e)));
      [exact B|].
    cbn [keepsBooks]. unfold EditableSaleCard.changes, changesQtyField.
    destruct (Item.trackBy item); (split; [reflexivity|]); (split; [reflexivity|]);
      intros it v _; destruct (Item.trackBy it); cbn; intros Hv;
      try discriminate; apply (inj Some) in Hv; subst v.
    + now rewrite (integer_or0 _ _ (whole_integer _ _ Cu)).
    + now rewrite (integer_or0 _ _ (whole_integer _ _ Ck)).
  - now apply (step_balanced k T st (DeleteSale now saleId)).
Qed.

(** X20. Units are conserved through the user interface.  When the books
    of an item balance at [T], they still do after any sequence of
    actions in which other items are created, edited, deleted (with their
    sales or without) and restocked, and sales of any item are made
    through the sell form, edited through the edit form and deleted, as
    long as the quantities typed are whole numbers and new sales get
    identifiers that no sale has: the stock of the item plus what its
    sales hold is [T] throughout. *)
Theorem session_books_balance (k : string) (T : Z) (st : State) (acts : list Action) :
  balanced k T st ->
  Forall namedEdit acts ->
  keepBooksUI k st acts ->
  balanced k T (session st acts).
Proof.
  intros B _. revert st B. unfold session.
  induction acts as [|a acts IH]; intros st B K; [exact B|].
  destruct K as [K1 K2]. cbn [foldl]. apply IH; [|exact K2].
  now apply act_balanced.
Qed.

(** Three apples in stock and none sold: the books of the apples balance
    at three after the day at the stall. *)
Lemma session_books_balance_witness : balanced "a1" 3 (session shop applesDay).
Proof.
  apply session_books_balance.
  - exists apples. split; [reflexivity|]. split; [count_lit|].
    split; [constructor|]. split; [constructor|]. split; [reflexivity | lia].
  - repeat constructor.
  - cbn [keepBooksUI keepsBooksUI applesDay].
    split; [intros e H; discriminate H|].
    split; [split; [reflexivity | split; count_lit]|].
    split; [split; count_lit|].
    split; [discriminate|].
    split; exact I.
Defined.
